(** * Open Apparel Registry: facility resolution workflow

    A shallow embedding of [api/models.py] and of the list views of
    [api/views.py] (upload, confirm a match, reject a match), together
    with the properties of the adjudication protocol, of the identifier
    allocator and of the derived views of a facility.

    Tables are finite maps from primary keys to rows, a model instance
    held by a view is a pair of its primary key and a copy of its row,
    and a view is a computation in a state-and-exception monad over the
    database and the environment of the process. *)

From Stdlib Require Import Ascii.
From stdpp Require Import gmap strings list fin_maps pretty sorting.

Open Scope string_scope.
Open Scope Z_scope.

(** ** Data model ([api/models.py])

    The columns [created_at] and [updated_at], which the framework
    maintains by itself and no code of the application reads, are left
    out of the rows. *)

(** A point of a [PointField]; coordinates are only ever copied. *)
Record Point := { lng : Z; lat : Z }.

(** Values of a [JSONField]. *)
#[local] Set Warnings "-register-all".
Inductive json :=
| JNull
| JBool (b : bool)
| JNumber (n : Z)
| JString (s : string)
| JList (l : list json)
| JDict (d : list (string * json)).

(** [d[key]] on a dict literal, the last binding of a key winning. *)
Fixpoint dict_get (key : string) (d : list (string * json)) : option json :=
  match d with
  | [] => None
  | (k, v) :: rest =>
      match dict_get key rest with
      | Some v' => Some v'
      | None => if decide (k = key) then Some v else None
      end
  end.

Definition json_get (key : string) (j : json) : option json :=
  match j with
  | JDict d => dict_get key d
  | _ => None
  end.

Module Contributor.
Record t := {
  admin : Z;
  name : string;
}.
End Contributor.

Module FacilityList.
Record t := {
  contributor : option Z;
  name : string;
  description : option string;
  file_name : string;
  header : string;
  is_active : bool;
  is_public : bool;
  replaces : option Z;
}.

Definition set_is_active (b : bool) (l : t) : t :=
  {| contributor := contributor l; name := name l;
     description := description l; file_name := file_name l;
     header := header l; is_active := b; is_public := is_public l;
     replaces := replaces l |}.
End FacilityList.

(** [name] and [file_name] are declared [CharField(max_length=200)]. *)
Definition FacilityList_fits (l : FacilityList.t) : Prop :=
  (String.length (FacilityList.name l) ≤ 200)%nat
  ∧ (String.length (FacilityList.file_name l) ≤ 200)%nat.

#[global] Instance FacilityList_fits_dec l : Decision (FacilityList_fits l).
Proof. unfold FacilityList_fits. apply _. Defined.

Module FacilityListItem.
Inductive Status :=
| UPLOADED
| PARSED
| GEOCODED
| GEOCODED_NO_RESULTS
| MATCHED
| POTENTIAL_MATCH
| CONFIRMED_MATCH
| ERROR
| ERROR_PARSING
| ERROR_GEOCODING
| ERROR_MATCHING.

#[global] Instance Status_eq_dec : EqDecision Status.
Proof. solve_decision. Defined.

Definition ERROR_STATUSES : list Status :=
  [ERROR; ERROR_PARSING; ERROR_GEOCODING; ERROR_MATCHING].

Record t := {
  facility_list : Z;
  row_index : Z;
  raw_data : string;
  status : Status;
  processing_started_at : option string;
  processing_completed_at : option string;
  processing_results : list json;
  name : string;
  address : string;
  country_code : string;
  geocoded_point : option Point;
  geocoded_address : option string;
  facility : option string;
}.

Definition set_status (st : Status) (i : t) : t :=
  {| facility_list := facility_list i; row_index := row_index i;
     raw_data := raw_data i; status := st;
     processing_started_at := processing_started_at i;
     processing_completed_at := processing_completed_at i;
     processing_results := processing_results i;
     name := name i; address := address i;
     country_code := country_code i;
     geocoded_point := geocoded_point i;
     geocoded_address := geocoded_address i;
     facility := facility i |}.

Definition set_facility (f : option string) (i : t) : t :=
  {| facility_list := facility_list i; row_index := row_index i;
     raw_data := raw_data i; status := status i;
     processing_started_at := processing_started_at i;
     processing_completed_at := processing_completed_at i;
     processing_results := processing_results i;
     name := name i; address := address i;
     country_code := country_code i;
     geocoded_point := geocoded_point i;
     geocoded_address := geocoded_address i;
     facility := f |}.

Definition set_processing_results (r : list json) (i : t) : t :=
  {| facility_list := facility_list i; row_index := row_index i;
     raw_data := raw_data i; status := status i;
     processing_started_at := processing_started_at i;
     processing_completed_at := processing_completed_at i;
     processing_results := r;
     name := name i; address := address i;
     country_code := country_code i;
     geocoded_point := geocoded_point i;
     geocoded_address := geocoded_address i;
     facility := facility i |}.

(** [FacilityListItem(row_index=.., facility_list=.., raw_data=..)]:
    the other columns take their defaults. *)
Definition new (row_index : Z) (facility_list : Z) (raw_data : string) : t :=
  {| facility_list := facility_list; row_index := row_index;
     raw_data := raw_data; status := UPLOADED;
     processing_started_at := None; processing_completed_at := None;
     processing_results := [];
     name := ""; address := ""; country_code := "";
     geocoded_point := None; geocoded_address := None;
     facility := None |}.
End FacilityListItem.

Module Facility.
Record t := {
  name : string;
  address : string;
  country_code : string;
  location : Point;
  created_from : Z;
}.
End Facility.

Module FacilityMatch.
Inductive Status :=
| PENDING
| AUTOMATIC
| CONFIRMED
| REJECTED.

#[global] Instance Status_eq_dec : EqDecision Status.
Proof. solve_decision. Defined.

(** [confidence] is a [DecimalField] with two decimal places, kept in
    hundredths. *)
Record t := {
  facility_list_item : Z;
  facility : string;
  results : json;
  confidence : Z;
  status : Status;
}.

Definition set_status (st : Status) (m : t) : t :=
  {| facility_list_item := facility_list_item m;
     facility := facility m; results := results m;
     confidence := confidence m; status := st |}.
End FacilityMatch.

(** The tables. [Facility] has its OAR ID as primary key, the other
    models have an integer key given by the database. *)
Record Store := {
  Contributor_objects : gmap Z Contributor.t;
  FacilityList_objects : gmap Z FacilityList.t;
  FacilityListItem_objects : gmap Z FacilityListItem.t;
  Facility_objects : gmap string Facility.t;
  FacilityMatch_objects : gmap Z FacilityMatch.t;
}.

Definition set_FacilityList_objects (t : gmap Z FacilityList.t) (s : Store) : Store :=
  {| Contributor_objects := Contributor_objects s;
     FacilityList_objects := t;
     FacilityListItem_objects := FacilityListItem_objects s;
     Facility_objects := Facility_objects s;
     FacilityMatch_objects := FacilityMatch_objects s |}.

Definition set_FacilityListItem_objects (t : gmap Z FacilityListItem.t) (s : Store) : Store :=
  {| Contributor_objects := Contributor_objects s;
     FacilityList_objects := FacilityList_objects s;
     FacilityListItem_objects := t;
     Facility_objects := Facility_objects s;
     FacilityMatch_objects := FacilityMatch_objects s |}.

Definition set_Facility_objects (t : gmap string Facility.t) (s : Store) : Store :=
  {| Contributor_objects := Contributor_objects s;
     FacilityList_objects := FacilityList_objects s;
     FacilityListItem_objects := FacilityListItem_objects s;
     Facility_objects := t;
     FacilityMatch_objects := FacilityMatch_objects s |}.

Definition set_FacilityMatch_objects (t : gmap Z FacilityMatch.t) (s : Store) : Store :=
  {| Contributor_objects := Contributor_objects s;
     FacilityList_objects := FacilityList_objects s;
     FacilityListItem_objects := FacilityListItem_objects s;
     Facility_objects := Facility_objects s;
     FacilityMatch_objects := t |}.

(** The key the database gives to a new row of a table with an integer
    primary key. The database draws it from a sequence; the model takes
    the first key past the largest key in use, which is the value of
    the sequence as long as no insertion was rolled back and no row
    deleted. Of a new key the statements say that it was free and
    above the keys in use, which holds of the sequence as well. *)
Definition next_pk {A : Type} (table : gmap Z A) : Z :=
  1 + map_fold (λ k _ acc, Z.max k acc) 0 table.

(** [str.lower], on the letters of ASCII. *)
Definition lower_ascii (c : ascii) : ascii :=
  let n := nat_of_ascii c in
  if (Nat.leb 65 n && Nat.leb n 90)%bool then ascii_of_nat (n + 32) else c.

Fixpoint lower (s : string) : string :=
  match s with
  | EmptyString => EmptyString
  | String c rest => String (lower_ascii c) (lower rest)
  end.

Definition dquote : string := String "034"%char EmptyString.

(** ** Requests, responses, exceptions *)

Inductive Model :=
| MContributor
| MFacilityList
| MFacilityListItem
| MFacilityMatch.

Inductive Exception :=
| ValidationError (detail : string)
| NotFound
| DoesNotExist (model : Model)
| IntegrityError (detail : string)
| DataError (detail : string).

(** An uploaded file. A line is given by what
    [line.decode().rstrip()] returns, [None] for a line on which
    [decode] raises [UnicodeDecodeError]; the first line is the header. *)
Record UploadedFile := {
  in_memory : bool;
  file_size : Z;
  file_name : string;
  file_lines : list (option string);
}.

Module Request.
(** [user_contributor] is [request.user.contributor], [None] when the
    user administers no contributor. The other fields are the entries
    of [request.data], [None] when the key is absent; [replaces] holds
    what [int] makes of the entry, [None] when it raises
    [ValueError]. *)
Record t := {
  user_contributor : option Z;
  list_item_id : option Z;
  facility_match_id : option Z;
  file : option UploadedFile;
  name : option string;
  description : option string;
  replaces : option (option Z);
}.
End Request.

(** The body of the response of the two adjudication views: the list
    item as the view holds it, and the distinct statuses of the items of
    its list. *)
Record ItemResponse := {
  response_item : Z * FacilityListItem.t;
  list_statuses : list FacilityListItem.Status;
}.

Inductive Result (A : Type) :=
| Ok (a : A)
| Raise (e : Exception)
| OutOfFuel.
Arguments Ok {A} a.
Arguments Raise {A} e.
Arguments OutOfFuel {A}.

(** ** The views, over the capabilities they import

    [api.oar_id], [api.constants], [api.processing], [api.aws_batch] and
    the settings are not part of the sources at hand; what the code
    uses of them is taken as a parameter. [Env] is the state of the
    process outside the database (random generator, clock, job queue). *)
Class Capabilities (Env : Type) := {
  (** [make_oar_id(country_code)] *)
  make_oar_id : string → Env → string * Env;
  (** [str(datetime.utcnow())] *)
  utcnow : Env → string * Env;
  (** [submit_jobs(ENVIRONMENT, new_list)] *)
  submit_jobs : string → Z → Env → Env;
  (** [parse_csv_line(header)] and [os.path.splitext(name)[0]] *)
  parse_csv_line : string → list string;
  splitext_root : string → string;
  (** [ProcessingAction.CONFIRM] and the members of [CsvHeaderField] *)
  ProcessingAction_CONFIRM : string;
  CsvHeaderField_COUNTRY : string;
  CsvHeaderField_NAME : string;
  CsvHeaderField_ADDRESS : string;
  MAX_UPLOADED_FILE_SIZE_IN_BYTES : Z;
  (** ['Uploaded file exceeds the maximum size of {:.1f}MB.'.format(mb)],
      which depends on the setting above only *)
  file_too_large_message : string;
  ENVIRONMENT : string;
  (** whether [getattr(settings, 'ROLLBAR', {})] is a setting that
      counts as true *)
  ROLLBAR : bool;
  (** The number of rounds for which the [while] loop of [Facility.save]
      is followed. *)
  fuel : nat;
}.

Section Registry.
Context {Env : Type} `{!Capabilities Env}.

Record World := {
  db : Store;
  env : Env;
}.

(** *** State and exceptions *)

Definition M (A : Type) : Type := World → Result A * World.

#[local] Instance M_ret : MRet M := λ A a w, (Ok a, w).
#[local] Instance M_bind : MBind M := λ A B f c w,
  match c w with
  | (Ok a, w') => f a w'
  | (Raise e, w') => (Raise e, w')
  | (OutOfFuel, w') => (OutOfFuel, w')
  end.

Definition raise {A : Type} (e : Exception) : M A := λ w, (Raise e, w).
Definition out_of_fuel {A : Type} : M A := λ w, (OutOfFuel, w).
Definition get_db : M Store := λ w, (Ok (db w), w).
Definition put_db (s : Store) : M unit :=
  λ w, (Ok tt, {| db := s; env := env w |}).
Definition call_env {A : Type} (f : Env → A * Env) : M A :=
  λ w, let '(a, e) := f (env w) in (Ok a, {| db := db w; env := e |}).

(** [try: body except ..: handler], for the exceptions that the
    handler takes. *)
Definition try_except {A : Type} (body : M A)
    (handler : Exception → option (M A)) : M A := λ w,
  match body w with
  | (Raise e, w') =>
      match handler e with
      | Some h => h w'
      | None => (Raise e, w')
      end
  | r => r
  end.

(** [@transaction.atomic]: when the body does not return, the
    database is as it was on entry. *)
Definition transaction_atomic {A : Type} (body : M A) : M A := λ w,
  match body w with
  | (Ok a, w') => (Ok a, w')
  | (r, w') => (r, {| db := db w; env := env w' |})
  end.

(** *** Queries *)

(** [Model.objects.filter(..).get(pk=pk)] *)
Definition objects_get {A : Type} (table : Store → gmap Z A) (model : Model)
    (P : A → Prop) `{!∀ a, Decision (P a)} (pk : Z) : M (Z * A) :=
  s ← get_db;
  match table s !! pk with
  | Some row => if decide (P row) then mret (pk, row) else raise (DoesNotExist model)
  | None => raise (DoesNotExist model)
  end.

(** [self.save()] on a list. The values of [name] and [file_name] come
    from the request; the database refuses a value that is longer than
    its column. The other saves of the views write constants, keys and
    values read from rows of the database. *)
Definition FacilityList_save (self : Z * FacilityList.t) : M unit :=
  if decide (FacilityList_fits self.2)
  then
    s ← get_db;
    put_db (set_FacilityList_objects (<[self.1 := self.2]> (FacilityList_objects s)) s)
  else raise (DataError "value too long for type character varying(200)").

Definition FacilityListItem_save (self : Z * FacilityListItem.t) : M unit :=
  s ← get_db;
  put_db (set_FacilityListItem_objects (<[self.1 := self.2]> (FacilityListItem_objects s)) s).

Definition FacilityMatch_save (self : Z * FacilityMatch.t) : M unit :=
  s ← get_db;
  put_db (set_FacilityMatch_objects (<[self.1 := self.2]> (FacilityMatch_objects s)) s).

(** [FacilityMatch.objects.create(..)] *)
Definition FacilityMatch_objects_create (row : FacilityMatch.t) : M (Z * FacilityMatch.t) :=
  s ← get_db;
  let pk := next_pk (FacilityMatch_objects s) in
  FacilityMatch_save (pk, row);;
  mret (pk, row).

(** [FacilityMatch.objects.filter(facility_list_item=item)
      .exclude(pk=pk).update(status=status)] *)
Definition FacilityMatch_update_others (item : Z) (pk : Z)
    (status : FacilityMatch.Status) : M unit :=
  s ← get_db;
  put_db (set_FacilityMatch_objects
    (map_imap (λ k m,
       Some (if decide (FacilityMatch.facility_list_item m = item ∧ k ≠ pk)
             then FacilityMatch.set_status status m else m))
       (FacilityMatch_objects s)) s).

(** [FacilityMatch.objects.filter(facility_list_item=item)
      .filter(status=status).count()] *)
Definition FacilityMatch_count (item : Z) (status : FacilityMatch.Status)
    (s : Store) : nat :=
  size (filter (λ km, FacilityMatch.facility_list_item km.2 = item
                      ∧ FacilityMatch.status km.2 = status)
               (FacilityMatch_objects s)).

(** [facility_list.facilitylistitem_set.values_list('status', flat=True)
      .distinct()] *)
Definition list_statuses_of (facility_list : Z) (s : Store) : list FacilityListItem.Status :=
  remove_dups
    ((λ ki, FacilityListItem.status ki.2) <$>
       map_to_list (filter (λ ki, FacilityListItem.facility_list ki.2 = facility_list)
                      (FacilityListItem_objects s))).

(** *** [Facility.save] and the allocation of an OAR ID *)

(** The [while new_id is None] loop. *)
Fixpoint new_oar_id (rounds : nat) (country_code : string) : M string :=
  match rounds with
  | O => out_of_fuel
  | S rounds' =>
      new_id ← call_env (make_oar_id country_code);
      s ← get_db;
      if decide (is_Some (Facility_objects s !! new_id))
      then new_oar_id rounds' country_code
      else mret new_id
  end.

(** [super(Facility, self).save(..)]: the row is written under its
    key. The database refuses a forced insert under a key in use, and
    a second facility created from the same list item
    ([created_from] is a [OneToOneField]). *)
Definition Model_save_Facility (force_insert : bool)
    (self : string * Facility.t) : M unit :=
  s ← get_db;
  if force_insert && bool_decide (is_Some (Facility_objects s !! self.1))
  then raise (IntegrityError "id")
  else if decide (map_Forall
                    (λ k f, k = self.1
                            ∨ Facility.created_from f ≠ Facility.created_from self.2)
                    (Facility_objects s))
  then put_db (set_Facility_objects (<[self.1 := self.2]> (Facility_objects s)) s)
  else raise (IntegrityError "created_from").

(** [Facility.save]; the instance is returned as the call leaves it. *)
Definition Facility_save (force_insert : bool)
    (self : string * Facility.t) : M (string * Facility.t) :=
  self ← (if decide (self.1 = "")
          then new_id ← new_oar_id fuel (Facility.country_code self.2);
               mret (new_id, self.2)
          else mret self);
  Model_save_Facility force_insert self;;
  mret self.

(** [Facility.objects.create(..)]: the key of the new instance is the
    default of its [CharField], the empty string. *)
Definition Facility_objects_create (row : Facility.t) : M (string * Facility.t) :=
  Facility_save true ("", row).

(** *** [FacilityListViewSet.confirm_match] and [reject_match] *)

Definition required {A : Type} (field : option A) (detail : string) : M A :=
  match field with
  | Some a => mret a
  | None => raise (ValidationError detail)
  end.

Definition request_user_contributor (request : Request.t) : M Z :=
  match Request.user_contributor request with
  | Some c => mret c
  | None => raise (DoesNotExist MContributor)
  end.

(** The [except] clauses of the two views. *)
Definition except_not_found {A : Type} (e : Exception) : option (M A) :=
  match e with
  | DoesNotExist MFacilityList => Some (raise NotFound)
  | DoesNotExist MFacilityListItem => Some (raise NotFound)
  | DoesNotExist MFacilityMatch => Some (raise NotFound)
  | _ => None
  end.

Definition item_response (facility_list : Z)
    (facility_list_item : Z * FacilityListItem.t) : M ItemResponse :=
  s ← get_db;
  mret {| response_item := facility_list_item;
          list_statuses := list_statuses_of facility_list s |}.

Definition confirm_match_view (request : Request.t) (pk : Z) : M ItemResponse :=
  try_except
    (list_item_id ← required (Request.list_item_id request)
                      "missing required list_item_id";
     facility_match_id ← required (Request.facility_match_id request)
                           "missing required facility_match_id";
     user_contributor ← request_user_contributor request;
     facility_list ← objects_get FacilityList_objects MFacilityList
       (λ l, FacilityList.contributor l = Some user_contributor) pk;
     facility_list_item ← objects_get FacilityListItem_objects MFacilityListItem
       (λ i, FacilityListItem.facility_list i = facility_list.1) list_item_id;
     facility_match ← objects_get FacilityMatch_objects MFacilityMatch
       (λ m, FacilityMatch.facility_list_item m = facility_list_item.1)
       facility_match_id;
     if decide (FacilityListItem.status facility_list_item.2
                ≠ FacilityListItem.POTENTIAL_MATCH)
     then raise (ValidationError "facility list item status must be POTENTIAL_MATCH")
     else
     if decide (FacilityMatch.status facility_match.2 ≠ FacilityMatch.PENDING)
     then raise (ValidationError "facility match status must be PENDING")
     else
     let facility_match :=
       (facility_match.1,
        FacilityMatch.set_status FacilityMatch.CONFIRMED facility_match.2) in
     FacilityMatch_save facility_match;;
     FacilityMatch_update_others facility_list_item.1 facility_match_id
       FacilityMatch.REJECTED;;
     let facility_list_item :=
       (facility_list_item.1,
        FacilityListItem.set_facility
          (Some (FacilityMatch.facility facility_match.2))
          (FacilityListItem.set_status FacilityListItem.CONFIRMED_MATCH
             facility_list_item.2)) in
     FacilityListItem_save facility_list_item;;
     item_response facility_list.1 facility_list_item)
    except_not_found.

Definition confirm_match (request : Request.t) (pk : Z) : M ItemResponse :=
  transaction_atomic (confirm_match_view request pk).

(** The entry that [reject_match] appends to [processing_results]. *)
Definition no_location_entry (timestamp : string) : json :=
  JDict [("action", JString ProcessingAction_CONFIRM);
         ("started_at", JString timestamp);
         ("error", JBool true);
         ("message", JString
            "Unable to create a new facility from an item with no geocoded location");
         ("finished_at", JString timestamp)].

Definition match_results : json :=
  JDict [("match_type", JString "all_potential_matches_rejected")].

(** In the branch that creates the facility, [location] is the geocoded
    point of the item; [Facility.location] is not nullable, and the
    branch is only taken with a point. *)
Definition reject_match_view (request : Request.t) (pk : Z) : M ItemResponse :=
  try_except
    (list_item_id ← required (Request.list_item_id request)
                      "missing required list_item_id";
     facility_match_id ← required (Request.facility_match_id request)
                           "missing required facility_match_id";
     user_contributor ← request_user_contributor request;
     facility_list ← objects_get FacilityList_objects MFacilityList
       (λ l, FacilityList.contributor l = Some user_contributor) pk;
     facility_list_item ← objects_get FacilityListItem_objects MFacilityListItem
       (λ i, FacilityListItem.facility_list i = facility_list.1) list_item_id;
     facility_match ← objects_get FacilityMatch_objects MFacilityMatch
       (λ m, FacilityMatch.facility_list_item m = facility_list_item.1)
       facility_match_id;
     if decide (FacilityListItem.status facility_list_item.2
                ≠ FacilityListItem.POTENTIAL_MATCH)
     then raise (ValidationError "facility list item status must be POTENTIAL_MATCH")
     else
     if decide (FacilityMatch.status facility_match.2 ≠ FacilityMatch.PENDING)
     then raise (ValidationError "facility match status must be PENDING")
     else
     let facility_match :=
       (facility_match.1,
        FacilityMatch.set_status FacilityMatch.REJECTED facility_match.2) in
     FacilityMatch_save facility_match;;
     s ← get_db;
     let remaining_potential_matches :=
       FacilityMatch_count facility_list_item.1 FacilityMatch.PENDING s in
     facility_list_item ←
       (if decide (remaining_potential_matches = 0%nat)
        then
          let no_location :=
            bool_decide (FacilityListItem.geocoded_point facility_list_item.2 = None) in
          let no_geocoding_results :=
            bool_decide (FacilityListItem.status facility_list_item.2
                         = FacilityListItem.GEOCODED_NO_RESULTS) in
          facility_list_item ←
            (if no_location || no_geocoding_results
             then
               timestamp ← call_env utcnow;
               mret (facility_list_item.1,
                     FacilityListItem.set_processing_results
                       (FacilityListItem.processing_results facility_list_item.2
                          ++ [no_location_entry timestamp])
                       (FacilityListItem.set_status FacilityListItem.ERROR_MATCHING
                          facility_list_item.2))
             else
               match FacilityListItem.geocoded_point facility_list_item.2 with
               | None => raise (IntegrityError "location")
               | Some location =>
                   new_facility ← Facility_objects_create
                     {| Facility.name := FacilityListItem.name facility_list_item.2;
                        Facility.address := FacilityListItem.address facility_list_item.2;
                        Facility.country_code :=
                          FacilityListItem.country_code facility_list_item.2;
                        Facility.location := location;
                        Facility.created_from := facility_list_item.1 |};
                   FacilityMatch_objects_create
                     {| FacilityMatch.facility_list_item := facility_list_item.1;
                        FacilityMatch.facility := new_facility.1;
                        FacilityMatch.confidence := 100;
                        FacilityMatch.status := FacilityMatch.CONFIRMED;
                        FacilityMatch.results := match_results |};;
                   mret (facility_list_item.1,
                         FacilityListItem.set_status FacilityListItem.CONFIRMED_MATCH
                           (FacilityListItem.set_facility (Some new_facility.1)
                              facility_list_item.2))
               end);
          FacilityListItem_save facility_list_item;;
          mret facility_list_item
        else mret facility_list_item);
     item_response facility_list.1 facility_list_item)
    except_not_found.

Definition reject_match (request : Request.t) (pk : Z) : M ItemResponse :=
  transaction_atomic (reject_match_view request pk).


(** *** [FacilityListViewSet.create] *)

Definition _validate_header (header : string) : M unit :=
  if decide (header = "")
  then raise (ValidationError "Header cannot be blank.")
  else
    let parsed_header := lower <$> parse_csv_line header in
    if decide (CsvHeaderField_COUNTRY ∉ parsed_header
               ∨ CsvHeaderField_NAME ∉ parsed_header
               ∨ CsvHeaderField_ADDRESS ∉ parsed_header)
    then raise (ValidationError
                  ("Header must contain " ++ CsvHeaderField_COUNTRY ++ ", "
                   ++ CsvHeaderField_NAME ++ ", and " ++ CsvHeaderField_ADDRESS
                   ++ " fields."))
    else mret tt.

Definition unsupported_encoding : Exception :=
  ValidationError "Unsupported file encoding. Please submit a UTF-8 CSV.".

(** What the two [except UnicodeDecodeError] clauses do before they
    raise: with the setting [ROLLBAR] they call
    [rollbar.report_exc_info], a call of the error tracker, which is
    left out; of its arguments, [request.user.contributor.id] raises
    when the user has no contributor. *)
Definition report_exc_info (request : Request.t) : M unit :=
  if ROLLBAR
  then
    _ ← request_user_contributor request;
    mret tt
  else mret tt.

(** [csv_file.readline().decode().rstrip()] *)
Definition read_header (request : Request.t) (csv_file : UploadedFile)
    : M string :=
  match file_lines csv_file with
  | [] => mret ""
  | Some header :: _ => mret header
  | None :: _ =>
      report_exc_info request;;
      raise unsupported_encoding
  end.

(** The loop over [enumerate(csv_file)], from index [idx] on. *)
Fixpoint new_items (request : Request.t) (new_list : Z) (idx : Z)
    (lines : list (option string)) : M (list FacilityListItem.t) :=
  match lines with
  | [] => mret []
  | line :: rest =>
      if decide (idx > 0)%Z
      then
        match line with
        | Some raw_data =>
            items ← new_items request new_list (idx + 1) rest;
            mret (FacilityListItem.new (idx - 1) new_list raw_data :: items)
        | None =>
            report_exc_info request;;
            raise unsupported_encoding
        end
      else new_items request new_list (idx + 1) rest
  end.

(** [FacilityListItem.objects.bulk_create(items)] *)
Fixpoint bulk_create (items : list FacilityListItem.t) : M unit :=
  match items with
  | [] => mret tt
  | item :: rest =>
      s ← get_db;
      FacilityListItem_save (next_pk (FacilityListItem_objects s), item);;
      bulk_create rest
  end.

(** [FacilityList.objects.filter(replaces=replaces).count()] *)
Definition replaced_count (replaces : Z) (s : Store) : nat :=
  size (filter (λ kl, FacilityList.replaces kl.2 = Some replaces)
          (FacilityList_objects s)).

Definition create_view (request : Request.t) : M (Z * FacilityList.t) :=
  csv_file ← required (Request.file request) "No file specified.";
  if negb (in_memory csv_file)
  then raise (ValidationError "File not submitted properly.")
  else
  if decide (file_size csv_file > MAX_UPLOADED_FILE_SIZE_IN_BYTES)%Z
  then raise (ValidationError file_too_large_message)
  else
  header ← read_header request csv_file;
  _validate_header header;;
  contributor ←
    try_except (request_user_contributor request)
      (λ e, match e with
            | DoesNotExist MContributor =>
                Some (raise (ValidationError "User contributor cannot be None"))
            | _ => None
            end);
  let name :=
    match Request.name request with
    | Some name => name
    | None => splitext_root (file_name csv_file)
    end in
  let description := Request.description request in
  replaces ←
    match Request.replaces request with
    | None => mret None
    | Some None =>
        raise (ValidationError
                 (dquote ++ "replaces" ++ dquote ++ " must be an integer ID."))
    | Some (Some replaces) =>
        s ← get_db;
        match FacilityList_objects s !! replaces with
        | Some old_list =>
            if decide (FacilityList.contributor old_list = Some contributor)
            then
              if decide (0 < replaced_count replaces s)%nat
              then raise (ValidationError
                            ("FacilityList " ++ pretty replaces
                             ++ " has already been replaced."))
              else mret (Some (replaces, old_list))
            else raise (ValidationError
                          (pretty replaces ++ " is not a valid FacilityList ID."))
        | None => raise (ValidationError
                           (pretty replaces ++ " is not a valid FacilityList ID."))
        end
    end;
  s ← get_db;
  let new_list :=
    (next_pk (FacilityList_objects s),
     {| FacilityList.contributor := Some contributor;
        FacilityList.name := name;
        FacilityList.description := description;
        FacilityList.file_name := file_name csv_file;
        FacilityList.header := header;
        FacilityList.is_active := true;
        FacilityList.is_public := true;
        FacilityList.replaces := fst <$> replaces |}) in
  FacilityList_save new_list;;
  match replaces with
  | Some replaces =>
      FacilityList_save (replaces.1, FacilityList.set_is_active false replaces.2)
  | None => mret tt
  end;;
  items ← new_items request new_list.1 0 (file_lines csv_file);
  bulk_create items;;
  (if decide (ENVIRONMENT = "Staging" ∨ ENVIRONMENT = "Production")
   then call_env (λ e, (tt, submit_jobs ENVIRONMENT new_list.1 e))
   else mret tt);;
  mret new_list.

Definition create (request : Request.t) : M (Z * FacilityList.t) :=
  transaction_atomic (create_view request).

(** *** The derived views of [Facility] *)

Fixpoint get_all {A : Type} (table : Store → gmap Z A) (model : Model)
    (pks : list Z) : M (list (Z * A)) :=
  match pks with
  | [] => mret []
  | pk :: rest =>
      row ← objects_get table model (λ _, True) pk;
      rows ← get_all table model rest;
      mret (row :: rows)
  end.

(** The list that the three views start from: the list items of the
    automatic and confirmed matches of the facility. *)
Definition facility_list_item_matches (self : string * Facility.t)
    : M (list (Z * FacilityListItem.t)) :=
  s ← get_db;
  get_all FacilityListItem_objects MFacilityListItem
    ((λ km, FacilityMatch.facility_list_item km.2) <$>
       map_to_list
         (filter (λ km, FacilityMatch.facility km.2 = self.1
                        ∧ (FacilityMatch.status km.2 = FacilityMatch.AUTOMATIC
                           ∨ FacilityMatch.status km.2 = FacilityMatch.CONFIRMED))
            (FacilityMatch_objects s))).

(** [match.facility_list], read through the foreign key. *)
Definition item_facility_list (match_ : Z * FacilityListItem.t)
    : M (Z * FacilityList.t) :=
  objects_get FacilityList_objects MFacilityList (λ _, True)
    (FacilityListItem.facility_list match_.2).

(** The set comprehension of [other_names] and of [other_addresses],
    which differ in the column they read. *)
Fixpoint other_values (column : FacilityListItem.t → string) (own : string)
    (matches : list (Z * FacilityListItem.t)) (acc : gset string)
    : M (gset string) :=
  match matches with
  | [] => mret acc
  | match_ :: rest =>
      keep ← (if bool_decide (String.length (column match_.2) ≠ 0%nat)
                 && bool_decide (column match_.2 ≠ own)
              then facility_list ← item_facility_list match_;
                   mret (FacilityList.is_active facility_list.2
                         && FacilityList.is_public facility_list.2)
              else mret false) : M bool;
      other_values column own rest
        (if (keep : bool) then {[ column match_.2 ]} ∪ acc else acc)
  end.

Definition other_names (self : string * Facility.t) : M (gset string) :=
  matches ← facility_list_item_matches self;
  other_values FacilityListItem.name (Facility.name self.2) matches ∅.

Definition other_addresses (self : string * Facility.t) : M (gset string) :=
  matches ← facility_list_item_matches self;
  other_values FacilityListItem.address (Facility.address self.2) matches ∅.

(** The dict comprehension of [contributors]. *)
Fixpoint contributors_of (matches : list (Z * FacilityListItem.t))
    (acc : gmap string Z) : M (gmap string Z) :=
  match matches with
  | [] => mret acc
  | match_ :: rest =>
      facility_list ← item_facility_list match_;
      if FacilityList.is_active facility_list.2
         && FacilityList.is_public facility_list.2
      then
        match FacilityList.contributor facility_list.2 with
        | Some contributor =>
            c ← objects_get Contributor_objects MContributor (λ _, True) contributor;
            contributors_of rest
              (<[Contributor.name c.2 ++ " (" ++ FacilityList.name facility_list.2
                 ++ ")" := Contributor.admin c.2]> acc)
        | None => contributors_of rest acc
        end
      else contributors_of rest acc
  end.

Definition contributors (self : string * Facility.t) : M (gmap string Z) :=
  matches ← facility_list_item_matches self;
  contributors_of matches ∅.

End Registry.

#[global] Existing Instances M_ret M_bind.

(** ** The views that read

    [FacilitiesViewSet], the reading actions of [FacilityListViewSet]
    and [all_contributors]. The serializers, which only present the
    rows, are left out: a view returns the rows it hands to its
    serializer. What these views take from the framework and from the
    database server is a parameter. *)

Module Query.
(** [request.query_params], as [FacilityQueryParamsSerializer] accepts
    them: the entry under [NAME], and the lists under [CONTRIBUTORS]
    (identifiers), [CONTRIBUTOR_TYPES] and [COUNTRIES]. *)
Record t := {
  name : option string;
  contributors : list Z;
  contributor_types : list string;
  countries : list string;
}.
End Query.

(** What a listing view answers: the page that [paginate_queryset]
    returns, or the whole queryset when it returns [None]. *)
Inductive Listing (A : Type) :=
| Page (rows : list A)
| Whole (rows : list A).
Arguments Page {A} rows.
Arguments Whole {A} rows.

Definition listing_rows {A : Type} (l : Listing A) : list A :=
  match l with
  | Page rows => rows
  | Whole rows => rows
  end.

Class Framework := {
  (** [self.paginate_queryset(queryset)], for the page that the request
      asks for *)
  paginate_queryset : ∀ A : Type, list A → option (list A);
  (** [params.errors] when [params.is_valid()] does not hold *)
  query_params_errors : Query.t → option string;
  (** the lookup [name__icontains]: the second string contains the
      first, whatever the case *)
  icontains : string → string → bool;
  (** the column [contrib_type] of a contributor, which the rows of
      [Contributor] above do not carry, by the key of the contributor *)
  contrib_type : Z → string;
  (** the order of [order_by('name')] *)
  name_le : string → string → bool;
}.

Section Reads.
Context {Env : Type} `{!Framework}.

(** [self.paginate_queryset] and the two ways to answer. *)
Definition paginated {A : Type} (queryset : list A) : Listing A :=
  match paginate_queryset A queryset with
  | Some page_queryset => Page page_queryset
  | None => Whole queryset
  end.

(** The matches that the two filters of [FacilitiesViewSet.list] on
    contributors select: automatic or confirmed, of an item whose list
    is active and satisfies [on_list]. *)
Definition positive_match_of (s : Store) (on_list : FacilityList.t → bool)
    (m : FacilityMatch.t) : bool :=
  bool_decide (FacilityMatch.status m = FacilityMatch.AUTOMATIC
               ∨ FacilityMatch.status m = FacilityMatch.CONFIRMED)
  && default false
       (item ← FacilityListItem_objects s !! FacilityMatch.facility_list_item m;
        l ← FacilityList_objects s !! FacilityListItem.facility_list item;
        Some (on_list l && FacilityList.is_active l)).

(** [..contributor__contrib_type__in=contributor_types]: through the
    row of the contributor of the list *)
Definition of_contributor_type (s : Store) (contributor_types : list string)
    (l : FacilityList.t) : bool :=
  default false
    (c ← FacilityList.contributor l;
     _ ← Contributor_objects s !! c;
     Some (bool_decide (contrib_type c ∈ contributor_types))).

(** [..contributor__id__in=contributors]: on the column of the list *)
Definition of_contributor (contributors : list Z) (l : FacilityList.t) : bool :=
  default false
    (c ← FacilityList.contributor l;
     Some (bool_decide (c ∈ contributors))).

(** [[match['facility__id'] for match in ...values('facility__id')]] *)
Definition match_facility_ids (s : Store) (on_list : FacilityList.t → bool)
    : list string :=
  (λ km : Z * FacilityMatch.t, FacilityMatch.facility km.2) <$>
    filter (λ km, positive_match_of s on_list km.2 = true)
      (map_to_list (FacilityMatch_objects s)).

Definition FacilitiesViewSet_list (query : Query.t)
    : @M Env (Listing (string * Facility.t)) :=
  match query_params_errors query with
  | Some errors => raise (ValidationError errors)
  | None =>
      s ← get_db;
      let name := Query.name query in
      let contributors := Query.contributors query in
      let contributor_types := Query.contributor_types query in
      let countries := Query.countries query in
      let queryset := map_to_list (Facility_objects s) in
      let queryset :=
        match name with
        | Some name =>
            filter (λ f : string * Facility.t,
                      icontains name (Facility.name f.2) = true) queryset
        | None => queryset
        end in
      let queryset :=
        if bool_decide (length countries ≠ 0%nat)
        then filter (λ f : string * Facility.t,
                       Facility.country_code f.2 ∈ countries) queryset
        else queryset in
      let queryset :=
        if bool_decide (length contributor_types ≠ 0%nat)
        then
          let type_match_facility_ids :=
            match_facility_ids s (of_contributor_type s contributor_types) in
          filter (λ f : string * Facility.t, f.1 ∈ type_match_facility_ids) queryset
        else queryset in
      let queryset :=
        if bool_decide (length contributors ≠ 0%nat)
        then
          let name_match_facility_ids :=
            match_facility_ids s (of_contributor contributors) in
          filter (λ f : string * Facility.t, f.1 ∈ name_match_facility_ids) queryset
        else queryset in
      mret (paginated queryset)
  end.

(** [Facility.objects.get(pk=pk)], [Facility.DoesNotExist] being
    answered by [NotFound]. *)
Definition FacilitiesViewSet_retrieve (pk : string)
    : @M Env (string * Facility.t) :=
  s ← get_db;
  match Facility_objects s !! pk with
  | Some row => mret (pk, row)
  | None => raise NotFound
  end.

Definition FacilitiesViewSet_count : @M Env nat :=
  s ← get_db;
  mret (size (Facility_objects s)).

(** [FacilityList.objects.filter(contributor=contributor)] *)
Definition lists_of (contributor : Z) (s : Store) : list (Z * FacilityList.t) :=
  map_to_list
    (filter (λ kl, FacilityList.contributor kl.2 = Some contributor)
       (FacilityList_objects s)).

Definition FacilityListViewSet_list (request : Request.t)
    : @M Env (list (Z * FacilityList.t)) :=
  try_except
    (contributor ← request_user_contributor request;
     s ← get_db;
     mret (lists_of contributor s))
    (λ e, match e with
          | DoesNotExist MContributor =>
              Some (raise (ValidationError "User contributor cannot be None"))
          | _ => None
          end).

Definition except_list_not_found {A : Type} (e : Exception) : option (@M Env A) :=
  match e with
  | DoesNotExist MFacilityList => Some (raise NotFound)
  | _ => None
  end.

Definition FacilityListViewSet_retrieve (request : Request.t) (pk : Z)
    : @M Env (Z * FacilityList.t) :=
  try_except
    (user_contributor ← request_user_contributor request;
     objects_get FacilityList_objects MFacilityList
       (λ l, FacilityList.contributor l = Some user_contributor) pk)
    except_list_not_found.

(** The order of [order_by('row_index')]. *)
Definition by_row_index (a b : Z * FacilityListItem.t) : Prop :=
  FacilityListItem.row_index a.2 ≤ FacilityListItem.row_index b.2.

#[global] Instance by_row_index_dec a b : Decision (by_row_index a b).
Proof. unfold by_row_index. apply _. Defined.

(** [FacilityListItem.objects.filter(facility_list=facility_list)
      .order_by('row_index')] *)
Definition items_of (facility_list : Z) (s : Store)
    : list (Z * FacilityListItem.t) :=
  merge_sort by_row_index
    (map_to_list
       (filter (λ ki, FacilityListItem.facility_list ki.2 = facility_list)
          (FacilityListItem_objects s))).

Definition FacilityListViewSet_items (request : Request.t) (pk : Z)
    : @M Env (Listing (Z * FacilityListItem.t)) :=
  try_except
    (user_contributor ← request_user_contributor request;
     facility_list ← objects_get FacilityList_objects MFacilityList
       (λ l, FacilityList.contributor l = Some user_contributor) pk;
     s ← get_db;
     mret (paginated (items_of facility_list.1 s)))
    except_list_not_found.

(** The order of [order_by('name')]. *)
Definition by_name (a b : Z * Contributor.t) : Prop :=
  name_le (Contributor.name a.2) (Contributor.name b.2) = true.

#[global] Instance by_name_dec a b : Decision (by_name a b).
Proof. unfold by_name. apply _. Defined.

(** [Contributor.objects.filter(facilitylist__is_active=True,
      facilitylist__is_public=True).distinct().order_by('name')], as
    pairs of identifier and name. *)
Definition all_contributors : @M Env (list (Z * string)) :=
  s ← get_db;
  mret ((λ kc : Z * Contributor.t, (kc.1, Contributor.name kc.2)) <$>
          merge_sort by_name
            (map_to_list
               (filter (λ kc,
                  map_Exists (λ _ l, FacilityList.contributor l = Some kc.1
                                     ∧ FacilityList.is_active l = true
                                     ∧ FacilityList.is_public l = true)
                    (FacilityList_objects s))
                  (Contributor_objects s)))).
End Reads.

(** ** What the statements are about *)

(** The request is made by the administrator of the contributor that
    owns list [pk]; it names item [list_item_id] of that list and match
    [facility_match_id] of that item. *)
Record adjudicates (s : Store) (request : Request.t) (pk : Z)
    (list_item_id facility_match_id : Z)
    (item : FacilityListItem.t) (facility_match : FacilityMatch.t) : Prop := {
  adjudicates_item_id : Request.list_item_id request = Some list_item_id;
  adjudicates_match_id :
    Request.facility_match_id request = Some facility_match_id;
  adjudicates_list : ∃ c l,
    Request.user_contributor request = Some c
    ∧ FacilityList_objects s !! pk = Some l
    ∧ FacilityList.contributor l = Some c;
  adjudicates_item : FacilityListItem_objects s !! list_item_id = Some item;
  adjudicates_item_list : FacilityListItem.facility_list item = pk;
  adjudicates_match : FacilityMatch_objects s !! facility_match_id = Some facility_match;
  adjudicates_match_item : FacilityMatch.facility_list_item facility_match = list_item_id;
}.

(** Match [k] is another match of the item. *)
Definition other_match (s : Store) (list_item_id facility_match_id : Z)
    (k : Z) (m : FacilityMatch.t) : Prop :=
  FacilityMatch_objects s !! k = Some m
  ∧ FacilityMatch.facility_list_item m = list_item_id
  ∧ k ≠ facility_match_id.

(** The matches of an item that are automatic or confirmed. *)
Definition positive_matches (list_item_id : Z) (s : Store) : gmap Z FacilityMatch.t :=
  filter (λ km, FacilityMatch.facility_list_item km.2 = list_item_id
                ∧ (FacilityMatch.status km.2 = FacilityMatch.AUTOMATIC
                   ∨ FacilityMatch.status km.2 = FacilityMatch.CONFIRMED))
         (FacilityMatch_objects s).

Definition at_most_one_positive (list_item_id : Z) (s : Store) : Prop :=
  (size (positive_matches list_item_id s) ≤ 1)%nat.

(** Match [k], with row [m], is a positive match of the item. *)
Definition is_positive (s : Store) (list_item_id : Z) (k : Z)
    (m : FacilityMatch.t) : Prop :=
  FacilityMatch_objects s !! k = Some m
  ∧ FacilityMatch.facility_list_item m = list_item_id
  ∧ (FacilityMatch.status m = FacilityMatch.AUTOMATIC
     ∨ FacilityMatch.status m = FacilityMatch.CONFIRMED).

(** At most one positive match, and none as long as the item awaits
    adjudication. *)
Definition adjudication_invariant (list_item_id : Z) (s : Store) : Prop :=
  at_most_one_positive list_item_id s
  ∧ ∀ item, FacilityListItem_objects s !! list_item_id = Some item →
            FacilityListItem.status item = FacilityListItem.POTENTIAL_MATCH →
            size (positive_matches list_item_id s) = 0%nat.

(** No facility was created from the item yet. *)
Definition not_yet_seed (list_item_id : Z) (s : Store) : Prop :=
  ∀ id f, Facility_objects s !! id = Some f →
          Facility.created_from f ≠ list_item_id.

(** The result of the [n+1]-th call of [make_oar_id] from environment
    [e] on, with the environment it leaves. *)
Fixpoint candidate {Env : Type} `{!Capabilities Env} (n : nat)
    (country_code : string) (e : Env) : string * Env :=
  match n with
  | O => make_oar_id country_code e
  | S n' => candidate n' country_code (make_oar_id country_code e).2
  end.

(** A run of insertions of new facilities, one after the other. *)
Fixpoint save_all {Env : Type} `{!Capabilities Env} (force_insert : bool)
    (rows : list Facility.t) : M (list (string * Facility.t)) :=
  match rows with
  | [] => mret []
  | row :: rest =>
      saved ← Facility_save force_insert ("", row);
      others ← save_all force_insert rest;
      mret (saved :: others)
  end.

(** The references between the tables lead to existing rows. *)
Record referential_integrity (s : Store) : Prop := {
  match_item : ∀ k m, FacilityMatch_objects s !! k = Some m →
    is_Some (FacilityListItem_objects s !! FacilityMatch.facility_list_item m);
  item_list : ∀ k i, FacilityListItem_objects s !! k = Some i →
    is_Some (FacilityList_objects s !! FacilityListItem.facility_list i);
  list_contributor : ∀ k l c, FacilityList_objects s !! k = Some l →
    FacilityList.contributor l = Some c →
    is_Some (Contributor_objects s !! c);
}.

(** [item], of list [l], is matched to the facility by an automatic or
    confirmed match, and [l] is active and public. *)
Definition qualifying (s : Store) (facility : string)
    (item : FacilityListItem.t) (l : FacilityList.t) : Prop :=
  ∃ k m, FacilityMatch_objects s !! k = Some m
         ∧ FacilityMatch.facility m = facility
         ∧ (FacilityMatch.status m = FacilityMatch.AUTOMATIC
            ∨ FacilityMatch.status m = FacilityMatch.CONFIRMED)
         ∧ FacilityListItem_objects s !! FacilityMatch.facility_list_item m = Some item
         ∧ FacilityList_objects s !! FacilityListItem.facility_list item = Some l
         ∧ FacilityList.is_active l = true
         ∧ FacilityList.is_public l = true.

(** List item [r] gives the entry of [contributors] under [label], with
    value [admin]: its list is active, public and of a contributor with
    that label and administrator. *)
Definition contributes (s : Store) (r : Z * FacilityListItem.t)
    (label : string) (admin : Z) : Prop :=
  ∃ l c contributor,
    FacilityList_objects s !! FacilityListItem.facility_list r.2 = Some l
    ∧ FacilityList.is_active l = true
    ∧ FacilityList.is_public l = true
    ∧ FacilityList.contributor l = Some c
    ∧ Contributor_objects s !! c = Some contributor
    ∧ label = Contributor.name contributor ++ " (" ++ FacilityList.name l ++ ")"
    ∧ admin = Contributor.admin contributor.

(** Some qualifying item of the facility is of a list of a contributor
    with administrator [admin], and [label] is made of the names of that
    contributor and of that list. *)
Definition labelled (s : Store) (facility : string) (label : string)
    (admin : Z) : Prop :=
  ∃ item l c contributor,
    qualifying s facility item l
    ∧ FacilityList.contributor l = Some c
    ∧ Contributor_objects s !! c = Some contributor
    ∧ label = Contributor.name contributor ++ " (" ++ FacilityList.name l ++ ")"
    ∧ admin = Contributor.admin contributor.

(** The contributing organizations of a facility, in the words of the
    specification: the distinct contributors of the active and public
    lists that have an item matched to it. *)
Definition contributing_organizations (s : Store) (facility : string) : gset Z :=
  list_to_set
    (omap (λ km : Z * FacilityMatch.t,
             item ← FacilityListItem_objects s !! FacilityMatch.facility_list_item km.2;
             l ← FacilityList_objects s !! FacilityListItem.facility_list item;
             if FacilityList.is_active l && FacilityList.is_public l
             then FacilityList.contributor l else None)
          (map_to_list
             (filter (λ km, FacilityMatch.facility km.2 = facility
                            ∧ (FacilityMatch.status km.2 = FacilityMatch.AUTOMATIC
                               ∨ FacilityMatch.status km.2 = FacilityMatch.CONFIRMED))
                (FacilityMatch_objects s)))).

(** The upload passes the checks on the file, on its header and on the
    user. *)
Record acceptable_upload {Env : Type} `{!Capabilities Env}
    (request : Request.t) (csv_file : UploadedFile) (header : string)
    (rows : list (option string)) (contributor : Z) : Prop := {
  upload_file : Request.file request = Some csv_file;
  upload_in_memory : in_memory csv_file = true;
  upload_size : (file_size csv_file ≤ MAX_UPLOADED_FILE_SIZE_IN_BYTES)%Z;
  upload_lines : file_lines csv_file = Some header :: rows;
  upload_header : header ≠ "";
  upload_country : CsvHeaderField_COUNTRY ∈ lower <$> parse_csv_line header;
  upload_name : CsvHeaderField_NAME ∈ lower <$> parse_csv_line header;
  upload_address : CsvHeaderField_ADDRESS ∈ lower <$> parse_csv_line header;
  upload_contributor : Request.user_contributor request = Some contributor;
}.

(** The tables after the writes of [confirm_match]. *)
Definition after_confirm (list_item_id facility_match_id : Z)
    (item : FacilityListItem.t) (facility_match : FacilityMatch.t) (s : Store) : Store :=
  set_FacilityListItem_objects
    (<[list_item_id :=
         FacilityListItem.set_facility (Some (FacilityMatch.facility facility_match))
           (FacilityListItem.set_status FacilityListItem.CONFIRMED_MATCH item)]>
       (FacilityListItem_objects s))
    (set_FacilityMatch_objects
       (map_imap (λ k m,
          Some (if decide (FacilityMatch.facility_list_item m = list_item_id
                           ∧ k ≠ facility_match_id)
                then FacilityMatch.set_status FacilityMatch.REJECTED m else m))
          (<[facility_match_id :=
               FacilityMatch.set_status FacilityMatch.CONFIRMED facility_match]>
             (FacilityMatch_objects s)))
       s).

(** The tables after the first write of [reject_match]. *)
Definition after_reject (facility_match_id : Z) (facility_match : FacilityMatch.t)
    (s : Store) : Store :=
  set_FacilityMatch_objects
    (<[facility_match_id :=
         FacilityMatch.set_status FacilityMatch.REJECTED facility_match]>
       (FacilityMatch_objects s))
    s.

(** The row of the item after [reject_match] found it without a
    location, and the tables then. *)
Definition item_in_error {Env : Type} `{!Capabilities Env}
    (item : FacilityListItem.t) (timestamp : string) : FacilityListItem.t :=
  FacilityListItem.set_processing_results
    (FacilityListItem.processing_results item ++ [no_location_entry timestamp])
    (FacilityListItem.set_status FacilityListItem.ERROR_MATCHING item).

Definition after_reject_error {Env : Type} `{!Capabilities Env}
    (list_item_id facility_match_id : Z)
    (item : FacilityListItem.t) (facility_match : FacilityMatch.t)
    (timestamp : string) (s : Store) : Store :=
  set_FacilityListItem_objects
    (<[list_item_id := item_in_error item timestamp]> (FacilityListItem_objects s))
    (after_reject facility_match_id facility_match s).

(** The facility and the match that [reject_match] creates from an
    item, and the tables then. *)
Definition facility_of_item (list_item_id : Z) (item : FacilityListItem.t)
    (location : Point) : Facility.t :=
  {| Facility.name := FacilityListItem.name item;
     Facility.address := FacilityListItem.address item;
     Facility.country_code := FacilityListItem.country_code item;
     Facility.location := location;
     Facility.created_from := list_item_id |}.

Definition match_of_item (list_item_id : Z) (new_id : string) : FacilityMatch.t :=
  {| FacilityMatch.facility_list_item := list_item_id;
     FacilityMatch.facility := new_id;
     FacilityMatch.confidence := 100;
     FacilityMatch.status := FacilityMatch.CONFIRMED;
     FacilityMatch.results := match_results |}.

Definition item_with_new_facility (item : FacilityListItem.t) (new_id : string)
    : FacilityListItem.t :=
  FacilityListItem.set_status FacilityListItem.CONFIRMED_MATCH
    (FacilityListItem.set_facility (Some new_id) item).

Definition after_reject_create (list_item_id facility_match_id : Z)
    (item : FacilityListItem.t) (facility_match : FacilityMatch.t)
    (new_id : string) (location : Point) (s : Store) : Store :=
  let s1 := after_reject facility_match_id facility_match s in
  set_FacilityListItem_objects
    (<[list_item_id := item_with_new_facility item new_id]>
       (FacilityListItem_objects s1))
    (set_FacilityMatch_objects
       (<[next_pk (FacilityMatch_objects s1) := match_of_item list_item_id new_id]>
          (FacilityMatch_objects s1))
       (set_Facility_objects
          (<[new_id := facility_of_item list_item_id item location]>
             (Facility_objects s1))
          s1)).

(** The row of the list that an upload creates. *)
Definition uploaded_list {Env : Type} `{!Capabilities Env}
    (request : Request.t) (csv_file : UploadedFile) (header : string)
    (contributor : Z) (replaces : option Z) : FacilityList.t :=
  {| FacilityList.contributor := Some contributor;
     FacilityList.name :=
       match Request.name request with
       | Some name => name
       | None => splitext_root (file_name csv_file)
       end;
     FacilityList.description := Request.description request;
     FacilityList.file_name := file_name csv_file;
     FacilityList.header := header;
     FacilityList.is_active := true;
     FacilityList.is_public := true;
     FacilityList.replaces := replaces |}.

(** Every reference between the tables leads to an existing row. *)
Record foreign_keys_valid (s : Store) : Prop := {
  fk_integrity : referential_integrity s;
  fk_match_facility : ∀ k m, FacilityMatch_objects s !! k = Some m →
    is_Some (Facility_objects s !! FacilityMatch.facility m);
  fk_item_facility : ∀ k i f, FacilityListItem_objects s !! k = Some i →
    FacilityListItem.facility i = Some f →
    is_Some (Facility_objects s !! f);
  fk_facility_seed : ∀ id f, Facility_objects s !! id = Some f →
    is_Some (FacilityListItem_objects s !! Facility.created_from f);
  fk_list_replaces : ∀ k l r, FacilityList_objects s !! k = Some l →
    FacilityList.replaces l = Some r →
    is_Some (FacilityList_objects s !! r);
}.

(** The table of items after [bulk_create]: each item in turn, under
    the key of a new row. *)
Definition bulk_created (items : list FacilityListItem.t)
    (table : gmap Z FacilityListItem.t) : gmap Z FacilityListItem.t :=
  foldl (λ t item, <[next_pk t := item]> t) table items.

(** The items that an upload makes of the rows after the header. *)
Definition rows_as_items (new_list : Z) (raws : list string)
    : list FacilityListItem.t :=
  imap (λ j raw, FacilityListItem.new (Z.of_nat j) new_list raw) raws.

(** The tables after an upload: the new list, the list it replaces no
    longer active, and the items of the rows. *)
Definition after_create (pk : Z) (new_list : FacilityList.t)
    (old : option (Z * FacilityList.t)) (raws : list string) (s : Store) : Store :=
  set_FacilityListItem_objects
    (bulk_created (rows_as_items pk raws) (FacilityListItem_objects s))
    (set_FacilityList_objects
       (match old with
        | Some o => <[o.1 := FacilityList.set_is_active false o.2]>
                      (<[pk := new_list]> (FacilityList_objects s))
        | None => <[pk := new_list]> (FacilityList_objects s)
        end)
       s).


(** Facility [id] has an automatic or confirmed match of an item of an
    active list that satisfies [on_list]. *)
Definition supplied_by (s : Store) (on_list : FacilityList.t → Prop)
    (id : string) : Prop :=
  ∃ k m item l,
    FacilityMatch_objects s !! k = Some m
    ∧ FacilityMatch.facility m = id
    ∧ (FacilityMatch.status m = FacilityMatch.AUTOMATIC
       ∨ FacilityMatch.status m = FacilityMatch.CONFIRMED)
    ∧ FacilityListItem_objects s !! FacilityMatch.facility_list_item m = Some item
    ∧ FacilityList_objects s !! FacilityListItem.facility_list item = Some l
    ∧ FacilityList.is_active l = true
    ∧ on_list l.

(** The filters of a query on the facilities. *)
Definition selected_by `{!Framework} (s : Store) (query : Query.t)
    (id : string) (f : Facility.t) : Prop :=
  (∀ name, Query.name query = Some name → icontains name (Facility.name f) = true)
  ∧ (Query.countries query ≠ [] → Facility.country_code f ∈ Query.countries query)
  ∧ (Query.contributor_types query ≠ [] →
       supplied_by s
         (λ l, ∃ c, FacilityList.contributor l = Some c
                    ∧ is_Some (Contributor_objects s !! c)
                    ∧ contrib_type c ∈ Query.contributor_types query) id)
  ∧ (Query.contributors query ≠ [] →
       supplied_by s
         (λ l, ∃ c, FacilityList.contributor l = Some c
                    ∧ c ∈ Query.contributors query) id).

(** ** A registry to run the views on

    An environment that hands out the OAR IDs of a tape and counts the
    readings of its clock, and a small database: one contributor with
    two lists, items in the states that the adjudication views meet,
    and two facilities. *)
Module Sample.
Record Env := {
  tape : list string;
  clock : nat;
  jobs : list Z;
}.

Fixpoint split_at (sep : ascii) (s : string) (word : string) : list string :=
  match s with
  | EmptyString => [word]
  | String c rest =>
      if decide (c = sep) then word :: split_at sep rest ""
      else split_at sep rest (word ++ String c EmptyString)
  end.

(** The index of the last [c] in [s], counted from [i]. *)
Fixpoint rfind (c : ascii) (s : string) (i : nat) : option nat :=
  match s with
  | EmptyString => None
  | String x rest =>
      match rfind c rest (S i) with
      | Some j => Some j
      | None => if decide (x = c) then Some i else None
      end
  end.

(** [os.path.splitext(p)[0]]: [p] up to its last dot, when that dot
    comes after the last separator and after a character of the file
    name that is not a dot, and [p] otherwise. *)
Definition splitext (p : string) : string :=
  match rfind "."%char p 0 with
  | None => p
  | Some dot =>
      let start :=
        match rfind "/"%char p 0 with
        | Some sep => S sep
        | None => 0%nat
        end in
      if existsb (λ c, bool_decide (c ≠ "."%char))
           (String.list_ascii_of_string (String.substring start (dot - start) p))
      then String.substring 0 dot p
      else p
  end.

#[global] Instance capabilities : Capabilities Env := {|
  make_oar_id country_code e :=
    match tape e with
    | id :: rest => (id, {| tape := rest; clock := clock e; jobs := jobs e |})
    | [] => (country_code, e)
    end;
  utcnow e :=
    ("2019-05-01 12:00:00." ++ pretty (clock e),
     {| tape := tape e; clock := S (clock e); jobs := jobs e |});
  submit_jobs _ new_list e :=
    {| tape := tape e; clock := clock e; jobs := new_list :: jobs e |};
  parse_csv_line header := split_at ","%char header "";
  splitext_root name := splitext name;
  ProcessingAction_CONFIRM := "confirm";
  CsvHeaderField_COUNTRY := "country";
  CsvHeaderField_NAME := "name";
  CsvHeaderField_ADDRESS := "address";
  MAX_UPLOADED_FILE_SIZE_IN_BYTES := 5242880;
  file_too_large_message := "Uploaded file exceeds the maximum size of 5.0MB.";
  ENVIRONMENT := "Development";
  ROLLBAR := true;
  fuel := 5;
|}.

Definition org : Contributor.t :=
  {| Contributor.admin := 10; Contributor.name := "Org" |}.

Definition facility_list (name : string) : FacilityList.t :=
  {| FacilityList.contributor := Some 1;
     FacilityList.name := name;
     FacilityList.description := None;
     FacilityList.file_name := name ++ ".csv";
     FacilityList.header := "country,name,address";
     FacilityList.is_active := true;
     FacilityList.is_public := true;
     FacilityList.replaces := None |}.

Definition item (facility_list : Z) (row_index : Z)
    (status : FacilityListItem.Status) (name address : string)
    (geocoded_point : option Point) (facility : option string)
    : FacilityListItem.t :=
  {| FacilityListItem.facility_list := facility_list;
     FacilityListItem.row_index := row_index;
     FacilityListItem.raw_data := "US," ++ name ++ "," ++ address;
     FacilityListItem.status := status;
     FacilityListItem.processing_started_at := None;
     FacilityListItem.processing_completed_at := None;
     FacilityListItem.processing_results := [];
     FacilityListItem.name := name;
     FacilityListItem.address := address;
     FacilityListItem.country_code := "US";
     FacilityListItem.geocoded_point := geocoded_point;
     FacilityListItem.geocoded_address := None;
     FacilityListItem.facility := facility |}.

Definition point : Point := {| lng := -75163500; lat := 39952300 |}.

Definition facility_match (facility_list_item : Z) (facility : string)
    (status : FacilityMatch.Status) : FacilityMatch.t :=
  {| FacilityMatch.facility_list_item := facility_list_item;
     FacilityMatch.facility := facility;
     FacilityMatch.results := JDict [("match_type", JString "gazetteer")];
     FacilityMatch.confidence := 60;
     FacilityMatch.status := status |}.

Definition facility (name address : string) (created_from : Z) : Facility.t :=
  {| Facility.name := name;
     Facility.address := address;
     Facility.country_code := "US";
     Facility.location := point;
     Facility.created_from := created_from |}.

Definition item1 : FacilityListItem.t :=
  item 1 0 FacilityListItem.POTENTIAL_MATCH "Alpha" "1 Road" (Some point) None.
Definition item2 : FacilityListItem.t :=
  item 1 1 FacilityListItem.POTENTIAL_MATCH "Beta" "2 Road" (Some point) None.
Definition item3 : FacilityListItem.t :=
  item 1 2 FacilityListItem.POTENTIAL_MATCH "Gamma" "3 Road" None None.
Definition item4 : FacilityListItem.t :=
  item 1 3 FacilityListItem.MATCHED "Acme" "Main St" (Some point) (Some "US1").
Definition us1 : string * Facility.t := ("US1", facility "Acme" "Main St" 4).

(** Items 1 to 3 await adjudication: item 1 has two pending matches,
    item 2 one, and item 3 one and no geocoded point. Items 4 to 6
    are matched; items 4 and 5, of the two lists, to facility [US1]. *)
Definition store : Store :=
  {| Contributor_objects := {[ 1 := org ]};
     FacilityList_objects :=
       <[1 := facility_list "A"]> (<[2 := facility_list "B"]> ∅);
     FacilityListItem_objects :=
       <[1 := item1]> (<[2 := item2]> (<[3 := item3]> (<[4 := item4]>
       (<[5 := item 2 0 FacilityListItem.CONFIRMED_MATCH "Acme Ltd" "Main St"
                 (Some point) (Some "US1")]>
       (<[6 := item 1 4 FacilityListItem.MATCHED "Omega" "9 Road"
                 (Some point) (Some "US2")]> ∅)))));
     Facility_objects :=
       <[us1.1 := us1.2]>
       (<["US2" := facility "Omega" "9 Road" 6]> ∅);
     FacilityMatch_objects :=
       <[1 := facility_match 1 "US1" FacilityMatch.PENDING]>
       (<[2 := facility_match 1 "US2" FacilityMatch.PENDING]>
       (<[3 := facility_match 2 "US1" FacilityMatch.PENDING]>
       (<[4 := facility_match 3 "US1" FacilityMatch.PENDING]>
       (<[5 := facility_match 4 "US1" FacilityMatch.AUTOMATIC]>
       (<[6 := facility_match 5 "US1" FacilityMatch.CONFIRMED]>
       (<[7 := facility_match 6 "US2" FacilityMatch.AUTOMATIC]> ∅)))))) |}.

(** The first OAR ID of the tape is taken, the next ones are free. *)
Definition world : @World Env :=
  {| db := store;
     env := {| tape := ["US1"; "US3"; "US4"]; clock := 0; jobs := [] |} |}.

(** The same, with an automatic match of item 2 next to its pending
    match. *)
Definition stray_world : @World Env :=
  {| db := set_FacilityMatch_objects
             (<[8 := facility_match 2 "US2" FacilityMatch.AUTOMATIC]>
                (FacilityMatch_objects store)) store;
     env := env world |}.

(** The administrator of the contributor, on a match of an item. *)
Definition adjudication (list_item_id facility_match_id : Z) : Request.t :=
  {| Request.user_contributor := Some 1;
     Request.list_item_id := Some list_item_id;
     Request.facility_match_id := Some facility_match_id;
     Request.file := None;
     Request.name := None;
     Request.description := None;
     Request.replaces := None |}.

Definition csv_file : UploadedFile :=
  {| in_memory := true;
     file_size := 58;
     file_name := "spring.csv";
     file_lines := [Some "country,name,address";
                    Some "US,Alpha,1 Road";
                    Some "US,Beta,2 Road"] |}.

(** The upload of a list that replaces list 1. *)
Definition upload : Request.t :=
  {| Request.user_contributor := Some 1;
     Request.list_item_id := None;
     Request.facility_match_id := None;
     Request.file := Some csv_file;
     Request.name := None;
     Request.description := None;
     Request.replaces := Some (Some 1) |}.

(** A framework for the views that read: pages of twenty rows, country
    codes of two letters, names compared as strings. *)
#[global] Instance framework : Framework := {|
  paginate_queryset A queryset := Some (take 20 queryset);
  query_params_errors query :=
    if bool_decide (Forall (λ c, String.length c = 2%nat) (Query.countries query))
    then None
    else Some "countries";
  icontains needle haystack :=
    bool_decide (is_Some (String.index 0 (lower needle) (lower haystack)));
  contrib_type c := "Brand";
  name_le := String.leb;
|}.

(** The facilities of the United States, of contributor 1, with a name
    that contains [acme]. *)
Definition query : Query.t :=
  {| Query.name := Some "acme";
     Query.contributors := [1];
     Query.contributor_types := [];
     Query.countries := ["US"] |}.

(** The same as [world], with a facility that was created from item 2
    before. *)
Definition seeded_world : @World Env :=
  {| db := set_Facility_objects
             (<["US9" := facility "Beta" "2 Road" 2]> (Facility_objects store))
             store;
     env := env world |}.





(** The upload of a list that is to replace a list there is not. *)
Definition stray_upload : Request.t :=
  {| Request.user_contributor := Some 1;
     Request.list_item_id := None;
     Request.facility_match_id := None;
     Request.file := Some csv_file;
     Request.name := None;
     Request.description := None;
     Request.replaces := Some (Some 7) |}.

(** A user without contributor, on a match of an item. *)
Definition stranger : Request.t :=
  {| Request.user_contributor := None;
     Request.list_item_id := Some 1;
     Request.facility_match_id := Some 1;
     Request.file := Some csv_file;
     Request.name := None;
     Request.description := None;
     Request.replaces := None |}.
End Sample.

(** ** Tables *)

Section Tables.
Context {A : Type}.
Implicit Types (table : gmap Z A).

Lemma keys_below_fold table k :
  is_Some (table !! k) → k ≤ map_fold (λ k _ acc, Z.max k acc) 0 table.
Proof.
  revert k.
  apply (map_fold_weak_ind
           (λ r (m : gmap Z A), ∀ k, is_Some (m !! k) → k ≤ r)).
  - intros k [x Hx]. by rewrite lookup_empty in Hx.
  - intros i x m r _ IH k Hk.
    destruct (decide (i = k)) as [->|Hne]; [lia|].
    rewrite lookup_insert_ne in Hk by done.
    specialize (IH k Hk). lia.
Qed.

(** The key of a new row is not in use. *)
Lemma next_pk_fresh table : table !! next_pk table = None.
Proof.
  destruct (table !! next_pk table) as [x|] eqn:Hx; [|done].
  assert (next_pk table ≤ map_fold (λ k _ acc, Z.max k acc) 0 table) as Hle
    by (apply keys_below_fold; eauto).
  unfold next_pk in Hle. lia.
Qed.

Lemma next_pk_ne table k x : table !! k = Some x → next_pk table ≠ k.
Proof. intros Hk Heq. rewrite <- Heq, next_pk_fresh in Hk. done. Qed.

(** A selection of rows is empty when no row is selected. *)
Lemma count_zero_iff (P : Z * A → Prop) `{!∀ x, Decision (P x)} table :
  size (filter P table) = 0%nat ↔ ∀ k x, table !! k = Some x → ¬ P (k, x).
Proof.
  rewrite map_size_empty_iff, map_empty.
  setoid_rewrite map_lookup_filter_None. split.
  - intros Hnone k x Hk. destruct (Hnone k) as [Hn|Hn]; [congruence|eauto].
  - intros Hall k. destruct (table !! k) eqn:Hk; eauto.
    right. intros x [= <-]. eauto.
Qed.

(** A table has at most one row when any two of its keys agree. *)
Lemma size_le_1_iff table :
  (size table ≤ 1)%nat
  ↔ ∀ k1 k2 x1 x2, table !! k1 = Some x1 → table !! k2 = Some x2 → k1 = k2.
Proof.
  induction table as [|i x m Hi _] using map_ind.
  - rewrite map_size_empty. split; [|lia].
    intros _ k1 k2 x1 x2 H1. by rewrite lookup_empty in H1.
  - rewrite map_size_insert_None by done. split.
    + intros Hle k1 k2 x1 x2 H1 H2.
      assert (m = ∅) as -> by (apply map_size_empty_iff; lia).
      rewrite lookup_insert in H1, H2.
      repeat case_decide; simplify_eq; try done;
        by rewrite lookup_empty in *.
    + intros Hall.
      destruct (map_choose_or_empty m) as [(j & y & Hj)| ->].
      * assert (i = j) as ->.
        { apply (Hall i j x y); [by rewrite lookup_insert_eq|].
          rewrite lookup_insert_ne; [done|]. intros ->. congruence. }
        congruence.
      * rewrite map_size_empty. lia.
Qed.
End Tables.

(** ** The monad and the allocator *)

Section Allocator.
Context {Env : Type} `{!Capabilities Env}.
Implicit Types (w : @World Env).

Lemma transaction_atomic_Ok {A : Type} (body : M A) w a w' :
  body w = (Ok a, w') → transaction_atomic body w = (Ok a, w').
Proof. unfold transaction_atomic. by intros ->. Qed.

Lemma transaction_atomic_inv {A : Type} (body : M A) w r w' :
  transaction_atomic body w = (r, w') →
  (∃ a, r = Ok a ∧ body w = (Ok a, w'))
  ∨ ((∀ a, r ≠ Ok a) ∧ db w' = db w).
Proof.
  unfold transaction_atomic. destruct (body w) as [[a|e|] w1]; intros [= <- <-].
  - left. eauto.
  - right. done.
  - right. done.
Qed.

(** The loop leaves the database alone, and does not raise. *)
Lemma new_oar_id_db rounds country_code w :
  db (new_oar_id rounds country_code w).2 = db w
  ∧ ∀ e, (new_oar_id rounds country_code w).1 ≠ Raise e.
Proof.
  revert w. induction rounds as [|rounds IH]; intros w; [done|].
  cbn [new_oar_id]. cbv [mbind M_bind call_env get_db mret M_ret].
  destruct (make_oar_id country_code (env w)) as [new_id e'].
  cbn [db env]. case_decide; [|done].
  apply (IH {| db := db w; env := e' |}).
Qed.

(** What the loop returns is the key of no facility. *)
Lemma new_oar_id_fresh rounds country_code w new_id w' :
  new_oar_id rounds country_code w = (Ok new_id, w') →
  Facility_objects (db w) !! new_id = None.
Proof.
  revert w. induction rounds as [|rounds IH]; intros w; [done|].
  cbn [new_oar_id]. cbv [mbind M_bind call_env get_db mret M_ret].
  destruct (make_oar_id country_code (env w)) as [c e'].
  cbn [db env]. case_decide as Hc.
  - intros Hrun. apply (IH _ Hrun).
  - intros [= <- <-]. by apply eq_None_not_Some.
Qed.

(** The loop returns the first free candidate, when there is one
    within its rounds. *)
Lemma new_oar_id_finds rounds country_code w n :
  (n < rounds)%nat →
  Facility_objects (db w) !! (candidate n country_code (env w)).1 = None →
  ∃ i, (i ≤ n)%nat
       ∧ new_oar_id rounds country_code w
         = (Ok (candidate i country_code (env w)).1,
            {| db := db w; env := (candidate i country_code (env w)).2 |}).
Proof.
  revert w n. induction rounds as [|rounds IH]; intros w n Hn Hfree; [lia|].
  cbn [new_oar_id]. cbv [mbind M_bind call_env get_db mret M_ret].
  destruct (make_oar_id country_code (env w)) as [c e'] eqn:Hmake.
  cbn [db env]. case_decide as Hc.
  - destruct n as [|n].
    + cbn [candidate] in Hfree. rewrite Hmake in Hfree.
      destruct Hc as [x Hx]. cbn in Hfree. congruence.
    + cbn [candidate] in Hfree. rewrite Hmake in Hfree. cbn [snd] in Hfree.
      destruct (IH {| db := db w; env := e' |} n) as (i & Hi & Hrun);
        [lia|done|].
      exists (S i). split; [lia|].
      cbn [candidate]. rewrite Hmake. cbn [snd]. exact Hrun.
  - exists 0%nat. split; [lia|]. cbn [candidate]. by rewrite Hmake.
Qed.

(** With a key that is free, the check on [created_from] is the check
    that the item is not a seed yet. *)
Lemma created_from_check (s : Store) new_id list_item_id :
  Facility_objects s !! new_id = None →
  map_Forall (λ k f, k = new_id ∨ Facility.created_from f ≠ list_item_id)
    (Facility_objects s)
  ↔ not_yet_seed list_item_id s.
Proof.
  intros Hfree. unfold not_yet_seed, map_Forall. split.
  - intros Hall id f Hf. destruct (Hall id f Hf) as [->|]; [congruence|done].
  - intros Hall id f Hf. right. eauto.
Qed.

(** [Facility.save] on an instance without OAR ID, in one step. *)
Lemma Facility_save_new_run force_insert (row : Facility.t) w :
  Facility_save force_insert ("", row) w
  = match new_oar_id fuel (Facility.country_code row) w with
    | (Ok new_id, w1) =>
        if decide (not_yet_seed (Facility.created_from row) (db w))
        then (Ok (new_id, row),
              {| db := set_Facility_objects
                         (<[new_id := row]> (Facility_objects (db w))) (db w);
                 env := env w1 |})
        else (Raise (IntegrityError "created_from"), w1)
    | (Raise e, w1) => (Raise e, w1)
    | (OutOfFuel, w1) => (OutOfFuel, w1)
    end.
Proof.
  unfold Facility_save, Model_save_Facility.
  cbn [fst snd]. rewrite decide_True by done.
  cbv [mbind M_bind mret M_ret get_db put_db raise].
  pose proof (new_oar_id_db fuel (Facility.country_code row) w) as [Hdb _].
  destruct (new_oar_id fuel (Facility.country_code row) w)
    as [[new_id|e|] w1] eqn:Hrun; [|done|done].
  cbn [fst snd] in *. apply new_oar_id_fresh in Hrun.
  rewrite Hdb, bool_decide_eq_false_2 by (rewrite Hrun; by intros [? ?]).
  rewrite andb_false_r.
  destruct (decide (not_yet_seed _ _)) as [Hseed|Hseed].
  - rewrite decide_True by (by apply created_from_check). done.
  - rewrite decide_False; [done|]. intros Hall. apply Hseed.
    by apply (created_from_check (db w) new_id).
Qed.

Lemma Facility_objects_create_run (row : Facility.t) w :
  Facility_objects_create row w
  = match new_oar_id fuel (Facility.country_code row) w with
    | (Ok new_id, w1) =>
        if decide (not_yet_seed (Facility.created_from row) (db w))
        then (Ok (new_id, row),
              {| db := set_Facility_objects
                         (<[new_id := row]> (Facility_objects (db w))) (db w);
                 env := env w1 |})
        else (Raise (IntegrityError "created_from"), w1)
    | (Raise e, w1) => (Raise e, w1)
    | (OutOfFuel, w1) => (OutOfFuel, w1)
    end.
Proof. apply Facility_save_new_run. Qed.

(** A facility saved without OAR ID is stored under a key that was
    free, and next to the facilities there were. *)
Lemma Facility_save_new_inv force_insert (row : Facility.t) w saved w' :
  Facility_save force_insert ("", row) w = (Ok saved, w') →
  saved.2 = row
  ∧ Facility_objects (db w) !! saved.1 = None
  ∧ Facility_objects (db w') = <[saved.1 := row]> (Facility_objects (db w)).
Proof.
  rewrite Facility_save_new_run.
  destruct (new_oar_id fuel (Facility.country_code row) w)
    as [[new_id|e|] w1] eqn:Hrun; [|done|done].
  case_decide; [|done]. intros [= <- <-]. cbn.
  split; [done|]. split; [|done]. by apply new_oar_id_fresh in Hrun.
Qed.

(** A facility that has an OAR ID keeps it. *)
Lemma Facility_save_keeps_id force_insert (self : string * Facility.t) w self' w' :
  self.1 ≠ "" →
  Facility_save force_insert self w = (Ok self', w') →
  self' = self
  ∧ Facility_objects (db w') = <[self.1 := self.2]> (Facility_objects (db w)).
Proof.
  intros Hid. unfold Facility_save, Model_save_Facility.
  rewrite decide_False by done.
  cbv [mbind M_bind mret M_ret get_db put_db raise].
  destruct (force_insert && _); [done|].
  case_decide; [|done]. by intros [= <- <-].
Qed.

Lemma save_all_inv force_insert (rows : list Facility.t) w saved w' :
  save_all force_insert rows w = (Ok saved, w') →
  saved.*2 = rows
  ∧ NoDup saved.*1
  ∧ (∀ id, id ∈ saved.*1 → Facility_objects (db w) !! id = None)
  ∧ (∀ id f, Facility_objects (db w) !! id = Some f →
             Facility_objects (db w') !! id = Some f)
  ∧ (∀ id row, (id, row) ∈ saved → Facility_objects (db w') !! id = Some row)
  ∧ size (Facility_objects (db w'))
    = (size (Facility_objects (db w)) + length rows)%nat.
Proof.
  revert w saved w'. induction rows as [|row rest IH]; intros w saved w'.
  - intros [= <- <-]. cbn. repeat split; try done.
    + constructor.
    + intros id Hid. by apply elem_of_nil in Hid.
    + intros id row Hin. by apply elem_of_nil in Hin.
  - cbn [save_all]. cbv [mbind M_bind mret M_ret].
    destruct (Facility_save force_insert ("", row) w)
      as [[first|e|] w1] eqn:Hfirst; [|done|done].
    destruct (save_all force_insert rest w1)
      as [[others|e|] w2] eqn:Hothers; [|done|done].
    intros [= <- <-].
    apply Facility_save_new_inv in Hfirst as (Hrow & Hfree & Hdb1).
    destruct (IH _ _ _ Hothers) as (Hrows & Hnodup & Hnew & Hkeep & Hin & Hsize).
    assert (Facility_objects (db w1) !! first.1 = Some row) as Hone
      by (rewrite Hdb1; apply lookup_insert_eq).
    cbn [fmap list_fmap length]. repeat split.
    + by rewrite Hrow, Hrows.
    + constructor; [|done]. intros Hdup. apply Hnew in Hdup. congruence.
    + intros id [->|Hid]%elem_of_cons; [done|].
      apply Hnew in Hid. rewrite Hdb1 in Hid.
      by apply lookup_insert_None in Hid as [? _].
    + intros id f Hf. apply Hkeep. rewrite Hdb1, lookup_insert_ne; [done|].
      intros Heq. congruence.
    + intros id r [Heq|Hid]%elem_of_cons; [|by apply Hin].
      apply Hkeep. destruct first as [id1 r1]. cbn in *. by simplify_eq.
    + rewrite Hsize, Hdb1, map_size_insert_None by done. lia.
Qed.

(** C7. Along a run of insertions of facilities without OAR ID, the
    allocator gives each facility a key that no facility has at that
    time: the keys given are pairwise distinct and none is the key of
    a facility there was before the run, every facility is stored
    under its key, the facilities there were remain, and the table
    grows by the number of insertions (10,000 for a list of rows of
    that length, whatever their country codes). And a save of a
    facility that has an OAR ID leaves the instance, and so its OAR
    ID, as it is, and writes its row under that key. *)
Theorem allocator_no_collision :
  (∀ force_insert (rows : list Facility.t) (w : @World Env) saved w',
     save_all force_insert rows w = (Ok saved, w') →
     saved.*2 = rows
     ∧ NoDup saved.*1
     ∧ (∀ id, id ∈ saved.*1 → Facility_objects (db w) !! id = None)
     ∧ (∀ id f, Facility_objects (db w) !! id = Some f →
                Facility_objects (db w') !! id = Some f)
     ∧ (∀ id row, (id, row) ∈ saved → Facility_objects (db w') !! id = Some row)
     ∧ size (Facility_objects (db w'))
       = (size (Facility_objects (db w)) + length rows)%nat)
  ∧ (∀ force_insert (self : string * Facility.t) (w : @World Env) self' w',
       self.1 ≠ "" →
       Facility_save force_insert self w = (Ok self', w') →
       self'.1 = self.1
       ∧ Facility_objects (db w') !! self.1 = Some self.2).
Proof.
  split.
  - intros force_insert rows w saved w'. apply save_all_inv.
  - intros force_insert self w self' w' Hid Hrun.
    destruct (Facility_save_keeps_id _ _ _ _ _ Hid Hrun) as [-> ->].
    split; [done|]. apply lookup_insert_eq.
Qed.

End Allocator.

(** ** The adjudication views *)

Section Adjudication.
Context {Env : Type} `{!Capabilities Env}.
Implicit Types (w : @World Env) (request : Request.t).
Implicit Types (item : FacilityListItem.t) (facility_match : FacilityMatch.t).

(** One step of a view: the monad is unfolded and the look-ups that
    the hypotheses give are taken. *)
Ltac run_step :=
  cbv [mbind M_bind mret M_ret get_db put_db raise out_of_fuel call_env
       required request_user_contributor objects_get item_response
       FacilityMatch_save FacilityListItem_save FacilityMatch_update_others
       FacilityMatch_objects_create];
  cbn [fst snd db env].

Lemma confirm_match_view_ok w request pk list_item_id facility_match_id
    item facility_match :
  adjudicates (db w) request pk list_item_id facility_match_id item facility_match →
  FacilityListItem.status item = FacilityListItem.POTENTIAL_MATCH →
  FacilityMatch.status facility_match = FacilityMatch.PENDING →
  let s' := after_confirm list_item_id facility_match_id item facility_match (db w) in
  confirm_match_view request pk w
  = (Ok {| response_item :=
             (list_item_id,
              FacilityListItem.set_facility (Some (FacilityMatch.facility facility_match))
                (FacilityListItem.set_status FacilityListItem.CONFIRMED_MATCH item));
           list_statuses := list_statuses_of pk s' |},
     {| db := s'; env := env w |}).
Proof.
  intros [Hi Hm (c & l & Hc & Hl & Hlc) Hit Hil Hma Hmi] Hst Hms s'.
  unfold confirm_match_view, try_except. run_step.
  rewrite Hi, Hm, Hc. run_step. rewrite Hl. run_step.
  rewrite decide_True by done. run_step. rewrite Hit. run_step.
  rewrite decide_True by done. run_step. rewrite Hma. run_step.
  rewrite decide_True by done. run_step.
  rewrite decide_False by (rewrite Hst; auto).
  rewrite decide_False by (rewrite Hms; auto).
  run_step. reflexivity.
Qed.

Lemma confirm_match_view_invalid w request pk list_item_id facility_match_id
    item facility_match :
  adjudicates (db w) request pk list_item_id facility_match_id item facility_match →
  FacilityListItem.status item ≠ FacilityListItem.POTENTIAL_MATCH
  ∨ FacilityMatch.status facility_match ≠ FacilityMatch.PENDING →
  ∃ detail, confirm_match_view request pk w = (Raise (ValidationError detail), w).
Proof.
  intros [Hi Hm (c & l & Hc & Hl & Hlc) Hit Hil Hma Hmi] Hst.
  unfold confirm_match_view, try_except. run_step.
  rewrite Hi, Hm, Hc. run_step. rewrite Hl. run_step.
  rewrite decide_True by done. run_step. rewrite Hit. run_step.
  rewrite decide_True by done. run_step. rewrite Hma. run_step.
  rewrite decide_True by done. run_step.
  destruct Hst as [Hst|Hst].
  - rewrite decide_True by done. cbn [except_not_found]. eauto.
  - case_decide; [cbn [except_not_found]; eauto|].
    rewrite decide_True by done. cbn [except_not_found]. eauto.
Qed.

Lemma reject_match_view_invalid w request pk list_item_id facility_match_id
    item facility_match :
  adjudicates (db w) request pk list_item_id facility_match_id item facility_match →
  FacilityListItem.status item ≠ FacilityListItem.POTENTIAL_MATCH
  ∨ FacilityMatch.status facility_match ≠ FacilityMatch.PENDING →
  ∃ detail, reject_match_view request pk w = (Raise (ValidationError detail), w).
Proof.
  intros [Hi Hm (c & l & Hc & Hl & Hlc) Hit Hil Hma Hmi] Hst.
  unfold reject_match_view, try_except. run_step.
  rewrite Hi, Hm, Hc. run_step. rewrite Hl. run_step.
  rewrite decide_True by done. run_step. rewrite Hit. run_step.
  rewrite decide_True by done. run_step. rewrite Hma. run_step.
  rewrite decide_True by done. run_step.
  destruct Hst as [Hst|Hst].
  - rewrite decide_True by done. cbn [except_not_found]. eauto.
  - case_decide; [cbn [except_not_found]; eauto|].
    rewrite decide_True by done. cbn [except_not_found]. eauto.
Qed.

(** After the named match is rejected, no match of the item is
    pending when no other match of the item was. *)
Lemma remaining_zero_iff (s : Store) list_item_id facility_match_id facility_match :
  FacilityMatch_count list_item_id FacilityMatch.PENDING
    (after_reject facility_match_id facility_match s) = 0%nat
  ↔ ∀ k m, other_match s list_item_id facility_match_id k m →
           FacilityMatch.status m ≠ FacilityMatch.PENDING.
Proof.
  unfold FacilityMatch_count, after_reject, other_match.
  cbn [FacilityMatch_objects set_FacilityMatch_objects].
  rewrite count_zero_iff. cbn [fst snd]. split.
  - intros Hall k m (Hk & Hitem & Hne) Hst.
    apply (Hall k m); [by rewrite lookup_insert_ne|done].
  - intros Hall k m Hk [Hitem Hst].
    destruct (decide (facility_match_id = k)) as [->|Hne].
    + rewrite lookup_insert_eq in Hk. by simplify_eq.
    + rewrite lookup_insert_ne in Hk by done. by apply (Hall k m).
Qed.

(** [reject_match_view] past its checks. *)
Lemma reject_match_view_run w request pk list_item_id facility_match_id
    item facility_match :
  adjudicates (db w) request pk list_item_id facility_match_id item facility_match →
  FacilityListItem.status item = FacilityListItem.POTENTIAL_MATCH →
  FacilityMatch.status facility_match = FacilityMatch.PENDING →
  let s1 := after_reject facility_match_id facility_match (db w) in
  reject_match_view request pk w
  = if decide (FacilityMatch_count list_item_id FacilityMatch.PENDING s1 = 0%nat)
    then
      match FacilityListItem.geocoded_point item with
      | None =>
          let s' := after_reject_error list_item_id facility_match_id item
                      facility_match (utcnow (env w)).1 (db w) in
          (Ok {| response_item :=
                   (list_item_id, item_in_error item (utcnow (env w)).1);
                 list_statuses := list_statuses_of pk s' |},
           {| db := s'; env := (utcnow (env w)).2 |})
      | Some location =>
          match new_oar_id fuel (FacilityListItem.country_code item)
                  {| db := s1; env := env w |} with
          | (Ok new_id, w1) =>
              if decide (not_yet_seed list_item_id (db w))
              then
                let s' := after_reject_create list_item_id facility_match_id item
                            facility_match new_id location (db w) in
                (Ok {| response_item :=
                         (list_item_id, item_with_new_facility item new_id);
                       list_statuses := list_statuses_of pk s' |},
                 {| db := s'; env := env w1 |})
              else (Raise (IntegrityError "created_from"), w1)
          | (Raise e, w1) => (Raise e, w1)
          | (OutOfFuel, w1) => (OutOfFuel, w1)
          end
      end
    else
      (Ok {| response_item := (list_item_id, item);
             list_statuses := list_statuses_of pk s1 |},
       {| db := s1; env := env w |}).
Proof.
  intros [Hi Hm (c & l & Hc & Hl & Hlc) Hit Hil Hma Hmi] Hst Hms s1.
  unfold reject_match_view, try_except. run_step.
  rewrite Hi, Hm, Hc. run_step. rewrite Hl. run_step.
  rewrite decide_True by done. run_step. rewrite Hit. run_step.
  rewrite decide_True by done. run_step. rewrite Hma. run_step.
  rewrite decide_True by done. run_step.
  rewrite decide_False by (rewrite Hst; auto).
  rewrite decide_False by (rewrite Hms; auto).
  run_step. fold (after_reject facility_match_id facility_match (db w)).
  fold s1.
  destruct (decide (FacilityMatch_count list_item_id FacilityMatch.PENDING s1
                    = 0%nat)) as [Hzero|Hrest]; [|done].
  rewrite (bool_decide_eq_false_2
             (FacilityListItem.status item = FacilityListItem.GEOCODED_NO_RESULTS))
    by (rewrite Hst; discriminate).
  rewrite orb_false_r.
  destruct (FacilityListItem.geocoded_point item) as [location|] eqn:Hpoint.
  - rewrite bool_decide_eq_false_2 by discriminate.
    rewrite Facility_objects_create_run. cbn [Facility.country_code Facility.created_from].
    pose proof (new_oar_id_db fuel (FacilityListItem.country_code item)
                  {| db := s1; env := env w |}) as [Hdb Hnoraise].
    destruct (new_oar_id fuel (FacilityListItem.country_code item)
                {| db := s1; env := env w |}) as [[new_id|e|] w1] eqn:Hrun.
    + assert (not_yet_seed list_item_id s1 ↔ not_yet_seed list_item_id (db w))
        as Hseed by done.
      destruct (decide (not_yet_seed list_item_id (db w))) as [Hs|Hs].
      * rewrite decide_True by done. run_step. reflexivity.
      * rewrite decide_False by done. cbn [except_not_found]. reflexivity.
    + by destruct (Hnoraise e).
    + reflexivity.
  - rewrite bool_decide_eq_true_2 by done. run_step.
    destruct (utcnow (env w)) as [timestamp e']. reflexivity.
Qed.

(** A view that returns has passed its checks. *)
Ltac invert_checks request pk w :=
  run_step;
  destruct (Request.list_item_id request) as [list_item_id|] eqn:Hi;
    [|discriminate];
  destruct (Request.facility_match_id request) as [facility_match_id|] eqn:Hm;
    [|discriminate];
  destruct (Request.user_contributor request) as [c|] eqn:Hc;
    [|discriminate];
  run_step;
  destruct (FacilityList_objects (db w) !! pk) as [l|] eqn:Hl;
    [|discriminate];
  run_step; case_decide as Hlc; [|discriminate];
  run_step;
  destruct (FacilityListItem_objects (db w) !! list_item_id) as [item|] eqn:Hit;
    [|discriminate];
  run_step; case_decide as Hil; [|discriminate];
  run_step;
  destruct (FacilityMatch_objects (db w) !! facility_match_id)
    as [facility_match|] eqn:Hma;
    [|discriminate];
  run_step; case_decide as Hmi; [|discriminate];
  run_step;
  case_decide as Hst; [discriminate|];
  case_decide as Hms; [discriminate|];
  intros _;
  exists list_item_id, facility_match_id, item, facility_match;
  split; [split; eauto|];
  split; [by destruct (decide (FacilityListItem.status item
                               = FacilityListItem.POTENTIAL_MATCH))
         |by destruct (decide (FacilityMatch.status facility_match
                               = FacilityMatch.PENDING))].

Lemma confirm_match_view_inv w request pk response w' :
  confirm_match_view request pk w = (Ok response, w') →
  ∃ list_item_id facility_match_id item facility_match,
    adjudicates (db w) request pk list_item_id facility_match_id item facility_match
    ∧ FacilityListItem.status item = FacilityListItem.POTENTIAL_MATCH
    ∧ FacilityMatch.status facility_match = FacilityMatch.PENDING.
Proof.
  unfold confirm_match_view, try_except. invert_checks request pk w.
Qed.

Lemma reject_match_view_inv w request pk response w' :
  reject_match_view request pk w = (Ok response, w') →
  ∃ list_item_id facility_match_id item facility_match,
    adjudicates (db w) request pk list_item_id facility_match_id item facility_match
    ∧ FacilityListItem.status item = FacilityListItem.POTENTIAL_MATCH
    ∧ FacilityMatch.status facility_match = FacilityMatch.PENDING.
Proof.
  unfold reject_match_view, try_except. invert_checks request pk w.
Qed.

Lemma world_eta w : {| db := db w; env := env w |} = w.
Proof. by destruct w. Qed.

(** C1. When the item awaits adjudication and the named match is
    pending, [confirm_match] returns; the named match is then
    confirmed, every other match of the item is rejected, the matches
    of other items are as before, and the item is in status
    [CONFIRMED_MATCH] and linked to the facility of the named match,
    its other columns being as before. *)
Theorem confirm_match_effect w request pk list_item_id facility_match_id
    item facility_match :
  adjudicates (db w) request pk list_item_id facility_match_id item facility_match →
  FacilityListItem.status item = FacilityListItem.POTENTIAL_MATCH →
  FacilityMatch.status facility_match = FacilityMatch.PENDING →
  ∃ response w',
    confirm_match request pk w = (Ok response, w')
    ∧ FacilityMatch_objects (db w') !! facility_match_id
      = Some (FacilityMatch.set_status FacilityMatch.CONFIRMED facility_match)
    ∧ (∀ k m, other_match (db w) list_item_id facility_match_id k m →
         FacilityMatch_objects (db w') !! k
         = Some (FacilityMatch.set_status FacilityMatch.REJECTED m))
    ∧ (∀ k m, FacilityMatch_objects (db w) !! k = Some m →
         FacilityMatch.facility_list_item m ≠ list_item_id →
         FacilityMatch_objects (db w') !! k = Some m)
    ∧ FacilityListItem_objects (db w') !! list_item_id
      = Some (FacilityListItem.set_facility
                (Some (FacilityMatch.facility facility_match))
                (FacilityListItem.set_status FacilityListItem.CONFIRMED_MATCH item)).
Proof.
  intros Hadj Hst Hms.
  pose proof (confirm_match_view_ok _ _ _ _ _ _ _ Hadj Hst Hms) as Hrun.
  cbv zeta in Hrun. eexists _, _. split.
  { unfold confirm_match. apply transaction_atomic_Ok, Hrun. }
  destruct Hadj as [_ _ _ _ _ Hma Hmi].
  unfold after_confirm, other_match.
  cbn [db FacilityMatch_objects FacilityListItem_objects
       set_FacilityMatch_objects set_FacilityListItem_objects].
  split; [|split; [|split]].
  - rewrite map_lookup_imap, lookup_insert_eq. cbn.
    rewrite decide_False by tauto. done.
  - intros k m (Hk & Hitem & Hne).
    rewrite map_lookup_imap, lookup_insert_ne, Hk by done. cbn.
    rewrite decide_True by done. done.
  - intros k m Hk Hitem.
    assert (facility_match_id ≠ k) as Hne by (intros ->; congruence).
    rewrite map_lookup_imap, lookup_insert_ne, Hk by done. cbn.
    rewrite decide_False by tauto. done.
  - by rewrite lookup_insert_eq.
Qed.

(** C2. When the item does not await adjudication, or the named match
    is not pending, [confirm_match] and [reject_match] raise a
    validation error; the database and the environment are as before,
    already where the error is raised and so after the transaction. *)
Theorem adjudication_precondition_violated w request pk list_item_id
    facility_match_id item facility_match :
  adjudicates (db w) request pk list_item_id facility_match_id item facility_match →
  FacilityListItem.status item ≠ FacilityListItem.POTENTIAL_MATCH
  ∨ FacilityMatch.status facility_match ≠ FacilityMatch.PENDING →
  (∃ detail,
     confirm_match_view request pk w = (Raise (ValidationError detail), w)
     ∧ confirm_match request pk w = (Raise (ValidationError detail), w))
  ∧ (∃ detail,
       reject_match_view request pk w = (Raise (ValidationError detail), w)
       ∧ reject_match request pk w = (Raise (ValidationError detail), w)).
Proof.
  intros Hadj Hst. split.
  - destruct (confirm_match_view_invalid _ _ _ _ _ _ _ Hadj Hst) as [detail Hrun].
    exists detail. split; [done|].
    unfold confirm_match, transaction_atomic. rewrite Hrun. by rewrite world_eta.
  - destruct (reject_match_view_invalid _ _ _ _ _ _ _ Hadj Hst) as [detail Hrun].
    exists detail. split; [done|].
    unfold reject_match, transaction_atomic. rewrite Hrun. by rewrite world_eta.
Qed.

(** C3. When another match of the item is pending, [reject_match]
    returns and has written the named match only, now rejected: the
    other matches, the item (still awaiting adjudication, its facility
    link and processing results as before), the facilities, the lists
    and the environment are as before. *)
Theorem reject_match_pending_remain w request pk list_item_id
    facility_match_id item facility_match :
  adjudicates (db w) request pk list_item_id facility_match_id item facility_match →
  FacilityListItem.status item = FacilityListItem.POTENTIAL_MATCH →
  FacilityMatch.status facility_match = FacilityMatch.PENDING →
  (∃ k m, other_match (db w) list_item_id facility_match_id k m
          ∧ FacilityMatch.status m = FacilityMatch.PENDING) →
  ∃ response w',
    reject_match request pk w = (Ok response, w')
    ∧ FacilityMatch_objects (db w')
      = <[facility_match_id :=
            FacilityMatch.set_status FacilityMatch.REJECTED facility_match]>
          (FacilityMatch_objects (db w))
    ∧ (∀ k, k ≠ facility_match_id →
         FacilityMatch_objects (db w') !! k = FacilityMatch_objects (db w) !! k)
    ∧ FacilityListItem_objects (db w') = FacilityListItem_objects (db w)
    ∧ FacilityListItem_objects (db w') !! list_item_id = Some item
    ∧ Facility_objects (db w') = Facility_objects (db w)
    ∧ FacilityList_objects (db w') = FacilityList_objects (db w)
    ∧ Contributor_objects (db w') = Contributor_objects (db w)
    ∧ env w' = env w.
Proof.
  intros Hadj Hst Hms (k & m & Hother & Hpending).
  pose proof (reject_match_view_run _ _ _ _ _ _ _ Hadj Hst Hms) as Hrun.
  cbv zeta in Hrun. rewrite decide_False in Hrun.
  2:{ rewrite remaining_zero_iff. intros Hall. by apply (Hall k m). }
  eexists _, _. split.
  { unfold reject_match. apply transaction_atomic_Ok, Hrun. }
  destruct Hadj as [_ _ _ Hit _ _ _]. cbn.
  repeat split; try done.
  intros k' Hne. by rewrite lookup_insert_ne.
Qed.

(** C4, amended. When the named match is the last pending match of
    the item, the item has a geocoded point, the allocator meets a free
    OAR ID within its rounds and no facility was created from the item
    yet ([created_from] is a one-to-one field: a second facility from
    the same item is refused by the database), [reject_match] returns; there is then one more facility, under a
    new OAR ID, with the name, address, country code and point of the
    item and created from the item; one more match, between the item
    and that facility, confirmed, of confidence 1.00 and with results
    of type [all_potential_matches_rejected]; and the item is in
    status [CONFIRMED_MATCH] and linked to that facility. The named
    match is rejected. *)
Theorem reject_match_creates_facility w request pk list_item_id
    facility_match_id item facility_match location n :
  adjudicates (db w) request pk list_item_id facility_match_id item facility_match →
  FacilityListItem.status item = FacilityListItem.POTENTIAL_MATCH →
  FacilityMatch.status facility_match = FacilityMatch.PENDING →
  (∀ k m, other_match (db w) list_item_id facility_match_id k m →
          FacilityMatch.status m ≠ FacilityMatch.PENDING) →
  FacilityListItem.geocoded_point item = Some location →
  (n < fuel)%nat →
  Facility_objects (db w)
    !! (candidate n (FacilityListItem.country_code item) (env w)).1 = None →
  not_yet_seed list_item_id (db w) →
  ∃ response w' new_id new_pk,
    reject_match request pk w = (Ok response, w')
    ∧ Facility_objects (db w) !! new_id = None
    ∧ Facility_objects (db w')
      = <[new_id :=
            {| Facility.name := FacilityListItem.name item;
               Facility.address := FacilityListItem.address item;
               Facility.country_code := FacilityListItem.country_code item;
               Facility.location := location;
               Facility.created_from := list_item_id |}]>
          (Facility_objects (db w))
    ∧ FacilityMatch_objects (db w) !! new_pk = None
    ∧ FacilityMatch_objects (db w')
      = <[new_pk :=
            {| FacilityMatch.facility_list_item := list_item_id;
               FacilityMatch.facility := new_id;
               FacilityMatch.confidence := 100;
               FacilityMatch.status := FacilityMatch.CONFIRMED;
               FacilityMatch.results :=
                 JDict [("match_type",
                         JString "all_potential_matches_rejected")] |}]>
          (<[facility_match_id :=
               FacilityMatch.set_status FacilityMatch.REJECTED facility_match]>
             (FacilityMatch_objects (db w)))
    ∧ FacilityListItem_objects (db w')
      = <[list_item_id :=
            FacilityListItem.set_status FacilityListItem.CONFIRMED_MATCH
              (FacilityListItem.set_facility (Some new_id) item)]>
          (FacilityListItem_objects (db w)).
Proof.
  intros Hadj Hst Hms Hlast Hpoint Hn Hfree Hseed.
  pose proof (reject_match_view_run _ _ _ _ _ _ _ Hadj Hst Hms) as Hrun.
  cbv zeta in Hrun.
  rewrite decide_True in Hrun by (by apply remaining_zero_iff).
  rewrite Hpoint in Hrun.
  destruct (new_oar_id_finds fuel (FacilityListItem.country_code item)
              {| db := after_reject facility_match_id facility_match (db w);
                 env := env w |} n Hn Hfree) as (i & Hi & Hfound).
  pose proof (new_oar_id_fresh _ _ _ _ _ Hfound) as Hnew.
  rewrite Hfound, decide_True in Hrun by done.
  eexists _, _, _, (next_pk (FacilityMatch_objects
                               (after_reject facility_match_id facility_match (db w)))).
  split; [unfold reject_match; apply transaction_atomic_Ok, Hrun|].
  destruct Hadj as [_ _ _ _ _ Hma _].
  split; [exact Hnew|]. split; [done|]. split; [|done].
  pose proof (next_pk_fresh
                (FacilityMatch_objects
                   (after_reject facility_match_id facility_match (db w))))
    as Hpk.
  cbn in Hpk. rewrite lookup_insert in Hpk. by case_decide.
Qed.

(** C5. When the named match is the last pending match of the item
    and the item has no geocoded point (or is in status
    [GEOCODED_NO_RESULTS], which an item that awaits adjudication is
    not), [reject_match] returns; the item is then in status
    [ERROR_MATCHING] and has one more processing result, an error
    whose message tells that no facility is created from an item
    without a geocoded location; its facility link is as before; no
    facility and no match is created. The named match is rejected. *)
Theorem reject_match_without_location w request pk list_item_id
    facility_match_id item facility_match :
  adjudicates (db w) request pk list_item_id facility_match_id item facility_match →
  FacilityListItem.status item = FacilityListItem.POTENTIAL_MATCH →
  FacilityMatch.status facility_match = FacilityMatch.PENDING →
  (∀ k m, other_match (db w) list_item_id facility_match_id k m →
          FacilityMatch.status m ≠ FacilityMatch.PENDING) →
  FacilityListItem.geocoded_point item = None
  ∨ FacilityListItem.status item = FacilityListItem.GEOCODED_NO_RESULTS →
  ∃ response w' item' entry,
    reject_match request pk w = (Ok response, w')
    ∧ FacilityListItem_objects (db w')
      = <[list_item_id := item']> (FacilityListItem_objects (db w))
    ∧ FacilityListItem.status item' = FacilityListItem.ERROR_MATCHING
    ∧ FacilityListItem.processing_results item'
      = (FacilityListItem.processing_results item ++ [entry])%list
    ∧ json_get "error" entry = Some (JBool true)
    ∧ json_get "message" entry
      = Some (JString
                "Unable to create a new facility from an item with no geocoded location")
    ∧ FacilityListItem.facility item' = FacilityListItem.facility item
    ∧ Facility_objects (db w') = Facility_objects (db w)
    ∧ FacilityMatch_objects (db w')
      = <[facility_match_id :=
            FacilityMatch.set_status FacilityMatch.REJECTED facility_match]>
          (FacilityMatch_objects (db w))
    ∧ dom (FacilityMatch_objects (db w')) = dom (FacilityMatch_objects (db w)).
Proof.
  intros Hadj Hst Hms Hlast Hpoint.
  assert (FacilityListItem.geocoded_point item = None) as Hnone.
  { destruct Hpoint as [|Hno]; [done|]. rewrite Hst in Hno. discriminate. }
  pose proof (reject_match_view_run _ _ _ _ _ _ _ Hadj Hst Hms) as Hrun.
  cbv zeta in Hrun.
  rewrite decide_True in Hrun by (by apply remaining_zero_iff).
  rewrite Hnone in Hrun.
  eexists _, _, (item_in_error item (utcnow (env w)).1),
    (no_location_entry (utcnow (env w)).1).
  split; [unfold reject_match; apply transaction_atomic_Ok, Hrun|].
  destruct Hadj as [_ _ _ _ _ Hma _].
  cbn. repeat split; try done.
  apply dom_insert_lookup_L. eauto.
Qed.

(** C10. When [reject_match] returns and leaves the item in status
    [ERROR_MATCHING], the item has one more processing result than
    before; its action is [ProcessingAction.CONFIRM], and its
    [started_at] and [finished_at] are one and the same reading of
    the clock. *)
Theorem reject_match_error_entry w request pk response w' list_item_id item' :
  reject_match request pk w = (Ok response, w') →
  Request.list_item_id request = Some list_item_id →
  FacilityListItem_objects (db w') !! list_item_id = Some item' →
  FacilityListItem.status item' = FacilityListItem.ERROR_MATCHING →
  ∃ item entry,
    FacilityListItem_objects (db w) !! list_item_id = Some item
    ∧ FacilityListItem.processing_results item'
      = (FacilityListItem.processing_results item ++ [entry])%list
    ∧ json_get "action" entry = Some (JString ProcessingAction_CONFIRM)
    ∧ json_get "started_at" entry = Some (JString (utcnow (env w)).1)
    ∧ json_get "finished_at" entry = Some (JString (utcnow (env w)).1).
Proof.
  intros Hrun Hid Hitem' Herr. unfold reject_match in Hrun.
  apply transaction_atomic_inv in Hrun as [(a & [= <-] & Hrun)|[Hno _]];
    [|by destruct (Hno response)].
  destruct (reject_match_view_inv _ _ _ _ _ Hrun)
    as (lid & mid & item & facility_match & Hadj & Hst & Hms).
  pose proof (reject_match_view_run _ _ _ _ _ _ _ Hadj Hst Hms) as Heq.
  cbv zeta in Heq. rewrite Hrun in Heq.
  destruct Hadj as [Hi _ _ Hit _ _ _].
  assert (lid = list_item_id) as -> by congruence.
  exists item, (no_location_entry (utcnow (env w)).1).
  split; [done|].
  case_decide.
  - destruct (FacilityListItem.geocoded_point item) as [location|].
    + destruct (new_oar_id _ _ _) as [[new_id|e|] w1]; try discriminate.
      case_decide; [|discriminate].
      injection Heq as _ ->. cbn in Hitem'.
      rewrite lookup_insert_eq in Hitem'. injection Hitem' as <-.
      discriminate.
    + injection Heq as _ ->. cbn in Hitem'.
      rewrite lookup_insert_eq in Hitem'. injection Hitem' as <-.
      cbn. by rewrite !decide_False by done.
  - injection Heq as _ ->. cbn in Hitem'. rewrite Hit in Hitem'.
    injection Hitem' as <-. rewrite Hst in Herr. discriminate.
Qed.

(** *** The positive matches of an item *)

Lemma at_most_one_positive_iff (s : Store) i :
  at_most_one_positive i s
  ↔ ∀ k1 k2 m1 m2, is_positive s i k1 m1 → is_positive s i k2 m2 → k1 = k2.
Proof.
  unfold at_most_one_positive, positive_matches, is_positive.
  rewrite size_le_1_iff. setoid_rewrite map_lookup_filter_Some. cbn [fst snd].
  split.
  - intros Hall k1 k2 m1 m2 (? & ? & ?) (? & ? & ?). by apply (Hall k1 k2 m1 m2).
  - intros Hall k1 k2 m1 m2 (? & ? & ?) (? & ? & ?). by apply (Hall k1 k2 m1 m2).
Qed.

Lemma no_positive_iff (s : Store) i :
  size (positive_matches i s) = 0%nat ↔ ∀ k m, ¬ is_positive s i k m.
Proof.
  unfold positive_matches, is_positive. rewrite count_zero_iff. cbn [fst snd].
  split.
  - intros Hall k m (Hk & ? & ?). by apply (Hall k m).
  - intros Hall k m Hk [? ?]. by apply (Hall k m).
Qed.

Lemma adjudication_invariant_iff (s : Store) i :
  adjudication_invariant i s
  ↔ (∀ k1 k2 m1 m2, is_positive s i k1 m1 → is_positive s i k2 m2 → k1 = k2)
    ∧ (∀ item, FacilityListItem_objects s !! i = Some item →
         FacilityListItem.status item = FacilityListItem.POTENTIAL_MATCH →
         ∀ k m, ¬ is_positive s i k m).
Proof.
  unfold adjudication_invariant. rewrite at_most_one_positive_iff.
  by setoid_rewrite no_positive_iff.
Qed.

(** The invariant of an item goes from [s] to [s'] when [s'] has no
    new positive match of the item and the item does not come to await
    adjudication. *)
Lemma adjudication_invariant_mono (s s' : Store) i :
  (∀ k m, is_positive s' i k m → is_positive s i k m) →
  (∀ item', FacilityListItem_objects s' !! i = Some item' →
     FacilityListItem.status item' = FacilityListItem.POTENTIAL_MATCH →
     ∃ item, FacilityListItem_objects s !! i = Some item
             ∧ FacilityListItem.status item = FacilityListItem.POTENTIAL_MATCH) →
  adjudication_invariant i s → adjudication_invariant i s'.
Proof.
  rewrite !adjudication_invariant_iff. intros Hpos Hitem [Hone Hnone]. split.
  - intros k1 k2 m1 m2 H1 H2. apply (Hone k1 k2 m1 m2); auto.
  - intros item' Hi' Hst' k m Hk.
    destruct (Hitem item' Hi' Hst') as (item & Hi & Hst).
    apply (Hnone item Hi Hst k m). auto.
Qed.

Lemma is_positive_after_reject (s : Store) facility_match_id facility_match i k m :
  is_positive (after_reject facility_match_id facility_match s) i k m →
  is_positive s i k m.
Proof.
  unfold is_positive, after_reject. cbn. rewrite lookup_insert.
  case_decide; [|done].
  intros ([= <-] & _ & [Hst|Hst]); cbn in Hst; discriminate.
Qed.

Lemma is_positive_after_confirm (s : Store) list_item_id facility_match_id
    item facility_match i k m :
  FacilityMatch.facility_list_item facility_match = list_item_id →
  is_positive
    (after_confirm list_item_id facility_match_id item facility_match s) i k m →
  (k = facility_match_id ∧ i = list_item_id)
  ∨ (i ≠ list_item_id ∧ is_positive s i k m).
Proof.
  intros Hmi. unfold is_positive, after_confirm. cbn.
  rewrite map_lookup_imap, lookup_insert.
  destruct (decide (facility_match_id = k)) as [->|Hne]; cbn.
  - rewrite decide_False by tauto. intros ([= <-] & Hitem & _). cbn in Hitem.
    left. split; congruence.
  - destruct (FacilityMatch_objects s !! k) as [m'|] eqn:Hk; cbn; [|by intros []].
    case_decide as Hd.
    + intros ([= <-] & _ & [Hst|Hst]); cbn in Hst; discriminate.
    + intros ([= <-] & Hitem & Hst). right. split; [|done].
      intros ->. apply Hd. split; [done|congruence].
Qed.

Lemma is_positive_after_reject_create (s : Store) list_item_id facility_match_id
    item facility_match new_id location i k m :
  is_positive
    (after_reject_create list_item_id facility_match_id item facility_match
       new_id location s) i k m →
  (k = next_pk (FacilityMatch_objects
                  (after_reject facility_match_id facility_match s))
   ∧ i = list_item_id)
  ∨ is_positive s i k m.
Proof.
  unfold after_reject_create. cbv zeta. intros (Hk & Hitem & Hst).
  cbn [FacilityMatch_objects set_FacilityListItem_objects
       set_FacilityMatch_objects] in Hk.
  rewrite lookup_insert in Hk. case_decide as Hd.
  - injection Hk as <-. cbn in Hitem. left. split; congruence.
  - right. apply (is_positive_after_reject s facility_match_id facility_match).
    split; [|done].
    exact Hk.
Qed.

(** C6, amended. For every list item: when at most one of its matches
    is automatic or confirmed, the same holds after a call of
    [confirm_match], whatever the call returns. After a call of
    [reject_match] it holds when, before the call, in addition none of
    the matches of the item is automatic or confirmed as long as the
    item awaits adjudication; this condition on the item is kept by
    both views, whatever they return. *)
Theorem adjudication_invariant_preserved w request pk i :
  (at_most_one_positive i (db w) →
     at_most_one_positive i (db (confirm_match request pk w).2))
  ∧ (adjudication_invariant i (db w) →
       at_most_one_positive i (db (reject_match request pk w).2)
       ∧ adjudication_invariant i (db (reject_match request pk w).2)
       ∧ adjudication_invariant i (db (confirm_match request pk w).2)).
Proof.
  split.
  { intros Hone.
    destruct (confirm_match request pk w) as [r w'] eqn:Hrun. cbn [snd].
    unfold confirm_match in Hrun.
    apply transaction_atomic_inv in Hrun as [(a & -> & Hrun)|[_ ->]]; [|done].
    destruct (confirm_match_view_inv _ _ _ _ _ Hrun)
      as (lid & mid & item & facility_match & Hadj & Hst & Hms).
    rewrite (confirm_match_view_ok _ _ _ _ _ _ _ Hadj Hst Hms) in Hrun.
    injection Hrun as _ <-. cbn [db].
    destruct Hadj as [_ _ _ _ _ _ Hmi].
    apply at_most_one_positive_iff. intros k1 k2 m1 m2 H1 H2.
    apply is_positive_after_confirm in H1 as [[-> ->]|[Hne H1]]; [| |done].
    - apply is_positive_after_confirm in H2 as [[-> _]|[? _]]; done.
    - apply is_positive_after_confirm in H2 as [[_ ?]|[_ H2]]; [done| |done].
      by apply (proj1 (at_most_one_positive_iff (db w) i) Hone k1 k2 m1 m2). }
  intros Hinv.
  cut (adjudication_invariant i (db (confirm_match request pk w).2)
       ∧ adjudication_invariant i (db (reject_match request pk w).2)).
  { intros [Hconfirm Hreject]. split; [apply Hreject|done]. }
  split.
  - destruct (confirm_match request pk w) as [r w'] eqn:Hrun. cbn [snd].
    unfold confirm_match in Hrun.
    apply transaction_atomic_inv in Hrun as [(a & -> & Hrun)|[_ ->]]; [|done].
    destruct (confirm_match_view_inv _ _ _ _ _ Hrun)
      as (lid & mid & item & facility_match & Hadj & Hst & Hms).
    rewrite (confirm_match_view_ok _ _ _ _ _ _ _ Hadj Hst Hms) in Hrun.
    injection Hrun as _ <-. cbn [db].
    destruct Hadj as [_ _ _ _ _ _ Hmi].
    destruct (decide (i = lid)) as [->|Hne].
    + apply adjudication_invariant_iff. split.
      * intros k1 k2 m1 m2 H1 H2.
        apply is_positive_after_confirm in H1 as [[-> _]|[? _]]; [|done|done].
        apply is_positive_after_confirm in H2 as [[-> _]|[? _]]; done.
      * intros item' Hi' Hst'. cbn in Hi'. rewrite lookup_insert_eq in Hi'.
        injection Hi' as <-. discriminate Hst'.
    + apply adjudication_invariant_mono with (db w); [| |done].
      * intros k m Hpos.
        apply is_positive_after_confirm in Hpos as [[_ ?]|[_ ?]]; done.
      * intros item' Hi' Hst'. cbn in Hi'.
        rewrite lookup_insert_ne in Hi' by done. eauto.
  - destruct (reject_match request pk w) as [r w'] eqn:Hrun. cbn [snd].
    unfold reject_match in Hrun.
    apply transaction_atomic_inv in Hrun as [(a & -> & Hrun)|[_ ->]]; [|done].
    destruct (reject_match_view_inv _ _ _ _ _ Hrun)
      as (lid & mid & item & facility_match & Hadj & Hst & Hms).
    rewrite (reject_match_view_run _ _ _ _ _ _ _ Hadj Hst Hms) in Hrun.
    cbv zeta in Hrun. destruct Hadj as [_ _ _ Hit _ _ _].
    case_decide.
    + destruct (FacilityListItem.geocoded_point item) as [location|].
      * destruct (new_oar_id _ _ _) as [[new_id|e|] w1]; try discriminate.
        case_decide; [|discriminate]. injection Hrun as _ <-. cbn [db].
        destruct (decide (i = lid)) as [->|Hne].
        -- apply adjudication_invariant_iff in Hinv as [_ Hnone].
           specialize (Hnone item Hit Hst).
           apply adjudication_invariant_iff. split.
           ++ intros k1 k2 m1 m2 H1 H2.
              apply is_positive_after_reject_create in H1 as [[-> _]|H1];
                [|by destruct (Hnone _ _ H1)].
              apply is_positive_after_reject_create in H2 as [[-> _]|H2];
                [done|by destruct (Hnone _ _ H2)].
           ++ intros item' Hi' Hst'. cbn in Hi'. rewrite lookup_insert_eq in Hi'.
              injection Hi' as <-. discriminate Hst'.
        -- apply adjudication_invariant_mono with (db w); [| |done].
           ++ intros k m Hpos.
              apply is_positive_after_reject_create in Hpos as [[_ ?]|?]; done.
           ++ intros item' Hi' Hst'. cbn in Hi'.
              rewrite lookup_insert_ne in Hi' by done. eauto.
      * injection Hrun as _ <-. cbn [db].
        apply adjudication_invariant_mono with (db w); [| |done].
        -- intros k m Hpos.
           by apply (is_positive_after_reject (db w) mid facility_match).
        -- intros item' Hi' Hst'. cbn in Hi'. rewrite lookup_insert in Hi'.
           case_decide; [|eauto]. injection Hi' as <-. discriminate Hst'.
    + injection Hrun as _ <-. cbn [db].
      apply adjudication_invariant_mono with (db w); [| |done].
      * intros k m Hpos.
        by apply (is_positive_after_reject (db w) mid facility_match).
      * intros item' Hi' Hst'. cbn in Hi'. eauto.
Qed.
End Adjudication.

(** ** The upload of a list *)

Section Upload.
Context {Env : Type} `{!Capabilities Env}.
Implicit Types (w : @World Env) (request : Request.t).

Ltac run_step :=
  cbv [mbind M_bind mret M_ret get_db put_db raise call_env required
       request_user_contributor try_except read_header _validate_header
       report_exc_info FacilityList_save FacilityListItem_save];
  cbn [fst snd db env].

Lemma report_exc_info_run request c w :
  Request.user_contributor request = Some c →
  report_exc_info request w = (Ok tt, w).
Proof.
  intros Hc. unfold report_exc_info, request_user_contributor. rewrite Hc.
  by destruct ROLLBAR.
Qed.



(** The rows after the header give one item each, or the loop raises
    at a row that does not decode. *)
Lemma new_items_run request new_list idx (rows : list (option string)) w :
  is_Some (Request.user_contributor request) →
  idx > 0 →
  if decide (Forall is_Some rows)
  then ∃ items, new_items request new_list idx rows w = (Ok items, w)
                ∧ length items = length rows
                ∧ Forall (λ item, FacilityListItem.facility_list item = new_list
                                  ∧ FacilityListItem.status item
                                    = FacilityListItem.UPLOADED) items
  else new_items request new_list idx rows w = (Raise unsupported_encoding, w).
Proof.
  intros [c Hc]. revert idx. induction rows as [|row rest IH]; intros idx Hidx.
  - rewrite decide_True by constructor. exists []. by repeat split.
  - cbn [new_items]. destruct (decide (idx > 0)) as [_|?]; [|lia].
    specialize (IH (idx + 1) ltac:(lia)).
    destruct row as [raw_data|].
    + cbv [mbind M_bind mret M_ret]. destruct (decide (Forall is_Some rest)) as [Hall|Hnot].
      * destruct IH as (items & -> & Hlen & Hitems).
        rewrite decide_True by (constructor; eauto).
        eexists. split; [done|]. cbn. split; [by rewrite Hlen|].
        constructor; [done|done].
      * rewrite IH. rewrite decide_False; [done|].
        intros Hall. apply Hnot. by inversion Hall.
    + cbv [mbind M_bind]. rewrite (report_exc_info_run request c w Hc).
      rewrite decide_False; [done|].
      intros Hall. inversion Hall as [|? ? [? ?] ?]. discriminate.
Qed.


Lemma bulk_create_exact (items : list FacilityListItem.t) w :
  bulk_create items w
  = (Ok tt,
     {| db := set_FacilityListItem_objects
                (bulk_created items (FacilityListItem_objects (db w))) (db w);
        env := env w |}).
Proof.
  revert w. induction items as [|item rest IH]; intros w.
  - cbn. by destruct w as [[]].
  - cbn [bulk_create]. run_step. rewrite IH. reflexivity.
Qed.

Lemma new_items_exact request new_list idx (raws : list string) w :
  idx > 0 →
  new_items request new_list idx (Some <$> raws) w
  = (Ok (imap (λ j raw, FacilityListItem.new (idx - 1 + Z.of_nat j) new_list raw)
           raws), w).
Proof.
  revert idx. induction raws as [|raw rest IH]; intros idx Hidx; [done|].
  cbn [fmap list_fmap new_items]. rewrite decide_True by done.
  cbv [mbind M_bind mret M_ret]. rewrite IH by lia. cbn [imap].
  do 3 f_equal.
  - f_equal. lia.
  - apply imap_ext. intros j raw' _. cbn. f_equal. lia.
Qed.

Lemma all_decoded (rows : list (option string)) :
  Forall is_Some rows → ∃ raws, rows = Some <$> raws.
Proof.
  induction 1 as [|row rows [raw ->] _ [raws ->]].
  - by exists [].
  - by exists (raw :: raws).
Qed.

(** An upload that is served: what was checked, and what is written. *)
Lemma create_view_inv w request r w' :
  create_view request w = (Ok r, w') →
  ∃ csv_file header raws contributor (old : option (Z * FacilityList.t)),
    acceptable_upload request csv_file header (Some <$> raws) contributor
    ∧ match Request.replaces request with
      | None => old = None
      | Some None => False
      | Some (Some l) =>
          ∃ row, old = Some (l, row)
                 ∧ FacilityList_objects (db w) !! l = Some row
                 ∧ FacilityList.contributor row = Some contributor
                 ∧ replaced_count l (db w) = 0%nat
      end
    ∧ r = (next_pk (FacilityList_objects (db w)),
           uploaded_list request csv_file header contributor (fst <$> old))
    ∧ db w' = after_create (next_pk (FacilityList_objects (db w)))
                (uploaded_list request csv_file header contributor (fst <$> old))
                old raws (db w)
    ∧ env w' = if decide (ENVIRONMENT = "Staging" ∨ ENVIRONMENT = "Production")
               then submit_jobs ENVIRONMENT
                      (next_pk (FacilityList_objects (db w))) (env w)
               else env w.
Proof.
  unfold create_view. run_step.
  destruct (Request.file request) as [csv_file|] eqn:Hfile; [|done].
  destruct (in_memory csv_file) eqn:Hmem; cbn [negb]; [|done].
  case_decide as Hsize; [done|].
  destruct (Request.user_contributor request) as [contributor|] eqn:Hc;
    [|destruct (file_lines csv_file) as [|[header|] rest];
      [by rewrite decide_True by done
      |by repeat case_decide
      |by destruct ROLLBAR]].
  destruct (file_lines csv_file) as [|[header|] rest] eqn:Hlines;
    [| |by destruct ROLLBAR].
  { by rewrite decide_True by done. }
  case_decide as Hheader; [done|]. case_decide as Hfields; [done|].
  assert (acceptable_upload request csv_file header rest contributor) as Hacc.
  { split; try done; try lia;
      match goal with
      | |- ?x ∈ ?l => destruct (decide (x ∈ l)); [done|tauto]
      end. }
  destruct (Request.replaces request) as [[l|]|] eqn:Hreplaces; [|done|].
  - run_step.
    destruct (FacilityList_objects (db w) !! l) as [row|] eqn:Hrow; [|done].
    case_decide as Hown; [|done]. case_decide as Hcount; [done|].
    run_step. case_decide as Hfits; [|done]. run_step.
    case_decide as Hfits_old; [|done]. run_step.
    cbn [new_items]. rewrite decide_False by lia.
    match goal with
    | |- context [new_items request ?pk ?idx rest ?w1] =>
        pose proof (new_items_run request pk idx rest w1 ltac:(eauto) ltac:(lia))
          as Hitems;
        destruct (decide (Forall is_Some rest)) as [Hall|Hnot];
          [|by rewrite Hitems];
        clear Hitems; destruct (all_decoded rest Hall) as [raws ->];
        rewrite (new_items_exact request pk idx raws w1) by lia
    end.
    rewrite bulk_create_exact.
    assert (imap (λ j raw, FacilityListItem.new (0 + 1 - 1 + Z.of_nat j)
                             (next_pk (FacilityList_objects (db w))) raw) raws
            = rows_as_items (next_pk (FacilityList_objects (db w))) raws) as ->
      by (apply imap_ext; intros j raw _; cbn; f_equal; lia).
    intros Hrun.
    exists csv_file, header, raws, contributor, (Some (l, row)).
    split; [done|]. split; [exists row; repeat split; try done; lia|].
    case_decide; cbn in Hrun; injection Hrun as <- <-; done.
  - run_step. case_decide as Hfits; [|done]. run_step.
    cbn [new_items]. rewrite decide_False by lia.
    match goal with
    | |- context [new_items request ?pk ?idx rest ?w1] =>
        pose proof (new_items_run request pk idx rest w1 ltac:(eauto) ltac:(lia))
          as Hitems;
        destruct (decide (Forall is_Some rest)) as [Hall|Hnot];
          [|by rewrite Hitems];
        clear Hitems; destruct (all_decoded rest Hall) as [raws ->];
        rewrite (new_items_exact request pk idx raws w1) by lia
    end.
    rewrite bulk_create_exact.
    assert (imap (λ j raw, FacilityListItem.new (0 + 1 - 1 + Z.of_nat j)
                             (next_pk (FacilityList_objects (db w))) raw) raws
            = rows_as_items (next_pk (FacilityList_objects (db w))) raws) as ->
      by (apply imap_ext; intros j raw _; cbn; f_equal; lia).
    intros Hrun.
    exists csv_file, header, raws, contributor, None.
    split; [done|]. split; [done|].
    case_decide; cbn in Hrun; injection Hrun as <- <-; done.
Qed.

Lemma create_inv w request r w' :
  create request w = (Ok r, w') → create_view request w = (Ok r, w').
Proof.
  unfold create. intros Hrun.
  apply transaction_atomic_inv in Hrun as [(a & [= <-] & Hrun)|[Hno _]];
    [done|by destruct (Hno r)].
Qed.


End Upload.

(** ** The derived views of a facility *)

Section Views.
Context {Env : Type} `{!Capabilities Env}.
Implicit Types (w : @World Env) (self : string * Facility.t).

Lemma get_all_run {A : Type} (table : Store → gmap Z A) model (pks : list Z) w :
  Forall (λ pk, is_Some (table (db w) !! pk)) pks →
  ∃ rows, get_all table model pks w = (Ok rows, w)
          ∧ rows.*1 = pks
          ∧ Forall (λ r, table (db w) !! r.1 = Some r.2) rows.
Proof.
  induction 1 as [|pk pks [row Hrow] _ (rows & Hrun & Hpks & Hrows)].
  - exists []. by repeat split.
  - exists ((pk, row) :: rows). cbn [get_all].
    cbv [mbind M_bind objects_get get_db mret M_ret]. rewrite Hrow.
    rewrite decide_True by done. rewrite Hrun.
    split; [done|]. split; [cbn; by rewrite Hpks|]. by constructor.
Qed.

Lemma string_length_nonzero (x : string) : String.length x ≠ 0%nat ↔ x ≠ "".
Proof. destruct x; cbn; split; intros; congruence || lia. Qed.

(** The list items that the three views start from. *)
Lemma facility_list_item_matches_run self w :
  referential_integrity (db w) →
  ∃ rows,
    facility_list_item_matches self w = (Ok rows, w)
    ∧ ∀ k item,
        (k, item) ∈ rows
        ↔ ∃ key m, FacilityMatch_objects (db w) !! key = Some m
                   ∧ FacilityMatch.facility m = self.1
                   ∧ (FacilityMatch.status m = FacilityMatch.AUTOMATIC
                      ∨ FacilityMatch.status m = FacilityMatch.CONFIRMED)
                   ∧ FacilityMatch.facility_list_item m = k
                   ∧ FacilityListItem_objects (db w) !! k = Some item.
Proof.
  intros [Hitem _ _]. unfold facility_list_item_matches.
  cbv [mbind M_bind get_db]. cbn [db].
  set (pks := _ <$> map_to_list _).
  assert (∀ k, k ∈ pks ↔
            ∃ key m, FacilityMatch_objects (db w) !! key = Some m
                     ∧ FacilityMatch.facility m = self.1
                     ∧ (FacilityMatch.status m = FacilityMatch.AUTOMATIC
                        ∨ FacilityMatch.status m = FacilityMatch.CONFIRMED)
                     ∧ FacilityMatch.facility_list_item m = k) as Hpks.
  { intros k. unfold pks. rewrite list_elem_of_fmap. split.
    - intros ([key m] & -> & Hin). apply elem_of_map_to_list in Hin.
      apply map_lookup_filter_Some in Hin as [Hm [? ?]]. cbn in *. eauto 10.
    - intros (key & m & Hm & ? & ? & <-). exists (key, m). split; [done|].
      apply elem_of_map_to_list, map_lookup_filter_Some. by repeat split. }
  destruct (get_all_run FacilityListItem_objects MFacilityListItem pks w)
    as (rows & Hrun & Hfst & Hrows).
  { apply Forall_forall. intros k (key & m & Hm & _ & _ & <-)%Hpks. eauto. }
  exists rows. split; [done|]. intros k item. split.
  - intros Hin.
    assert (k ∈ pks) as (key & m & Hm & ? & ? & ?)%Hpks.
    { rewrite <- Hfst. apply list_elem_of_fmap. by exists (k, item). }
    exists key, m. repeat split; try done.
    rewrite Forall_forall in Hrows. by apply (Hrows (k, item)).
  - intros (key & m & Hm & ? & ? & Hk & Hi).
    assert (k ∈ rows.*1) as ([k' item'] & -> & Hin)%list_elem_of_fmap.
    { rewrite Hfst. apply Hpks. eauto 10. }
    rewrite Forall_forall in Hrows. specialize (Hrows _ Hin). cbn in *.
    by simplify_eq.
Qed.

(** The comprehension of [other_names] and [other_addresses]. *)
Lemma other_values_run column own (matches : list (Z * FacilityListItem.t))
    (acc : gset string) w :
  Forall (λ r, is_Some (FacilityList_objects (db w)
                          !! FacilityListItem.facility_list r.2)) matches →
  ∃ values,
    other_values column own matches acc w = (Ok values, w)
    ∧ ∀ x, x ∈ values
           ↔ x ∈ acc
             ∨ ∃ r l, r ∈ matches ∧ column r.2 = x ∧ x ≠ "" ∧ x ≠ own
                      ∧ FacilityList_objects (db w)
                          !! FacilityListItem.facility_list r.2 = Some l
                      ∧ FacilityList.is_active l = true
                      ∧ FacilityList.is_public l = true.
Proof.
  intros Hlists. revert acc.
  induction Hlists as [|r rest [l Hl] _ IH]; intros acc.
  - exists acc. split; [done|]. intros x. split; [by left|].
    intros [?|(r & l & Hin & _)]; [done|]. by apply elem_of_nil in Hin.
  - cbn [other_values]. unfold item_facility_list.
    cbv [mbind M_bind objects_get get_db mret M_ret]. cbn [fst snd].
    set (keep := bool_decide (String.length (column r.2) ≠ 0%nat)
                 && bool_decide (column r.2 ≠ own)
                 && (FacilityList.is_active l && FacilityList.is_public l)).
    assert (keep = true
            ↔ column r.2 ≠ "" ∧ column r.2 ≠ own
              ∧ FacilityList.is_active l = true
              ∧ FacilityList.is_public l = true) as Hkeep.
    { unfold keep. rewrite !andb_true_iff, !bool_decide_eq_true.
      rewrite string_length_nonzero. tauto. }
    destruct (IH (if keep then {[column r.2]} ∪ acc else acc))
      as (values & Hrun & Hvalues).
    exists values. split.
    { rewrite <- Hrun. unfold keep.
      destruct (bool_decide (String.length (column r.2) ≠ 0%nat));
        destruct (bool_decide (column r.2 ≠ own)); cbn [andb];
        try (rewrite Hl, decide_True by done); reflexivity. }
    intros x. rewrite Hvalues. split.
    + intros [Hacc|(r' & l' & Hin & ?)].
      * destruct keep eqn:Hk; [|by left].
        apply elem_of_union in Hacc as [->%elem_of_singleton|?]; [|by left].
        right. exists r, l. destruct Hkeep as [Hk1 _]. specialize (Hk1 eq_refl).
        split; [by left|]. tauto.
      * right. exists r', l'. split; [by right|done].
    + intros [Hacc|(r' & l' & [->|Hin]%elem_of_cons & Hx & Hne & Hown & Hl' & Ha & Hp)].
      * left. destruct keep; [|done]. apply elem_of_union. by right.
      * left. assert (l' = l) as -> by congruence.
        rewrite (proj2 Hkeep) by (rewrite Hx; tauto).
        apply elem_of_union. left. by apply elem_of_singleton.
      * right. exists r', l'. tauto.
Qed.

(** The comprehension of [contributors]. *)
Lemma contributors_of_run (matches : list (Z * FacilityListItem.t))
    (acc : gmap string Z) w :
  referential_integrity (db w) →
  Forall (λ r, is_Some (FacilityList_objects (db w)
                          !! FacilityListItem.facility_list r.2)) matches →
  ∃ entries,
    contributors_of matches acc w = (Ok entries, w)
    ∧ (∀ label, is_Some (entries !! label)
                ↔ is_Some (acc !! label)
                  ∨ ∃ r admin, r ∈ matches ∧ contributes (db w) r label admin)
    ∧ (∀ label admin, entries !! label = Some admin →
         acc !! label = Some admin
         ∨ ∃ r, r ∈ matches ∧ contributes (db w) r label admin).
Proof.
  intros [_ _ Hcontributor] Hlists. revert acc.
  induction Hlists as [|r rest [l Hl] _ IH]; intros acc.
  - exists acc. split; [done|]. split.
    + intros label. split; [by left|].
      intros [?|(r & a & Hin & _)]; [done|]. by apply elem_of_nil in Hin.
    + intros label admin ?. by left.
  - cbn [contributors_of]. unfold item_facility_list.
    cbv [mbind M_bind objects_get get_db mret M_ret]. rewrite Hl.
    rewrite decide_True by done. cbn [fst snd].
    destruct (FacilityList.is_active l && FacilityList.is_public l) eqn:Hflags.
    + apply andb_true_iff in Hflags as [Ha Hp].
      destruct (FacilityList.contributor l) as [c|] eqn:Hc.
      * destruct (Hcontributor _ _ _ Hl Hc) as [contributor Hrow].
        rewrite Hrow. rewrite decide_True by done. cbn [fst snd].
        set (label0 := Contributor.name contributor ++ " ("
                       ++ FacilityList.name l ++ ")").
        assert (contributes (db w) r label0 (Contributor.admin contributor))
          as Hr by (exists l, c, contributor; by repeat split).
        destruct (IH (<[label0 := Contributor.admin contributor]> acc))
          as (entries & Hrun & Hdom & Hval).
        exists entries. split; [done|]. split.
        -- intros label. rewrite Hdom, lookup_insert. split.
           ++ intros [Hacc|(r' & a & Hin & ?)].
              ** case_decide as Hd; [|by left]. subst label.
                 right. exists r, (Contributor.admin contributor).
                 split; [by left|done].
              ** right. exists r', a. split; [by right|done].
           ++ intros [Hacc|(r' & a & [->|Hin]%elem_of_cons & Hcon)].
              ** left. by case_decide.
              ** left. destruct Hcon as (l' & c' & contributor' & ? & _ & _ & ? & ? & -> & _).
                 assert (l' = l) as -> by congruence.
                 assert (c' = c) as -> by congruence.
                 assert (contributor' = contributor) as -> by congruence.
                 by rewrite decide_True.
              ** right. exists r', a. done.
        -- intros label admin Hentry. apply Hval in Hentry as [Hacc|(r' & Hin & ?)].
           ++ rewrite lookup_insert in Hacc. case_decide as Hd; [|by left].
              injection Hacc as <-. subst label. right. exists r.
              split; [by left|done].
           ++ right. exists r'. split; [by right|done].
      * destruct (IH acc) as (entries & Hrun & Hdom & Hval).
        exists entries. split; [done|]. split.
        -- intros label. rewrite Hdom. split.
           ++ intros [?|(r' & a & Hin & ?)]; [by left|].
              right. exists r', a. split; [by right|done].
           ++ intros [?|(r' & a & [->|Hin]%elem_of_cons & Hcon)]; [by left| |].
              ** destruct Hcon as (l' & c' & ? & ? & _ & _ & ? & _).
                 assert (l' = l) as -> by congruence. congruence.
              ** right. exists r', a. done.
        -- intros label admin Hentry. apply Hval in Hentry as [?|(r' & Hin & ?)];
             [by left|]. right. exists r'. split; [by right|done].
    + destruct (IH acc) as (entries & Hrun & Hdom & Hval).
      exists entries. split; [done|]. split.
      -- intros label. rewrite Hdom. split.
         ++ intros [?|(r' & a & Hin & ?)]; [by left|].
            right. exists r', a. split; [by right|done].
         ++ intros [?|(r' & a & [->|Hin]%elem_of_cons & Hcon)]; [by left| |].
            ** destruct Hcon as (l' & c' & ? & ? & Ha & Hp & _).
               assert (l' = l) as -> by congruence.
               rewrite Ha, Hp in Hflags. discriminate.
            ** right. exists r', a. done.
      -- intros label admin Hentry. apply Hval in Hentry as [?|(r' & Hin & ?)];
           [by left|]. right. exists r'. split; [by right|done].
Qed.

(** C9, amended. In a database whose references lead to existing rows,
    the three views return, leave everything as it is, and are made
    of the qualifying items of the facility only, the items of its
    automatic and confirmed matches whose list is active and public:
    [other_names] is the set of the names of these items that are not
    empty and not the name of the facility, [other_addresses] the
    same for addresses, and [contributors] has an entry under a label
    exactly when a qualifying item is of a list of a contributor with
    that label, made of the names of the contributor and of the list,
    the value of the entry being the administrator of such a
    contributor. Without qualifying items the three views are empty. *)
Theorem derived_views w self :
  referential_integrity (db w) →
  (∃ names,
     other_names self w = (Ok names, w)
     ∧ ∀ x, x ∈ names
            ↔ x ≠ "" ∧ x ≠ Facility.name self.2
              ∧ ∃ item l, qualifying (db w) self.1 item l
                          ∧ FacilityListItem.name item = x)
  ∧ (∃ addresses,
       other_addresses self w = (Ok addresses, w)
       ∧ ∀ x, x ∈ addresses
              ↔ x ≠ "" ∧ x ≠ Facility.address self.2
                ∧ ∃ item l, qualifying (db w) self.1 item l
                            ∧ FacilityListItem.address item = x)
  ∧ (∃ entries,
       contributors self w = (Ok entries, w)
       ∧ (∀ label, is_Some (entries !! label)
                   ↔ ∃ admin, labelled (db w) self.1 label admin)
       ∧ (∀ label admin, entries !! label = Some admin →
                         labelled (db w) self.1 label admin))
  ∧ ((∀ item l, ¬ qualifying (db w) self.1 item l) →
       other_names self w = (Ok ∅, w)
       ∧ other_addresses self w = (Ok ∅, w)
       ∧ contributors self w = (Ok ∅, w)).
Proof.
  intros Hfk.
  destruct (facility_list_item_matches_run self w Hfk) as (rows & Hrows & Hin).
  assert (Forall (λ r, is_Some (FacilityList_objects (db w)
                                  !! FacilityListItem.facility_list r.2)) rows)
    as Hlists.
  { apply Forall_forall. intros [k item] (key & m & _ & _ & _ & _ & Hi)%Hin.
    destruct Hfk as [_ Hil _]. by apply (Hil k). }
  assert (∀ item l,
            qualifying (db w) self.1 item l
            ↔ ∃ r, r ∈ rows ∧ r.2 = item
                   ∧ FacilityList_objects (db w)
                       !! FacilityListItem.facility_list r.2 = Some l
                   ∧ FacilityList.is_active l = true
                   ∧ FacilityList.is_public l = true) as Hq.
  { intros item l. unfold qualifying. split.
    - intros (key & m & Hm & ? & ? & Hi & ? & ? & ?).
      exists (FacilityMatch.facility_list_item m, item).
      split; [apply Hin; eauto 10|done].
    - intros ([k item'] & (key & m & Hm & ? & ? & <- & ?)%Hin & Heq & ? & ? & ?).
      cbn in Heq. subst item'. exists key, m. by repeat split. }
  assert (∀ column own,
            ∃ values, other_values column own rows ∅ w = (Ok values, w)
              ∧ ∀ x, x ∈ values
                     ↔ x ≠ "" ∧ x ≠ own
                       ∧ ∃ item l, qualifying (db w) self.1 item l
                                   ∧ column item = x) as Hvalues.
  { intros column own.
    destruct (other_values_run column own rows ∅ w Hlists) as (values & Hrun & Hv).
    exists values. split; [done|]. intros x. rewrite Hv. split.
    - intros [Hempty|(r & l & ? & ? & ? & ? & ? & ? & ?)];
        [by apply not_elem_of_empty in Hempty|].
      split; [done|]. split; [done|]. exists r.2, l. split; [|done].
      apply Hq. by exists r.
    - intros (? & ? & item & l & (r & ? & <- & ? & ? & ?)%Hq & ?).
      right. exists r, l. by repeat split. }
  destruct (contributors_of_run rows ∅ w Hfk Hlists) as (entries & Hrun & Hdom & Hval).
  assert (∀ label admin,
            (∃ r, r ∈ rows ∧ contributes (db w) r label admin)
            ↔ labelled (db w) self.1 label admin) as Hlab.
  { intros label admin. unfold labelled, contributes. split.
    - intros (r & ? & l & c & contributor & ? & ? & ? & ? & ? & ? & ?).
      exists r.2, l, c, contributor. split; [|done]. apply Hq. by exists r.
    - intros (item & l & c & contributor & (r & ? & <- & ? & ? & ?)%Hq & ? & ? & ? & ?).
      exists r. split; [done|]. exists l, c, contributor. by repeat split. }
  assert (other_names self w
          = other_values FacilityListItem.name (Facility.name self.2) rows ∅ w)
    as Hnames by (unfold other_names; cbv [mbind M_bind]; by rewrite Hrows).
  assert (other_addresses self w
          = other_values FacilityListItem.address (Facility.address self.2)
              rows ∅ w)
    as Haddresses by (unfold other_addresses; cbv [mbind M_bind]; by rewrite Hrows).
  assert (contributors self w = contributors_of rows ∅ w)
    as Hcontributors by (unfold contributors; cbv [mbind M_bind]; by rewrite Hrows).
  rewrite Hnames, Haddresses, Hcontributors.
  destruct (Hvalues FacilityListItem.name (Facility.name self.2))
    as (names & Hn & Hnames').
  destruct (Hvalues FacilityListItem.address (Facility.address self.2))
    as (addresses & Ha & Haddresses').
  rewrite Hn, Ha, Hrun.
  split; [by exists names|]. split; [by exists addresses|]. split.
  - exists entries. split; [done|]. split.
    + intros label. rewrite Hdom. split.
      * intros [[? Hempty]|(r & admin & ? & ?)];
          [by rewrite lookup_empty in Hempty|].
        exists admin. apply Hlab. by exists r.
      * intros (admin & (r & ? & ?)%Hlab). right. by exists r, admin.
    + intros label admin [Hempty|Hr]%Hval; [by rewrite lookup_empty in Hempty|].
      by apply Hlab.
  - intros Hnone.
    assert (names = ∅) as ->.
    { apply elem_of_equiv_empty_L. intros x (_ & _ & item & l & ? & _)%Hnames'.
      by apply (Hnone item l). }
    assert (addresses = ∅) as ->.
    { apply elem_of_equiv_empty_L. intros x (_ & _ & item & l & ? & _)%Haddresses'.
      by apply (Hnone item l). }
    assert (entries = ∅) as ->.
    { apply map_empty. intros label. apply eq_None_not_Some.
      intros [[? Hempty]|(r & admin & ? & ?)]%Hdom;
        [by rewrite lookup_empty in Hempty|].
      assert (labelled (db w) self.1 label admin) as (item & l & ? & ? & ? & _)
        by (apply Hlab; by exists r).
      by apply (Hnone item l). }
    done.
Qed.
End Views.

(** ** The views on the sample registry *)

Lemma sample_adjudicates list_item_id facility_match_id item facility_match :
  FacilityListItem_objects Sample.store !! list_item_id = Some item →
  FacilityListItem.facility_list item = 1 →
  FacilityMatch_objects Sample.store !! facility_match_id = Some facility_match →
  FacilityMatch.facility_list_item facility_match = list_item_id →
  adjudicates Sample.store (Sample.adjudication list_item_id facility_match_id) 1
    list_item_id facility_match_id item facility_match.
Proof.
  intros Hitem Hlist Hmatch Hof. split; try done.
  exists 1, (Sample.facility_list "A"). by repeat split.
Defined.

(** A statement on all rows of a table, from its check row by row. *)
Lemma by_rows `{Countable K} {A : Type} (P : K → A → Prop)
    `{!∀ k x, Decision (P k x)} (table : gmap K A) :
  bool_decide (map_Forall P table) = true →
  ∀ k x, table !! k = Some x → P k x.
Proof. intros Hall. by apply bool_decide_eq_true in Hall. Defined.

(** Item 1 and its match 1, confirmed. *)
Lemma confirm_match_effect_witness :
  adjudicates Sample.store (Sample.adjudication 1 1) 1 1 1 Sample.item1
    (Sample.facility_match 1 "US1" FacilityMatch.PENDING)
  ∧ ∃ response w',
      confirm_match (Sample.adjudication 1 1) 1 Sample.world = (Ok response, w')
      ∧ FacilityMatch_objects (db w') !! 1
        = Some (Sample.facility_match 1 "US1" FacilityMatch.CONFIRMED)
      ∧ FacilityListItem_objects (db w') !! 1
        = Some (Sample.item 1 0 FacilityListItem.CONFIRMED_MATCH "Alpha" "1 Road"
                  (Some Sample.point) (Some "US1")).
Proof.
  assert (adjudicates Sample.store (Sample.adjudication 1 1) 1 1 1 Sample.item1
            (Sample.facility_match 1 "US1" FacilityMatch.PENDING)) as Hadj
    by (apply sample_adjudicates; reflexivity).
  split; [exact Hadj|].
  destruct (confirm_match_effect Sample.world _ _ _ _ _ _ Hadj eq_refl eq_refl)
    as (response & w' & Hrun & Hmatch & _ & _ & Hitem).
  exists response, w'. split; [exact Hrun|]. split; [exact Hmatch|exact Hitem].
Defined.

(** Item 4 is matched already, and its match 5 is automatic. *)
Lemma adjudication_precondition_violated_witness :
  adjudicates Sample.store (Sample.adjudication 4 5) 1 4 5 Sample.item4
    (Sample.facility_match 4 "US1" FacilityMatch.AUTOMATIC)
  ∧ (∃ detail,
       confirm_match (Sample.adjudication 4 5) 1 Sample.world
       = (Raise (ValidationError detail), Sample.world))
  ∧ (∃ detail,
       reject_match (Sample.adjudication 4 5) 1 Sample.world
       = (Raise (ValidationError detail), Sample.world)).
Proof.
  assert (adjudicates Sample.store (Sample.adjudication 4 5) 1 4 5 Sample.item4
            (Sample.facility_match 4 "US1" FacilityMatch.AUTOMATIC)) as Hadj
    by (apply sample_adjudicates; reflexivity).
  split; [exact Hadj|].
  destruct (adjudication_precondition_violated Sample.world _ _ _ _ _ _ Hadj)
    as [(d1 & _ & H1) (d2 & _ & H2)].
  { left. discriminate. }
  split; [exists d1; exact H1|exists d2; exact H2].
Defined.

(** Match 1 of item 1 is rejected while its match 2 is pending. *)
Lemma reject_match_pending_remain_witness :
  other_match Sample.store 1 1 2 (Sample.facility_match 1 "US2" FacilityMatch.PENDING)
  ∧ ∃ response w',
      reject_match (Sample.adjudication 1 1) 1 Sample.world = (Ok response, w')
      ∧ FacilityMatch_objects (db w') !! 1
        = Some (Sample.facility_match 1 "US1" FacilityMatch.REJECTED)
      ∧ FacilityListItem_objects (db w') !! 1 = Some Sample.item1
      ∧ Facility_objects (db w') = Facility_objects Sample.store.
Proof.
  assert (other_match Sample.store 1 1 2
            (Sample.facility_match 1 "US2" FacilityMatch.PENDING)) as Hother
    by (repeat split; discriminate).
  split; [exact Hother|].
  destruct (reject_match_pending_remain Sample.world (Sample.adjudication 1 1) 1 1 1
              Sample.item1 (Sample.facility_match 1 "US1" FacilityMatch.PENDING))
    as (response & w' & Hrun & Hmatches & _ & _ & Hitem & Hfacilities & _).
  - apply sample_adjudicates; reflexivity.
  - reflexivity.
  - reflexivity.
  - exists 2, (Sample.facility_match 1 "US2" FacilityMatch.PENDING).
    split; [exact Hother|reflexivity].
  - exists response, w'. split; [exact Hrun|].
    split; [rewrite Hmatches; reflexivity|]. split; [exact Hitem|exact Hfacilities].
Defined.

(** Match 3, the only match of item 2, is rejected: the allocator finds
    [US1] taken, and [US3] free. *)
Lemma reject_match_creates_facility_witness :
  not_yet_seed 2 Sample.store
  ∧ (candidate 1 "US" (env Sample.world)).1 = "US3"
  ∧ ∃ response w' new_id new_pk,
      reject_match (Sample.adjudication 2 3) 1 Sample.world = (Ok response, w')
      ∧ Facility_objects (db w') !! new_id
        = Some (Sample.facility "Beta" "2 Road" 2)
      ∧ FacilityMatch_objects (db w') !! new_pk
        = Some {| FacilityMatch.facility_list_item := 2;
                  FacilityMatch.facility := new_id;
                  FacilityMatch.confidence := 100;
                  FacilityMatch.status := FacilityMatch.CONFIRMED;
                  FacilityMatch.results :=
                    JDict [("match_type",
                            JString "all_potential_matches_rejected")] |}
      ∧ FacilityListItem_objects (db w') !! 2
        = Some (Sample.item 1 1 FacilityListItem.CONFIRMED_MATCH "Beta" "2 Road"
                  (Some Sample.point) (Some new_id)).
Proof.
  assert (not_yet_seed 2 Sample.store) as Hseed.
  { refine (by_rows (λ _ f, Facility.created_from f ≠ 2)
              (Facility_objects Sample.store) _).
    vm_compute. reflexivity. }
  split; [exact Hseed|]. split; [reflexivity|].
  destruct (reject_match_creates_facility Sample.world (Sample.adjudication 2 3) 1 2 3
              Sample.item2 (Sample.facility_match 2 "US1" FacilityMatch.PENDING)
              Sample.point 1%nat)
    as (response & w' & new_id & new_pk & Hrun & _ & Hfacilities & _ & Hmatches & Hitems).
  - apply sample_adjudicates; reflexivity.
  - reflexivity.
  - reflexivity.
  - intros k m (Hk & Hitem & Hne).
    refine (by_rows (λ k m, FacilityMatch.facility_list_item m = 2 → k ≠ 3 →
                            FacilityMatch.status m ≠ FacilityMatch.PENDING)
              (FacilityMatch_objects Sample.store) _ k m Hk Hitem Hne).
    vm_compute. reflexivity.
  - reflexivity.
  - vm_compute. lia.
  - reflexivity.
  - exact Hseed.
  - exists response, w', new_id, new_pk. split; [exact Hrun|].
    rewrite Hfacilities, Hmatches, Hitems, !lookup_insert_eq. repeat split.
Defined.

(** Item 2 awaits adjudication with a geocoded point, and match 3 is
    its only pending match; facility [US9] was created from item 2
    before. The rejection of match 3 is refused by the database: no
    facility and no match is created, the item and the match stay as
    they were. *)
Lemma seeded_item_creates_nothing :
  FacilityListItem_objects (db Sample.seeded_world) !! 2 = Some Sample.item2
  ∧ FacilityListItem.status Sample.item2 = FacilityListItem.POTENTIAL_MATCH
  ∧ FacilityListItem.geocoded_point Sample.item2 = Some Sample.point
  ∧ FacilityMatch_objects (db Sample.seeded_world) !! 3
    = Some (Sample.facility_match 2 "US1" FacilityMatch.PENDING)
  ∧ (∀ k m, FacilityMatch_objects (db Sample.seeded_world) !! k = Some m →
            FacilityMatch.facility_list_item m = 2 →
            FacilityMatch.status m = FacilityMatch.PENDING → k = 3)
  ∧ (reject_match (Sample.adjudication 2 3) 1 Sample.seeded_world).1
    = Raise (IntegrityError "created_from")
  ∧ db (reject_match (Sample.adjudication 2 3) 1 Sample.seeded_world).2
    = db Sample.seeded_world.
Proof.
  split; [reflexivity|]. split; [reflexivity|]. split; [reflexivity|].
  split; [reflexivity|]. split.
  { intros k m Hk.
    refine (by_rows (λ k m, FacilityMatch.facility_list_item m = 2 →
                            FacilityMatch.status m = FacilityMatch.PENDING → k = 3)
              (FacilityMatch_objects Sample.store) _ k m Hk).
    vm_compute. reflexivity. }
  split; vm_compute; reflexivity.
Qed.

(** Match 4, the only match of item 3, which has no geocoded point, is
    rejected. *)
Lemma reject_match_without_location_witness :
  FacilityListItem.geocoded_point Sample.item3 = None
  ∧ ∃ response w' item',
      reject_match (Sample.adjudication 3 4) 1 Sample.world = (Ok response, w')
      ∧ FacilityListItem_objects (db w') !! 3 = Some item'
      ∧ FacilityListItem.status item' = FacilityListItem.ERROR_MATCHING
      ∧ length (FacilityListItem.processing_results item') = 1%nat
      ∧ FacilityListItem.facility item' = None
      ∧ Facility_objects (db w') = Facility_objects Sample.store
      ∧ dom (FacilityMatch_objects (db w')) = dom (FacilityMatch_objects Sample.store).
Proof.
  split; [reflexivity|].
  destruct (reject_match_without_location Sample.world (Sample.adjudication 3 4) 1 3 4
              Sample.item3 (Sample.facility_match 3 "US1" FacilityMatch.PENDING))
    as (response & w' & item' & entry & Hrun & Hitems & Hstatus & Hresults & _ & _
        & Hfacility & Hfacilities & _ & Hdom).
  - apply sample_adjudicates; reflexivity.
  - reflexivity.
  - reflexivity.
  - intros k m (Hk & Hitem & Hne).
    refine (by_rows (λ k m, FacilityMatch.facility_list_item m = 3 → k ≠ 4 →
                            FacilityMatch.status m ≠ FacilityMatch.PENDING)
              (FacilityMatch_objects Sample.store) _ k m Hk Hitem Hne).
    vm_compute. reflexivity.
  - left. reflexivity.
  - exists response, w', item'. split; [exact Hrun|].
    split; [rewrite Hitems; apply lookup_insert_eq|]. split; [exact Hstatus|].
    split; [rewrite Hresults; reflexivity|]. split; [rewrite Hfacility; reflexivity|].
    split; [exact Hfacilities|exact Hdom].
Defined.

(** The same call, read from its result. *)
Lemma reject_match_error_entry_witness :
  ∃ response w' item' entry,
    reject_match (Sample.adjudication 3 4) 1 Sample.world = (Ok response, w')
    ∧ FacilityListItem_objects (db w') !! 3 = Some item'
    ∧ FacilityListItem.status item' = FacilityListItem.ERROR_MATCHING
    ∧ FacilityListItem.processing_results item' = [entry]
    ∧ json_get "action" entry = Some (JString "confirm")
    ∧ json_get "started_at" entry = Some (JString "2019-05-01 12:00:00.0")
    ∧ json_get "finished_at" entry = Some (JString "2019-05-01 12:00:00.0").
Proof.
  destruct (reject_match (Sample.adjudication 3 4) 1 Sample.world)
    as [[response| |] w'] eqn:Hrun; [|vm_compute in Hrun; discriminate..].
  destruct (FacilityListItem_objects (db w') !! 3) as [item'|] eqn:Hitem;
    [|vm_compute in Hrun; injection Hrun as _ <-; vm_compute in Hitem; discriminate].
  assert (FacilityListItem.status item' = FacilityListItem.ERROR_MATCHING) as Hstatus.
  { vm_compute in Hrun. injection Hrun as _ <-. vm_compute in Hitem.
    injection Hitem as <-. reflexivity. }
  destruct (reject_match_error_entry Sample.world (Sample.adjudication 3 4) 1
              response w' 3 item' Hrun eq_refl Hitem Hstatus)
    as (item & entry & Hbefore & Hresults & Haction & Hstarted & Hfinished).
  exists response, w', item', entry. split; [reflexivity|]. split; [exact Hitem|].
  split; [exact Hstatus|].
  change (FacilityListItem_objects (db Sample.world) !! 3) with (Some Sample.item3)
    in Hbefore.
  injection Hbefore as <-.
  split; [exact Hresults|]. split; [exact Haction|].
  split; [exact Hstarted|exact Hfinished].
Defined.

(** Item 2, with a stray automatic match next to its pending match,
    has one positive match before and after the confirmation of the
    pending match; without the stray match it has none before and one
    after the rejection of its only match. *)
Lemma adjudication_invariant_preserved_witness :
  at_most_one_positive 2 (db Sample.stray_world)
  ∧ ¬ adjudication_invariant 2 (db Sample.stray_world)
  ∧ at_most_one_positive 2
      (db (confirm_match (Sample.adjudication 2 3) 1 Sample.stray_world).2)
  ∧ size (positive_matches 2
            (db (confirm_match (Sample.adjudication 2 3) 1 Sample.stray_world).2))
    = 1%nat
  ∧ adjudication_invariant 2 Sample.store
  ∧ at_most_one_positive 2
      (db (reject_match (Sample.adjudication 2 3) 1 Sample.world).2)
  ∧ size (positive_matches 2
            (db (reject_match (Sample.adjudication 2 3) 1 Sample.world).2))
    = 1%nat.
Proof.
  assert (at_most_one_positive 2 (db Sample.stray_world)) as Hone.
  { unfold at_most_one_positive. vm_compute. lia. }
  assert (adjudication_invariant 2 Sample.store) as Hinv.
  { split.
    - unfold at_most_one_positive. vm_compute. lia.
    - intros item _ _. vm_compute. reflexivity. }
  split; [exact Hone|]. split.
  { intros [_ Hnone]. specialize (Hnone Sample.item2 eq_refl eq_refl).
    vm_compute in Hnone. discriminate. }
  destruct (adjudication_invariant_preserved Sample.stray_world
              (Sample.adjudication 2 3) 1 2) as [Hconfirm _].
  destruct (adjudication_invariant_preserved Sample.world
              (Sample.adjudication 2 3) 1 2) as [_ Hreject].
  split; [exact (Hconfirm Hone)|]. split; [vm_compute; reflexivity|].
  split; [exact Hinv|]. split; [exact (proj1 (Hreject Hinv))|].
  vm_compute. reflexivity.
Defined.

(** C6, as stated, fails: item 2 of the registry with the stray match
    has one positive match, the automatic match 8; after the rejection
    of its pending match 3, which creates a facility and a confirmed
    match, it has two. *)
Lemma exclusivity_not_preserved_by_reject :
  at_most_one_positive 2 (db Sample.stray_world)
  ∧ ¬ at_most_one_positive 2
        (db (reject_match (Sample.adjudication 2 3) 1 Sample.stray_world).2).
Proof.
  unfold at_most_one_positive. split.
  - vm_compute. lia.
  - vm_compute. lia.
Qed.

(** Two facilities are saved one after the other; the tape gives [US1],
    which is taken, then [US3] and [US4]. And facility [US1] is saved
    again. *)
Lemma allocator_no_collision_witness :
  ∃ saved w' self' w'',
    save_all false [Sample.facility "Beta" "2 Road" 2;
                    Sample.facility "Gamma" "3 Road" 3] Sample.world
    = (Ok saved, w')
    ∧ saved.*1 = ["US3"; "US4"]
    ∧ NoDup saved.*1
    ∧ size (Facility_objects (db w')) = 4%nat
    ∧ Facility_save false Sample.us1 Sample.world = (Ok self', w'')
    ∧ self'.1 = "US1".
Proof.
  destruct (save_all false [Sample.facility "Beta" "2 Road" 2;
                            Sample.facility "Gamma" "3 Road" 3] Sample.world)
    as [[saved| |] w'] eqn:Hrun; [|vm_compute in Hrun; discriminate..].
  destruct (Facility_save false Sample.us1 Sample.world)
    as [[self'| |] w''] eqn:Hsave; [|vm_compute in Hsave; discriminate..].
  destruct (allocator_no_collision (Env := Sample.Env)) as [Hall Hkeep].
  destruct (Hall _ _ _ _ _ Hrun) as (_ & Hnodup & _ & _ & _ & Hsize).
  destruct (Hkeep false Sample.us1 Sample.world self' w'') as [Hid _];
    [discriminate|exact Hsave|].
  exists saved, w', self', w''. split; [reflexivity|].
  split; [vm_compute in Hrun; injection Hrun as <- _; reflexivity|].
  split; [exact Hnodup|]. split; [rewrite Hsize; reflexivity|].
  split; [reflexivity|exact Hid].
Defined.




Lemma sample_referential_integrity : referential_integrity Sample.store.
Proof.
  split.
  - refine (by_rows (λ _ m, is_Some (FacilityListItem_objects Sample.store
                                       !! FacilityMatch.facility_list_item m))
              (FacilityMatch_objects Sample.store) _).
    vm_compute. reflexivity.
  - refine (by_rows (λ _ i, is_Some (FacilityList_objects Sample.store
                                       !! FacilityListItem.facility_list i))
              (FacilityListItem_objects Sample.store) _).
    vm_compute. reflexivity.
  - intros k l c Hk Hc.
    pose proof (by_rows (λ _ l, FacilityList.contributor l = None
                                ∨ is_Some (FacilityList.contributor l
                                           ≫= λ c, Contributor_objects Sample.store !! c))
                  (FacilityList_objects Sample.store) eq_refl k l Hk) as [Hnone|Hsome].
    + rewrite Hc in Hnone. discriminate.
    + rewrite Hc in Hsome. exact Hsome.
Defined.

(** The views of facility [US1], to which items 4 and 5 are matched. *)
Lemma derived_views_witness :
  referential_integrity Sample.store
  ∧ (∃ names,
       other_names Sample.us1 Sample.world = (Ok names, Sample.world)
       ∧ ∀ x, x ∈ names
              ↔ x ≠ "" ∧ x ≠ "Acme"
                ∧ ∃ item l, qualifying Sample.store "US1" item l
                            ∧ FacilityListItem.name item = x)
  ∧ (∃ entries,
       contributors Sample.us1 Sample.world = (Ok entries, Sample.world)
       ∧ ∀ label admin, entries !! label = Some admin →
                        labelled Sample.store "US1" label admin).
Proof.
  split; [exact sample_referential_integrity|].
  destruct (derived_views Sample.world Sample.us1 sample_referential_integrity)
    as (Hnames & _ & (entries & Hrun & _ & Hentries) & _).
  split; [exact Hnames|]. exists entries. split; [exact Hrun|exact Hentries].
Defined.

(** C9, as stated, fails on [contributors]: items 4 and 5, matched to
    facility [US1], are of lists [A] and [B] of the one contributor
    [Org], and the view has two entries for that organization. *)
Lemma contributors_not_organizations :
  contributors Sample.us1 Sample.world
  = (Ok (<["Org (A)" := 10]> (<["Org (B)" := 10]> ∅)), Sample.world)
  ∧ size (<["Org (A)" := 10]> (<["Org (B)" := 10]> (∅ : gmap string Z))) = 2%nat
  ∧ contributing_organizations Sample.store "US1" = {[ 1 ]}
  ∧ size (contributing_organizations Sample.store "US1") = 1%nat.
Proof. repeat split; vm_compute; reflexivity. Qed.


(** ** More on the adjudication views *)

Section AdjudicationMore.
Context {Env : Type} `{!Capabilities Env}.
Implicit Types (w : @World Env) (request : Request.t).
Implicit Types (item : FacilityListItem.t) (facility_match : FacilityMatch.t).

Ltac run_step :=
  cbv [mbind M_bind mret M_ret get_db put_db raise out_of_fuel call_env
       required request_user_contributor objects_get item_response
       FacilityMatch_save FacilityListItem_save FacilityMatch_update_others
       FacilityMatch_objects_create];
  cbn [fst snd db env].

Lemma atomic_raise {A : Type} (body : M A) w e :
  body w = (Raise e, w) → transaction_atomic body w = (Raise e, w).
Proof. unfold transaction_atomic. intros ->. by destruct w. Qed.

(** No such list for the user, no such item in the list or no such
    match of the item: both views answer [NotFound]. *)
Lemma adjudication_view_not_found w request pk list_item_id facility_match_id c :
  Request.list_item_id request = Some list_item_id →
  Request.facility_match_id request = Some facility_match_id →
  Request.user_contributor request = Some c →
  (¬ ∃ item facility_match,
       adjudicates (db w) request pk list_item_id facility_match_id
         item facility_match) →
  confirm_match_view request pk w = (Raise NotFound, w)
  ∧ reject_match_view request pk w = (Raise NotFound, w).
Proof.
  intros Hi Hm Hc Hnot.
  unfold confirm_match_view, reject_match_view, try_except. run_step.
  rewrite Hi, Hm, Hc. run_step.
  destruct (FacilityList_objects (db w) !! pk) as [l|] eqn:Hl; [|done].
  run_step. case_decide as Hlc; [|done]. run_step.
  destruct (FacilityListItem_objects (db w) !! list_item_id) as [item|] eqn:Hit;
    [|done].
  run_step. case_decide as Hil; [|done]. run_step.
  destruct (FacilityMatch_objects (db w) !! facility_match_id)
    as [facility_match|] eqn:Hma; [|done].
  run_step. case_decide as Hmi; [|done].
  destruct Hnot. exists item, facility_match. split; eauto.
Qed.

(** X1. When the request names its item and its match and the user has
    a contributor, but the list is not a list of that contributor, or
    the item is not an item of the list, or the match is not a match of
    the item (or one of them does not exist), [confirm_match] and
    [reject_match] answer [NotFound] and leave everything as it is. *)
Theorem adjudication_not_found w request pk list_item_id facility_match_id c :
  Request.list_item_id request = Some list_item_id →
  Request.facility_match_id request = Some facility_match_id →
  Request.user_contributor request = Some c →
  (¬ ∃ item facility_match,
       adjudicates (db w) request pk list_item_id facility_match_id
         item facility_match) →
  confirm_match request pk w = (Raise NotFound, w)
  ∧ reject_match request pk w = (Raise NotFound, w).
Proof.
  intros Hi Hm Hc Hnot.
  destruct (adjudication_view_not_found w request pk _ _ _ Hi Hm Hc Hnot)
    as [Hconfirm Hreject].
  split; by apply atomic_raise.
Qed.

(** The rows of a request that a view has served, in the tables that
    the view leaves. *)
Lemma adjudicates_after (s s' : Store) request pk list_item_id facility_match_id
    item facility_match item' facility_match' :
  adjudicates s request pk list_item_id facility_match_id item facility_match →
  FacilityList_objects s' = FacilityList_objects s →
  FacilityListItem_objects s' !! list_item_id = Some item' →
  FacilityListItem.facility_list item' = FacilityListItem.facility_list item →
  FacilityMatch_objects s' !! facility_match_id = Some facility_match' →
  FacilityMatch.facility_list_item facility_match'
  = FacilityMatch.facility_list_item facility_match →
  adjudicates s' request pk list_item_id facility_match_id item' facility_match'.
Proof.
  intros [Hi Hm (c & l & Hc & Hl & Hlc) Hit Hil Hma Hmi] Hlists Hit' Hil' Hma' Hmi'.
  split; try done; try congruence.
  exists c, l. by rewrite Hlists.
Qed.

(** X2. When [confirm_match] returns, the item of the request has
    exactly one automatic or confirmed match, the match of the request,
    now confirmed, whatever the statuses of its other matches were. *)
Theorem confirm_match_one_positive w request pk response w' :
  confirm_match request pk w = (Ok response, w') →
  ∃ list_item_id facility_match_id facility_match,
    Request.list_item_id request = Some list_item_id
    ∧ Request.facility_match_id request = Some facility_match_id
    ∧ FacilityMatch_objects (db w) !! facility_match_id = Some facility_match
    ∧ positive_matches list_item_id (db w')
      = {[ facility_match_id :=
             FacilityMatch.set_status FacilityMatch.CONFIRMED facility_match ]}.
Proof.
  intros Hrun. unfold confirm_match in Hrun.
  apply transaction_atomic_inv in Hrun as [(a & [= <-] & Hrun)|[Hno _]];
    [|by destruct (Hno response)].
  destruct (confirm_match_view_inv _ _ _ _ _ Hrun)
    as (lid & mid & item & facility_match & Hadj & Hst & Hms).
  rewrite (confirm_match_view_ok _ _ _ _ _ _ _ Hadj Hst Hms) in Hrun.
  injection Hrun as _ <-. cbn [db].
  destruct Hadj as [Hi Hm _ _ _ Hma Hmi].
  exists lid, mid, facility_match. repeat split; try done.
  apply map_eq. intros k. unfold positive_matches.
  destruct (decide (k = mid)) as [->|Hne].
  - rewrite lookup_singleton_eq. apply map_lookup_filter_Some. cbn. split.
    + rewrite map_lookup_imap, lookup_insert_eq. cbn.
      by rewrite decide_False by tauto.
    + split; [done|by right].
  - rewrite lookup_singleton_ne by done. apply map_lookup_filter_None.
    right. intros m Hk [Hitem Hpos].
    assert (is_positive
              (after_confirm lid mid item facility_match (db w)) lid k m)
      as Hp by done.
    apply is_positive_after_confirm in Hp as [[? _]|[? _]]; done.
Qed.

(** X3. A call of [confirm_match] or of [reject_match] that has
    returned is not served twice: on the world it left, the same
    request is refused with a validation error by both views, and
    nothing is written. *)
Theorem adjudication_not_repeatable w request pk response w' :
  confirm_match request pk w = (Ok response, w')
  ∨ reject_match request pk w = (Ok response, w') →
  (∃ detail, confirm_match request pk w' = (Raise (ValidationError detail), w'))
  ∧ (∃ detail, reject_match request pk w' = (Raise (ValidationError detail), w')).
Proof.
  intros Hrun.
  assert (∃ list_item_id facility_match_id item' facility_match',
            adjudicates (db w') request pk list_item_id facility_match_id
              item' facility_match'
            ∧ FacilityMatch.status facility_match' ≠ FacilityMatch.PENDING)
    as (lid & mid & item' & facility_match' & Hadj' & Hstatus).
  { destruct Hrun as [Hrun|Hrun].
    - unfold confirm_match in Hrun.
      apply transaction_atomic_inv in Hrun as [(a & [= <-] & Hrun)|[Hno _]];
        [|by destruct (Hno response)].
      destruct (confirm_match_view_inv _ _ _ _ _ Hrun)
        as (lid & mid & item & facility_match & Hadj & Hst & Hms).
      rewrite (confirm_match_view_ok _ _ _ _ _ _ _ Hadj Hst Hms) in Hrun.
      injection Hrun as _ <-. cbn [db].
      eexists lid, mid, _, (FacilityMatch.set_status FacilityMatch.CONFIRMED
                              facility_match).
      split; [|discriminate].
      eapply (adjudicates_after (db w)); [exact Hadj|done| | | |done].
      + cbn. apply lookup_insert_eq.
      + done.
      + destruct Hadj as [_ _ _ _ _ _ Hmi]. cbn.
        rewrite map_lookup_imap, lookup_insert_eq. cbn.
        by rewrite decide_False by tauto.
    - unfold reject_match in Hrun.
      apply transaction_atomic_inv in Hrun as [(a & [= <-] & Hrun)|[Hno _]];
        [|by destruct (Hno response)].
      destruct (reject_match_view_inv _ _ _ _ _ Hrun)
        as (lid & mid & item & facility_match & Hadj & Hst & Hms).
      rewrite (reject_match_view_run _ _ _ _ _ _ _ Hadj Hst Hms) in Hrun.
      cbv zeta in Hrun.
      assert (FacilityListItem_objects (db w) !! lid = Some item) as Hit
        by (by destruct Hadj).
      assert (FacilityMatch_objects (db w) !! mid = Some facility_match) as Hma
        by (by destruct Hadj).
      case_decide.
      + destruct (FacilityListItem.geocoded_point item) as [location|].
        * destruct (new_oar_id _ _ _) as [[new_id|e|] w1]; try discriminate.
          case_decide; [|discriminate]. injection Hrun as _ <-. cbn [db].
          eexists lid, mid, _, (FacilityMatch.set_status FacilityMatch.REJECTED
                                  facility_match).
          split; [|discriminate].
          eapply (adjudicates_after (db w)); [exact Hadj|done| | | |done].
          -- cbn. apply lookup_insert_eq.
          -- done.
          -- cbn. rewrite lookup_insert_ne, lookup_insert_eq; [done|].
             pose proof (next_pk_fresh
                           (<[mid := FacilityMatch.set_status FacilityMatch.REJECTED
                                       facility_match]>
                              (FacilityMatch_objects (db w)))) as Hfresh.
             intros Heq. rewrite Heq, lookup_insert_eq in Hfresh. discriminate.
        * injection Hrun as _ <-. cbn [db].
          eexists lid, mid, _, (FacilityMatch.set_status FacilityMatch.REJECTED
                                  facility_match).
          split; [|discriminate].
          eapply (adjudicates_after (db w)); [exact Hadj|done| | | |done].
          -- cbn. apply lookup_insert_eq.
          -- done.
          -- cbn. apply lookup_insert_eq.
      + injection Hrun as _ <-. cbn [db].
        exists lid, mid, item, (FacilityMatch.set_status FacilityMatch.REJECTED
                                  facility_match).
        split; [|discriminate].
        eapply (adjudicates_after (db w)); [exact Hadj|done|exact Hit|done| |done].
        cbn. apply lookup_insert_eq. }
  split.
  - destruct (confirm_match_view_invalid w' request pk _ _ _ _ Hadj')
      as [detail Hraise]; [by right|].
    exists detail. by apply atomic_raise.
  - destruct (reject_match_view_invalid w' request pk _ _ _ _ Hadj')
      as [detail Hraise]; [by right|].
    exists detail. by apply atomic_raise.
Qed.

(** X4. When the last pending match of an item with a geocoded point is
    rejected and a facility was created from that item before, the
    insertion of the new facility is refused by the database: the body
    of [reject_match] stops with an integrity error after it has
    written the rejection of the match, and the transaction takes that
    write back, so that the call leaves the database as it was, the
    match pending. *)
Theorem reject_match_seed_conflict w request pk list_item_id facility_match_id
    item facility_match location n :
  adjudicates (db w) request pk list_item_id facility_match_id item facility_match →
  FacilityListItem.status item = FacilityListItem.POTENTIAL_MATCH →
  FacilityMatch.status facility_match = FacilityMatch.PENDING →
  (∀ k m, other_match (db w) list_item_id facility_match_id k m →
          FacilityMatch.status m ≠ FacilityMatch.PENDING) →
  FacilityListItem.geocoded_point item = Some location →
  (n < fuel)%nat →
  Facility_objects (db w)
    !! (candidate n (FacilityListItem.country_code item) (env w)).1 = None →
  ¬ not_yet_seed list_item_id (db w) →
  ∃ w1 w2,
    reject_match_view request pk w = (Raise (IntegrityError "created_from"), w1)
    ∧ FacilityMatch_objects (db w1) !! facility_match_id
      = Some (FacilityMatch.set_status FacilityMatch.REJECTED facility_match)
    ∧ reject_match request pk w = (Raise (IntegrityError "created_from"), w2)
    ∧ db w2 = db w
    ∧ FacilityMatch_objects (db w2) !! facility_match_id = Some facility_match.
Proof.
  intros Hadj Hst Hms Hlast Hpoint Hn Hfree Hseed.
  pose proof (reject_match_view_run _ _ _ _ _ _ _ Hadj Hst Hms) as Hrun.
  cbv zeta in Hrun.
  rewrite decide_True in Hrun by (by apply remaining_zero_iff).
  rewrite Hpoint in Hrun.
  destruct (new_oar_id_finds fuel (FacilityListItem.country_code item)
              {| db := after_reject facility_match_id facility_match (db w);
                 env := env w |} n Hn Hfree) as (i & Hi & Hfound).
  rewrite Hfound, decide_False in Hrun by done.
  eexists _, _. split; [exact Hrun|]. split; [cbn; apply lookup_insert_eq|].
  split; [unfold reject_match, transaction_atomic; rewrite Hrun; reflexivity|].
  split; [done|]. by destruct Hadj.
Qed.

(** The distinct statuses of the items of a list. *)
Lemma list_statuses_of_spec (s : Store) pk :
  NoDup (list_statuses_of pk s)
  ∧ ∀ st, st ∈ list_statuses_of pk s
          ↔ ∃ k item, FacilityListItem_objects s !! k = Some item
                      ∧ FacilityListItem.facility_list item = pk
                      ∧ FacilityListItem.status item = st.
Proof.
  unfold list_statuses_of. split; [apply NoDup_remove_dups|].
  intros st. rewrite elem_of_remove_dups, list_elem_of_fmap. split.
  - intros ([k item] & -> & Hin). apply elem_of_map_to_list in Hin.
    apply map_lookup_filter_Some in Hin as [Hk Hlist]. by exists k, item.
  - intros (k & item & Hk & Hlist & <-). exists (k, item). split; [done|].
    by apply elem_of_map_to_list, map_lookup_filter_Some.
Qed.

(** X5. The answer of [confirm_match] and of [reject_match] shows the
    item as the database has it after the call, and the statuses of the
    items of the list as they are then: each status that an item of the
    list has, once, and no other; the status of the item of the answer
    is among them. *)
Theorem adjudication_response w request pk response w' :
  confirm_match request pk w = (Ok response, w')
  ∨ reject_match request pk w = (Ok response, w') →
  FacilityListItem_objects (db w') !! (response_item response).1
  = Some (response_item response).2
  ∧ Request.list_item_id request = Some (response_item response).1
  ∧ NoDup (list_statuses response)
  ∧ (∀ st, st ∈ list_statuses response
           ↔ ∃ k item, FacilityListItem_objects (db w') !! k = Some item
                       ∧ FacilityListItem.facility_list item = pk
                       ∧ FacilityListItem.status item = st)
  ∧ FacilityListItem.status (response_item response).2 ∈ list_statuses response.
Proof.
  intros Hrun.
  assert (FacilityListItem_objects (db w') !! (response_item response).1
          = Some (response_item response).2
          ∧ Request.list_item_id request = Some (response_item response).1
          ∧ FacilityListItem.facility_list (response_item response).2 = pk
          ∧ list_statuses response = list_statuses_of pk (db w'))
    as (Hitem & Hid & Hlist & ->).
  { destruct Hrun as [Hrun|Hrun].
    - unfold confirm_match in Hrun.
      apply transaction_atomic_inv in Hrun as [(a & [= <-] & Hrun)|[Hno _]];
        [|by destruct (Hno response)].
      destruct (confirm_match_view_inv _ _ _ _ _ Hrun)
        as (lid & mid & item & facility_match & Hadj & Hst & Hms).
      rewrite (confirm_match_view_ok _ _ _ _ _ _ _ Hadj Hst Hms) in Hrun.
      injection Hrun as <- <-. cbn. destruct Hadj.
      split; [apply lookup_insert_eq|done].
    - unfold reject_match in Hrun.
      apply transaction_atomic_inv in Hrun as [(a & [= <-] & Hrun)|[Hno _]];
        [|by destruct (Hno response)].
      destruct (reject_match_view_inv _ _ _ _ _ Hrun)
        as (lid & mid & item & facility_match & Hadj & Hst & Hms).
      rewrite (reject_match_view_run _ _ _ _ _ _ _ Hadj Hst Hms) in Hrun.
      cbv zeta in Hrun. destruct Hadj.
      case_decide.
      + destruct (FacilityListItem.geocoded_point item) as [location|].
        * destruct (new_oar_id _ _ _) as [[new_id|e|] w1]; try discriminate.
          case_decide; [|discriminate]. injection Hrun as <- <-. cbn.
          split; [apply lookup_insert_eq|done].
        * injection Hrun as <- <-. cbn. split; [apply lookup_insert_eq|done].
      + injection Hrun as <- <-. cbn. done. }
  destruct (list_statuses_of_spec (db w') pk) as [Hnodup Hspec].
  split; [done|]. split; [done|]. split; [done|]. split; [done|].
  apply Hspec. eauto.
Qed.
End AdjudicationMore.

(** ** More on the allocator *)

Section AllocatorMore.
Context {Env : Type} `{!Capabilities Env}.
Implicit Types (w : @World Env).

Lemma new_oar_id_step rounds country_code w :
  new_oar_id (S rounds) country_code w
  = if decide (is_Some (Facility_objects (db w)
                          !! (make_oar_id country_code (env w)).1))
    then new_oar_id rounds country_code
           {| db := db w; env := (make_oar_id country_code (env w)).2 |}
    else (Ok (make_oar_id country_code (env w)).1,
          {| db := db w; env := (make_oar_id country_code (env w)).2 |}).
Proof.
  cbn [new_oar_id]. cbv [mbind M_bind call_env get_db mret M_ret].
  destruct (make_oar_id country_code (env w)) as [c e']. cbn [db env fst snd].
  by case_decide.
Qed.

(** X6. The loop of [Facility.save] draws OAR IDs until one is the key
    of no facility: when the first [n] candidates are taken and the
    next one is free, it returns that one after [n+1] draws, given
    more than [n] rounds, and has not returned within [n] rounds or
    fewer; it writes nothing. While every candidate is taken, it
    returns within no number of rounds. *)
Theorem new_oar_id_first_free country_code w :
  (∀ n rounds,
     (∀ j, (j < n)%nat →
           is_Some (Facility_objects (db w)
                      !! (candidate j country_code (env w)).1)) →
     Facility_objects (db w) !! (candidate n country_code (env w)).1 = None →
     ((n < rounds)%nat →
        new_oar_id rounds country_code w
        = (Ok (candidate n country_code (env w)).1,
           {| db := db w; env := (candidate n country_code (env w)).2 |}))
     ∧ ((rounds ≤ n)%nat →
          (new_oar_id rounds country_code w).1 = OutOfFuel
          ∧ db (new_oar_id rounds country_code w).2 = db w))
  ∧ ((∀ j, is_Some (Facility_objects (db w)
                      !! (candidate j country_code (env w)).1)) →
       ∀ rounds, (new_oar_id rounds country_code w).1 = OutOfFuel).
Proof.
  split.
  - intros n rounds. revert w n.
    induction rounds as [|rounds IH]; intros w n Htaken Hfree.
    + split; [lia|]. done.
    + rewrite new_oar_id_step. destruct n as [|n].
      * cbn [candidate] in Hfree.
        rewrite decide_False by (rewrite Hfree; by intros [? ?]).
        split; [done|lia].
      * pose proof (Htaken 0%nat ltac:(lia)) as H0. cbn [candidate] in H0.
        rewrite decide_True by done.
        destruct (IH {| db := db w;
                        env := (make_oar_id country_code (env w)).2 |} n)
          as [Hfound Hout].
        -- intros j Hj. apply (Htaken (S j)). lia.
        -- exact Hfree.
        -- split; intros Hn.
           ++ rewrite Hfound by lia. done.
           ++ apply Hout. lia.
  - intros Htaken rounds. revert w Htaken.
    induction rounds as [|rounds IH]; intros w Htaken; [done|].
    rewrite new_oar_id_step.
    pose proof (Htaken 0%nat) as H0. cbn [candidate] in H0.
    rewrite decide_True by done. apply IH.
    intros j. apply (Htaken (S j)).
Qed.
End AllocatorMore.


(** ** More on the upload of a list *)

Section UploadMore.
Context {Env : Type} `{!Capabilities Env}.
Implicit Types (w : @World Env) (request : Request.t).

Ltac run_step :=
  cbv [mbind M_bind mret M_ret get_db put_db raise call_env required
       request_user_contributor try_except read_header _validate_header
       FacilityList_save FacilityListItem_save];
  cbn [fst snd db env].

(** The keys that [bulk_create] gives: new, above the keys in use, and
    in the order of the items. *)
Lemma bulk_created_spec (items : list FacilityListItem.t)
    (table : gmap Z FacilityListItem.t) :
  ∃ keys,
    length keys = length items
    ∧ StronglySorted Z.lt keys
    ∧ Forall (λ k, ∀ k0, is_Some (table !! k0) → k0 < k) keys
    ∧ (∀ j item, items !! j = Some item →
         ∃ k, keys !! j = Some k ∧ bulk_created items table !! k = Some item)
    ∧ (∀ k item, table !! k = Some item → bulk_created items table !! k = Some item)
    ∧ (∀ k item, bulk_created items table !! k = Some item →
         table !! k = Some item
         ∨ ∃ j, keys !! j = Some k ∧ items !! j = Some item).
Proof.
  revert table. induction items as [|item rest IH]; intros table.
  - exists []. cbn. repeat split; try done; try (by constructor).
  - destruct (IH (<[next_pk table := item]> table))
      as (keys & Hlen & Hsorted & Habove & Hnew & Hold & Hall).
    assert (∀ k0, is_Some (table !! k0) → k0 < next_pk table) as Hnext.
    { intros k0 Hk0. pose proof (keys_below_fold table k0 Hk0).
      unfold next_pk. lia. }
    exists (next_pk table :: keys). cbn [bulk_created foldl length].
    fold (bulk_created rest (<[next_pk table := item]> table)).
    split; [by rewrite Hlen|]. split.
    { constructor; [done|]. eapply Forall_impl; [exact Habove|].
      intros k Hk. apply Hk. rewrite lookup_insert_eq. eauto. }
    split.
    { constructor; [done|]. eapply Forall_impl; [exact Habove|].
      intros k Hk k0 Hk0. apply Hk.
      destruct (decide (next_pk table = k0)) as [->|Hne].
      - rewrite lookup_insert_eq. eauto.
      - by rewrite lookup_insert_ne. }
    split.
    { intros [|j] it Hj.
      - injection Hj as ->. exists (next_pk table). split; [done|].
        apply Hold, lookup_insert_eq.
      - destruct (Hnew j it Hj) as (k & Hk & Hit). by exists k. }
    split.
    { intros k it Hk. apply Hold. rewrite lookup_insert_ne; [done|].
      by apply next_pk_ne in Hk. }
    intros k it Hk. apply Hall in Hk as [Hk|(j & Hj & Hit)].
    + rewrite lookup_insert in Hk. case_decide as Heq.
      * injection Hk as <-. right. exists 0%nat. by subst k.
      * by left.
    + right. by exists (S j).
Qed.

(** X7. An upload that is served has made the first line of the file
    the header of the new list and every further line, in order, an
    item of the new list: the line at position [j] after the header is
    the raw data of an item with row index [j], counted from 0, in
    status [UPLOADED], with no name, address, point or facility yet.
    The items are stored under new keys, increasing in the order of the
    lines, next to the items there were, which are as before. *)
Theorem create_items w request r w' :
  create request w = (Ok r, w') →
  ∃ csv_file header raws keys,
    Request.file request = Some csv_file
    ∧ file_lines csv_file = Some header :: (Some <$> raws)
    ∧ FacilityList.header r.2 = header
    ∧ length keys = length raws
    ∧ StronglySorted Z.lt keys
    ∧ Forall (λ k, FacilityListItem_objects (db w) !! k = None) keys
    ∧ (∀ j raw, raws !! j = Some raw →
         ∃ k, keys !! j = Some k
              ∧ FacilityListItem_objects (db w') !! k
                = Some (FacilityListItem.new (Z.of_nat j) r.1 raw))
    ∧ (∀ k item, FacilityListItem_objects (db w') !! k = Some item →
         FacilityListItem_objects (db w) !! k = Some item ∨ k ∈ keys)
    ∧ (∀ k item, FacilityListItem_objects (db w) !! k = Some item →
         FacilityListItem_objects (db w') !! k = Some item).
Proof.
  intros Hrun%create_inv.
  destruct (create_view_inv _ _ _ _ Hrun)
    as (csv_file & header & raws & contributor & old & Hacc & _ & -> & Hdb & _).
  destruct Hacc as [Hfile _ _ Hlines _ _ _ _ _].
  destruct (bulk_created_spec
              (rows_as_items (next_pk (FacilityList_objects (db w))) raws)
              (FacilityListItem_objects (db w)))
    as (keys & Hlen & Hsorted & Habove & Hnew & Hold & Hall).
  exists csv_file, header, raws, keys. rewrite Hdb. cbn.
  split; [done|]. split; [done|]. split; [done|].
  split; [by rewrite Hlen; unfold rows_as_items; rewrite length_imap|].
  split; [done|]. split.
  { eapply Forall_impl; [exact Habove|]. intros k Hk.
    destruct (FacilityListItem_objects (db w) !! k) as [it|] eqn:Hit; [|done].
    specialize (Hk k ltac:(eauto)). lia. }
  split.
  { intros j raw Hj. apply (Hnew j). unfold rows_as_items.
    rewrite list_lookup_imap, Hj. done. }
  split; [|done].
  intros k it Hk. apply Hall in Hk as [?|(j & Hj & _)]; [by left|right].
  by apply list_elem_of_lookup_2 in Hj.
Qed.

(** X8. An upload that passes the checks on its file, header and user
    and names, as the list it replaces, a list that does not exist or
    is not a list of the contributor of the user, is refused with a
    validation error that names the identifier; so is an upload whose
    [replaces] is not an integer. Nothing is written. *)
Theorem create_replaces_invalid w request csv_file header rows contributor :
  acceptable_upload request csv_file header rows contributor →
  (∀ l, Request.replaces request = Some (Some l) →
        (∀ row, FacilityList_objects (db w) !! l = Some row →
                FacilityList.contributor row ≠ Some contributor) →
        create request w
        = (Raise (ValidationError (pretty l ++ " is not a valid FacilityList ID.")),
           w))
  ∧ (Request.replaces request = Some None →
       create request w
       = (Raise (ValidationError
                   (dquote ++ "replaces" ++ dquote ++ " must be an integer ID.")),
          w)).
Proof.
  intros [Hfile Hmem Hsize Hlines Hheader Hcountry Hname Haddress Hcontrib].
  assert (∀ e, create_view request w = (Raise e, w) →
               create request w = (Raise e, w)) as Hatomic.
  { intros e He. unfold create, transaction_atomic. rewrite He. by destruct w. }
  split.
  - intros l Hreplaces Hforeign. apply Hatomic.
    unfold create_view. run_step. rewrite Hfile. run_step.
    rewrite Hmem. cbn [negb]. rewrite decide_False by lia.
    rewrite Hlines. rewrite decide_False by done.
    rewrite decide_False by tauto. rewrite Hcontrib, Hreplaces. run_step.
    destruct (FacilityList_objects (db w) !! l) as [row|] eqn:Hrow; [|done].
    rewrite decide_False; [done|]. by apply Hforeign.
  - intros Hreplaces. apply Hatomic.
    unfold create_view. run_step. rewrite Hfile. run_step.
    rewrite Hmem. cbn [negb]. rewrite decide_False by lia.
    rewrite Hlines. rewrite decide_False by done.
    rewrite decide_False by tauto. rewrite Hcontrib, Hreplaces. done.
Qed.

(** X9. An upload that is served writes lists and items only: the
    contributors, the facilities and the matches are as before. The
    new list is stored under a key that was free, is of the contributor
    of the user, active and public, and replaces the list that the
    request names, if any. The replaced list changes in [is_active]
    only, and every other list is as before; without [replaces] no
    list changes. *)
Theorem create_frame w request r w' :
  create request w = (Ok r, w') →
  Contributor_objects (db w') = Contributor_objects (db w)
  ∧ Facility_objects (db w') = Facility_objects (db w)
  ∧ FacilityMatch_objects (db w') = FacilityMatch_objects (db w)
  ∧ FacilityList_objects (db w) !! r.1 = None
  ∧ FacilityList_objects (db w') !! r.1 = Some r.2
  ∧ FacilityList.contributor r.2 = Request.user_contributor request
  ∧ FacilityList.is_active r.2 = true
  ∧ FacilityList.is_public r.2 = true
  ∧ FacilityList.replaces r.2 = default None (Request.replaces request)
  ∧ (∀ l row, FacilityList.replaces r.2 = Some l →
              FacilityList_objects (db w) !! l = Some row →
              FacilityList_objects (db w') !! l
              = Some (FacilityList.set_is_active false row))
  ∧ (∀ k, k ≠ r.1 → FacilityList.replaces r.2 ≠ Some k →
          FacilityList_objects (db w') !! k = FacilityList_objects (db w) !! k).
Proof.
  intros Hrun%create_inv.
  destruct (create_view_inv _ _ _ _ Hrun)
    as (csv_file & header & raws & contributor & old & Hacc & Hold & -> & Hdb & _).
  destruct Hacc as [_ _ _ _ _ _ _ _ Hcontrib].
  rewrite Hdb. cbn.
  pose proof (next_pk_fresh (FacilityList_objects (db w))) as Hfresh.
  split; [done|]. split; [done|]. split; [done|]. split; [done|].
  destruct (Request.replaces request) as [[l|]|] eqn:Hreplaces; [|done|].
  - destruct Hold as (row & -> & Hrow & Hown & Hcount). cbn.
    assert (next_pk (FacilityList_objects (db w)) ≠ l) as Hne
      by (by apply next_pk_ne in Hrow).
    split; [by rewrite lookup_insert_ne, lookup_insert_eq|].
    split; [done|]. split; [done|]. split; [done|]. split; [done|].
    split.
    + intros l' row' [= <-] Hrow'. rewrite lookup_insert_eq. congruence.
    + intros k Hk Hl. rewrite !lookup_insert_ne; [done|congruence|congruence].
  - subst old. cbn.
    split; [by rewrite lookup_insert_eq|].
    split; [done|]. split; [done|]. split; [done|]. split; [done|].
    split; [done|]. intros k Hk _. by rewrite lookup_insert_ne.
Qed.
End UploadMore.

(** ** References between the tables *)

Section ForeignKeys.
Context {Env : Type} `{!Capabilities Env}.
Implicit Types (w : @World Env) (request : Request.t) (s : Store).

(** The references stay valid from [s] to [s'] when the rows of [s]
    remain, with the references they had or with references to rows of
    [s'], and the new rows refer to rows of [s']. *)
Lemma foreign_keys_step s s' :
  Contributor_objects s' = Contributor_objects s →
  (∀ k, is_Some (FacilityList_objects s !! k) →
        is_Some (FacilityList_objects s' !! k)) →
  (∀ k, is_Some (FacilityListItem_objects s !! k) →
        is_Some (FacilityListItem_objects s' !! k)) →
  (∀ k, is_Some (Facility_objects s !! k) → is_Some (Facility_objects s' !! k)) →
  (∀ k l', FacilityList_objects s' !! k = Some l' →
     (∃ l, FacilityList_objects s !! k = Some l
           ∧ FacilityList.contributor l' = FacilityList.contributor l
           ∧ FacilityList.replaces l' = FacilityList.replaces l)
     ∨ ((∀ c, FacilityList.contributor l' = Some c →
              is_Some (Contributor_objects s !! c))
        ∧ (∀ r, FacilityList.replaces l' = Some r →
                is_Some (FacilityList_objects s !! r)))) →
  (∀ k i', FacilityListItem_objects s' !! k = Some i' →
     (is_Some (FacilityList_objects s' !! FacilityListItem.facility_list i')
      ∧ ∀ f, FacilityListItem.facility i' = Some f →
             is_Some (Facility_objects s' !! f))
     ∨ FacilityListItem_objects s !! k = Some i') →
  (∀ id f, Facility_objects s' !! id = Some f →
     Facility_objects s !! id = Some f
     ∨ is_Some (FacilityListItem_objects s !! Facility.created_from f)) →
  (∀ k m', FacilityMatch_objects s' !! k = Some m' →
     (∃ m, FacilityMatch_objects s !! k = Some m
           ∧ FacilityMatch.facility_list_item m' = FacilityMatch.facility_list_item m
           ∧ FacilityMatch.facility m' = FacilityMatch.facility m)
     ∨ (is_Some (FacilityListItem_objects s
                   !! FacilityMatch.facility_list_item m')
        ∧ is_Some (Facility_objects s' !! FacilityMatch.facility m'))) →
  foreign_keys_valid s → foreign_keys_valid s'.
Proof.
  intros Hc Hlk Hik Hfk Hl Hi Hf Hm [[Hmi Hil Hlc] Hmf Hif Hfs Hlr].
  split; [split|..].
  - intros k m' [(m & Hk & -> & _)|[? _]]%Hm; eauto.
  - intros k i' [[? _]|Hk]%Hi; eauto.
  - intros k l' c [(l & Hk & -> & _)|[Hnew _]]%Hl Hcl; rewrite Hc; eauto.
  - intros k m' [(m & Hk & _ & ->)|[_ ?]]%Hm; eauto.
  - intros k i' f [[_ Hnew]|Hk]%Hi Hfi; eauto.
  - intros id f [Hk|?]%Hf; eauto.
  - intros k l' r [(l & Hk & _ & ->)|[_ Hnew]]%Hl Hr; eauto.
Qed.

Lemma foreign_keys_after_reject s facility_match_id facility_match :
  FacilityMatch_objects s !! facility_match_id = Some facility_match →
  foreign_keys_valid s →
  foreign_keys_valid (after_reject facility_match_id facility_match s).
Proof.
  intros Hma. apply foreign_keys_step; cbn; try done; eauto.
  intros k m'. rewrite lookup_insert. case_decide as Hk.
  - subst k. intros [= <-]. left. by exists facility_match.
  - intros Hm. left. by exists m'.
Qed.

Lemma foreign_keys_confirm_match w request pk :
  foreign_keys_valid (db w) →
  foreign_keys_valid (db (confirm_match request pk w).2).
Proof.
  intros Hfk.
  destruct (confirm_match request pk w) as [r w'] eqn:Hrun. cbn [snd].
  unfold confirm_match in Hrun.
  apply transaction_atomic_inv in Hrun as [(a & -> & Hrun)|[_ ->]]; [|done].
  destruct (confirm_match_view_inv _ _ _ _ _ Hrun)
    as (lid & mid & item & facility_match & Hadj & Hst & Hms).
  rewrite (confirm_match_view_ok _ _ _ _ _ _ _ Hadj Hst Hms) in Hrun.
  injection Hrun as _ <-. cbn [db].
  destruct Hadj as [_ _ _ Hit _ Hma _].
  apply (foreign_keys_step (db w)); [..|exact Hfk]; cbn; try done; eauto.
  + intros k Hk. rewrite lookup_insert. by case_decide.
  + intros k i'. rewrite lookup_insert. case_decide as Hk; [|by right].
    subst k. intros [= <-]. left. cbn. split.
    * destruct Hfk as [[_ Hil _] _ _ _ _]. by apply (Hil lid).
    * intros f [= <-]. destruct Hfk as [_ Hmf _ _ _]. by apply (Hmf mid).
  + intros k m'. rewrite map_lookup_imap, lookup_insert.
    case_decide as Hk; cbn.
    * subst k. case_decide; intros [= <-]; left;
        by exists facility_match.
    * destruct (FacilityMatch_objects (db w) !! k) as [m|] eqn:Hm; [|done].
      cbn. case_decide; intros [= <-]; left; by exists m.
Qed.

Lemma foreign_keys_reject_match w request pk :
  foreign_keys_valid (db w) →
  foreign_keys_valid (db (reject_match request pk w).2).
Proof.
  intros Hfk.
  destruct (reject_match request pk w) as [r w'] eqn:Hrun. cbn [snd].
  unfold reject_match in Hrun.
  apply transaction_atomic_inv in Hrun as [(a & -> & Hrun)|[_ ->]]; [|done].
  destruct (reject_match_view_inv _ _ _ _ _ Hrun)
    as (lid & mid & item & facility_match & Hadj & Hst & Hms).
  rewrite (reject_match_view_run _ _ _ _ _ _ _ Hadj Hst Hms) in Hrun.
  cbv zeta in Hrun. destruct Hadj as [_ _ _ Hit _ Hma _].
  pose proof (foreign_keys_after_reject _ mid facility_match Hma Hfk) as Hfk1.
  case_decide.
  + destruct (FacilityListItem.geocoded_point item) as [location|].
    * destruct (new_oar_id _ _ _) as [[new_id|e|] w1]; try discriminate.
      case_decide; [|discriminate]. injection Hrun as _ <-. cbn [db].
      unfold after_reject_create. cbv zeta.
      apply (foreign_keys_step (after_reject mid facility_match (db w)));
        [..|exact Hfk1]; cbn; try done; eauto.
      -- intros k Hk. rewrite lookup_insert. by case_decide.
      -- intros k Hk. rewrite lookup_insert. by case_decide.
      -- intros k i'. rewrite lookup_insert. case_decide as Hk; [|by right].
         subst k. intros [= <-]. left. cbn. split.
         ++ destruct Hfk as [[_ Hil _] _ _ _ _]. by apply (Hil lid).
         ++ intros f [= <-]. rewrite lookup_insert_eq. eauto.
      -- intros id f. rewrite lookup_insert. case_decide as Hk; [|by left].
         intros [= <-]. right. cbn. eauto.
      -- intros k m'. rewrite lookup_insert. case_decide as Hk.
         ++ intros [= <-]. right. cbn. rewrite lookup_insert_eq. eauto.
         ++ intros Hm. left. by exists m'.
    * injection Hrun as _ <-. cbn [db].
      unfold after_reject_error.
      apply (foreign_keys_step (after_reject mid facility_match (db w)));
        [..|exact Hfk1]; cbn; try done; eauto.
      -- intros k Hk. rewrite lookup_insert. by case_decide.
      -- intros k i'. rewrite lookup_insert. case_decide as Hk; [|by right].
         subst k. intros [= <-]. left. cbn. split.
         ++ destruct Hfk as [[_ Hil _] _ _ _ _]. by apply (Hil lid).
         ++ intros f Hf. destruct Hfk as [_ _ Hif _ _]. by apply (Hif lid item).
  + by injection Hrun as _ <-.
Qed.

Lemma foreign_keys_create w request :
  (∀ c, Request.user_contributor request = Some c →
        is_Some (Contributor_objects (db w) !! c)) →
  foreign_keys_valid (db w) →
  foreign_keys_valid (db (create request w).2).
Proof.
  intros Huser Hfk.
  destruct (create request w) as [r w'] eqn:Hrun. cbn [snd].
  unfold create in Hrun.
  apply transaction_atomic_inv in Hrun as [(a & -> & Hrun)|[_ ->]]; [|done].
  destruct (create_view_inv _ _ _ _ Hrun)
    as (csv_file & header & raws & contributor & old & Hacc & Hold & _ & -> & _).
  destruct Hacc as [_ _ _ _ _ _ _ _ Hcontrib].
  set (pk' := next_pk (FacilityList_objects (db w))).
  set (new_list := uploaded_list request csv_file header contributor (fst <$> old)).
  destruct (bulk_created_spec (rows_as_items pk' raws)
              (FacilityListItem_objects (db w)))
    as (keys & _ & _ & _ & _ & Hkeep & Hall).
  assert (old = None
          ∨ ∃ l row, old = Some (l, row)
                     ∧ FacilityList_objects (db w) !! l = Some row) as Hold'.
  { destruct (Request.replaces request) as [[l|]|]; [|done|by left].
    destruct Hold as (row & -> & ? & _). right. by exists l, row. }
  assert (FacilityList_objects (after_create pk' new_list old raws (db w)) !! pk'
          = Some new_list) as Hnew.
  { cbn. destruct Hold' as [->|(l & row & -> & Hrow)].
    - apply lookup_insert_eq.
    - cbn. rewrite lookup_insert_ne, lookup_insert_eq; [done|].
      intros Heq. apply next_pk_ne in Hrow. by subst pk'. }
  apply (foreign_keys_step (db w)); [..|exact Hfk]; try done.
  + cbn. intros k Hk. destruct Hold' as [->|(l & row & -> & Hrow)]; cbn.
    * rewrite lookup_insert. by case_decide.
    * rewrite !lookup_insert. by repeat case_decide.
  + cbn. intros k [it Hk]. rewrite (Hkeep k it Hk). eauto.
  + intros k l' Hk.
    destruct (decide (k = pk')) as [->|Hne].
    * rewrite Hnew in Hk. injection Hk as <-. right. cbn. split.
      -- intros c [= <-]. by apply Huser.
      -- intros r Hr. destruct Hold' as [->|(l & row & -> & Hrow)];
           [done|]. cbn in Hr. injection Hr as <-. eauto.
    * cbn in Hk. destruct Hold' as [->|(l & row & -> & Hrow)]; cbn in Hk.
      -- rewrite lookup_insert_ne in Hk by done. left. by exists l'.
      -- rewrite lookup_insert in Hk. case_decide as Hl.
         ++ subst k. injection Hk as <-. left. by exists row.
         ++ rewrite lookup_insert_ne in Hk by done. left. by exists l'.
  + intros k i' Hk. cbn in Hk. apply Hall in Hk as [Hk|(j & _ & Hj)];
      [by right|left].
    unfold rows_as_items in Hj. rewrite list_lookup_imap in Hj.
    destruct (raws !! j) as [raw|]; [|done]. injection Hj as <-.
    split; [|done].
    cbn [FacilityListItem.facility_list FacilityListItem.new].
    rewrite Hnew. eauto.
  + cbn. intros id f Hf. by left.
  + cbn. intros k m' Hm. left. by exists m'.
Qed.

(** X10. The three views that write keep the references between the
    tables valid, whatever they return: when every match refers to an
    item and a facility there are, every item to a list and, if linked,
    to a facility, every facility to the item it was created from, and
    every list to its contributor and to the list it replaces, the same
    holds after [confirm_match], after [reject_match], and after
    [create] by a user whose contributor, if any, is there. *)
Theorem foreign_keys_preserved w request pk :
  foreign_keys_valid (db w) →
  foreign_keys_valid (db (confirm_match request pk w).2)
  ∧ foreign_keys_valid (db (reject_match request pk w).2)
  ∧ ((∀ c, Request.user_contributor request = Some c →
           is_Some (Contributor_objects (db w) !! c)) →
       foreign_keys_valid (db (create request w).2)).
Proof.
  intros Hfk. split; [|split].
  - by apply foreign_keys_confirm_match.
  - by apply foreign_keys_reject_match.
  - intros Huser. by apply foreign_keys_create.
Qed.
End ForeignKeys.

(** ** The views that read, and the views that write *)

Section ReadsMore.
Context {Env : Type} `{!Capabilities Env} `{!Framework}.
Implicit Types (w : @World Env) (request : Request.t) (s : Store).

(** X11. The number of facilities that [FacilitiesViewSet.count] tells
    is the same after [confirm_match] as before, whatever the call
    returns; after [reject_match] it is the same or one more, and it is
    one more exactly when the call returns and leaves the item of its
    answer in status [CONFIRMED_MATCH]. *)
Theorem count_after_adjudication w request pk :
  (∀ r w', confirm_match request pk w = (r, w') →
           FacilitiesViewSet_count w' = (Ok (size (Facility_objects (db w))), w'))
  ∧ (∀ r w', reject_match request pk w = (r, w') →
       ∃ n, FacilitiesViewSet_count w' = (Ok n, w')
            ∧ (n = size (Facility_objects (db w))
               ∨ n = S (size (Facility_objects (db w))))
            ∧ (n = S (size (Facility_objects (db w)))
               ↔ ∃ response,
                   r = Ok response
                   ∧ FacilityListItem.status (response_item response).2
                     = FacilityListItem.CONFIRMED_MATCH)).
Proof.
  unfold FacilitiesViewSet_count. cbv [mbind M_bind mret M_ret get_db]. split.
  - intros r w' Hrun. do 2 f_equal. unfold confirm_match in Hrun.
    apply transaction_atomic_inv in Hrun as [(a & -> & Hrun)|[_ ->]]; [|done].
    destruct (confirm_match_view_inv _ _ _ _ _ Hrun)
      as (lid & mid & item & facility_match & Hadj & Hst & Hms).
    rewrite (confirm_match_view_ok _ _ _ _ _ _ _ Hadj Hst Hms) in Hrun.
    by injection Hrun as _ <-.
  - intros r w' Hrun. eexists. split; [reflexivity|]. unfold reject_match in Hrun.
    apply transaction_atomic_inv in Hrun as [(a & -> & Hrun)|[Hno ->]].
    + destruct (reject_match_view_inv _ _ _ _ _ Hrun)
        as (lid & mid & item & facility_match & Hadj & Hst & Hms).
      rewrite (reject_match_view_run _ _ _ _ _ _ _ Hadj Hst Hms) in Hrun.
      cbv zeta in Hrun. case_decide.
      * destruct (FacilityListItem.geocoded_point item) as [location|].
        -- pose proof (new_oar_id_fresh fuel (FacilityListItem.country_code item)
                         {| db := after_reject mid facility_match (db w);
                            env := env w |}) as Hfresh.
           destruct (new_oar_id _ _ _) as [[new_id|e|] w1]; try discriminate.
           case_decide; [|discriminate]. injection Hrun as <- <-. cbn.
           rewrite map_size_insert_None by (by apply (Hfresh new_id w1)).
           split; [by right|]. split; [by eexists|done].
        -- injection Hrun as <- <-. cbn. split; [by left|]. split; [lia|].
           intros (response & [= <-] & Hstatus). discriminate.
      * injection Hrun as <- <-. cbn. split; [by left|]. split; [lia|].
        intros (response & [= <-] & Hstatus). cbn in Hstatus. congruence.
    + split; [by left|]. split; [lia|]. intros (response & -> & _).
      by destruct (Hno response).
Qed.

(** X12. [FacilityListViewSet.list] shows the lists of the contributor
    of the user, each once, and no other list; [retrieve] and [items]
    serve exactly these lists and answer [NotFound] for every other
    key. None of them writes. Without a contributor, [list] answers a
    validation error. *)
Theorem own_lists_only w request :
  (Request.user_contributor request = None →
     FacilityListViewSet_list request w
     = (Raise (ValidationError "User contributor cannot be None"), w))
  ∧ (∀ c, Request.user_contributor request = Some c →
       ∃ rows,
         FacilityListViewSet_list request w = (Ok rows, w)
         ∧ NoDup rows.*1
         ∧ (∀ k l, (k, l) ∈ rows
                   ↔ FacilityList_objects (db w) !! k = Some l
                     ∧ FacilityList.contributor l = Some c)
         ∧ (∀ pk l, (pk, l) ∈ rows →
              FacilityListViewSet_retrieve request pk w = (Ok (pk, l), w)
              ∧ FacilityListViewSet_items request pk w
                = (Ok (paginated (items_of pk (db w))), w))
         ∧ (∀ pk, pk ∉ rows.*1 →
              FacilityListViewSet_retrieve request pk w = (Raise NotFound, w)
              ∧ FacilityListViewSet_items request pk w = (Raise NotFound, w))).
Proof.
  unfold FacilityListViewSet_list, FacilityListViewSet_retrieve,
    FacilityListViewSet_items, try_except, request_user_contributor, objects_get.
  cbv [mbind M_bind mret M_ret get_db raise]. split.
  - by intros ->.
  - intros c ->. exists (lists_of c (db w)).
    assert (∀ k l, (k, l) ∈ lists_of c (db w)
                   ↔ FacilityList_objects (db w) !! k = Some l
                     ∧ FacilityList.contributor l = Some c) as Hin.
    { intros k l. unfold lists_of.
      by rewrite elem_of_map_to_list, map_lookup_filter_Some. }
    split; [done|]. split; [apply NoDup_fst_map_to_list|]. split; [done|]. split.
    + intros pk l [Hl Hc]%Hin. rewrite Hl. by rewrite decide_True by done.
    + intros pk Hnot.
      destruct (FacilityList_objects (db w) !! pk) as [l|] eqn:Hl; [|done].
      rewrite decide_False; [done|]. intros Hc. apply Hnot.
      apply list_elem_of_fmap. exists (pk, l). split; [done|]. by apply Hin.
Qed.

(** X13. The facility that [reject_match] creates, when it leaves the
    item in status [CONFIRMED_MATCH], is found by
    [FacilitiesViewSet.retrieve] under the OAR ID that the item is
    linked to, and was not found under it before the call; it has the
    name, address and country code of the item and was created from the
    item. In a database with valid references it has no other names and
    no other addresses: its only match is the one of the item, whose
    name and address are its own. *)
Theorem rejected_item_facility w request pk response w' :
  foreign_keys_valid (db w) →
  reject_match request pk w = (Ok response, w') →
  FacilityListItem.status (response_item response).2
  = FacilityListItem.CONFIRMED_MATCH →
  ∃ new_id row,
    FacilityListItem.facility (response_item response).2 = Some new_id
    ∧ FacilitiesViewSet_retrieve new_id w = (Raise NotFound, w)
    ∧ FacilitiesViewSet_retrieve new_id w' = (Ok (new_id, row), w')
    ∧ Facility.created_from row = (response_item response).1
    ∧ Facility.name row = FacilityListItem.name (response_item response).2
    ∧ Facility.address row = FacilityListItem.address (response_item response).2
    ∧ Facility.country_code row
      = FacilityListItem.country_code (response_item response).2
    ∧ FacilityListItem.geocoded_point (response_item response).2
      = Some (Facility.location row)
    ∧ other_names (new_id, row) w' = (Ok ∅, w')
    ∧ other_addresses (new_id, row) w' = (Ok ∅, w').
Proof.
  intros Hfk Hrun Hstatus.
  pose proof (foreign_keys_reject_match w request pk Hfk) as Hfk'.
  rewrite Hrun in Hfk'. cbn [snd] in Hfk'.
  unfold reject_match in Hrun.
  apply transaction_atomic_inv in Hrun as [(a & [= <-] & Hrun)|[Hno _]];
    [|by destruct (Hno response)].
  destruct (reject_match_view_inv _ _ _ _ _ Hrun)
    as (lid & mid & item & facility_match & Hadj & Hst & Hms).
  rewrite (reject_match_view_run _ _ _ _ _ _ _ Hadj Hst Hms) in Hrun.
  cbv zeta in Hrun. destruct Hadj as [_ _ _ Hit _ Hma _].
  case_decide;
    [|injection Hrun as <- <-; cbn in Hstatus; congruence].
  destruct (FacilityListItem.geocoded_point item) as [location|] eqn:Hpoint;
    [|injection Hrun as <- <-; discriminate].
  pose proof (new_oar_id_fresh fuel (FacilityListItem.country_code item)
                {| db := after_reject mid facility_match (db w); env := env w |})
    as Hfresh.
  destruct (new_oar_id _ _ _) as [[new_id|e|] w1]; try discriminate.
  specialize (Hfresh new_id w1 eq_refl). cbn in Hfresh.
  case_decide; [|discriminate]. injection Hrun as <- <-. cbn [db] in *.
  set (s' := after_reject_create lid mid item facility_match new_id location (db w))
    in *.
  set (row := facility_of_item lid item location).
  exists new_id, row. cbn [response_item fst snd].
  split; [done|].
  unfold FacilitiesViewSet_retrieve. cbv [mbind M_bind mret M_ret get_db raise].
  cbn [db]. rewrite Hfresh. split; [done|].
  assert (Facility_objects s' !! new_id = Some row) as ->
    by apply lookup_insert_eq.
  split; [done|]. split; [done|]. split; [done|]. split; [done|].
  split; [done|]. split; [done|].
  (* the list items of the matches of the new facility *)
  set (w' := {| db := s'; env := env w1 |}).
  destruct (facility_list_item_matches_run (new_id, row) w' (fk_integrity _ Hfk'))
    as (rows & Hrows & Hin).
  assert (∀ r, r ∈ rows → r.2 = item_with_new_facility item new_id) as Honly.
  { intros [k it] (key & m & Hm & Hfac & _ & Hk & Hi)%Hin. cbn in *.
    unfold s', after_reject_create in Hm. cbn in Hm.
    rewrite lookup_insert in Hm. case_decide as Hkey.
    - injection Hm as <-. cbn in Hk. subst k.
      unfold s', after_reject_create in Hi. cbn in Hi.
      rewrite lookup_insert_eq in Hi. by injection Hi as <-.
    - exfalso. rewrite lookup_insert in Hm.
      assert (∃ m0, (FacilityMatch_objects (db w) !! key = Some m0
                     ∨ FacilityMatch_objects (db w) !! mid = Some m0)
                    ∧ FacilityMatch.facility m0 = new_id) as (m0 & Hm0 & Hf0).
      { case_decide.
        - injection Hm as <-. exists facility_match. split; [by right|done].
        - exists m. split; [by left|done]. }
      assert (is_Some (Facility_objects (db w) !! FacilityMatch.facility m0))
        as [f Hf].
      { destruct Hm0 as [Hm0|Hm0]; by apply (fk_match_facility _ Hfk _ _ Hm0). }
      congruence. }
  assert (Forall (λ r : Z * FacilityListItem.t,
                    is_Some (FacilityList_objects (db w')
                               !! FacilityListItem.facility_list r.2)) rows)
    as Hlists.
  { apply Forall_forall. intros [k it] (key & m & _ & _ & _ & _ & Hi)%Hin.
    by apply (item_list _ (fk_integrity _ Hfk') k). }
  assert (∀ column own,
            own = column (item_with_new_facility item new_id) →
            other_values column own rows ∅ w' = (Ok ∅, w')) as Hempty.
  { intros column own ->.
    destruct (other_values_run column
                (column (item_with_new_facility item new_id)) rows ∅ w' Hlists)
      as (values & -> & Hvalues).
    do 2 f_equal. apply elem_of_equiv_empty_L. intros x Hx.
    apply Hvalues in Hx as [Hx|(r & l & Hr & Hcol & _ & Hown & _)];
      [by apply not_elem_of_empty in Hx|].
    apply Honly in Hr. congruence. }
  unfold other_names, other_addresses. cbv [mbind M_bind]. rewrite Hrows.
  split; by apply Hempty.
Qed.

(** *** The items of a list *)

Lemma sorted_by_lookup {A : Type} (R : relation A) (l : list A) :
  (∀ i j a b, l !! i = Some a → l !! j = Some b → (i < j)%nat → R a b) →
  StronglySorted R l.
Proof.
  induction l as [|x l IH]; intros Hl; constructor.
  - apply IH. intros i j a b Ha Hb Hij. apply (Hl (S i) (S j)); [done|done|lia].
  - apply Forall_lookup. intros j b Hb. apply (Hl 0%nat (S j)); [done|done|lia].
Qed.

Lemma items_of_spec pk s :
  Sorted by_row_index (items_of pk s)
  ∧ NoDup (items_of pk s).*1
  ∧ (∀ k item, (k, item) ∈ items_of pk s
               ↔ FacilityListItem_objects s !! k = Some item
                 ∧ FacilityListItem.facility_list item = pk).
Proof.
  assert (Total by_row_index) by (intros a b; unfold by_row_index; lia).
  unfold items_of. split; [apply Sorted_merge_sort; apply _|]. split.
  - rewrite merge_sort_Permutation. apply NoDup_fst_map_to_list.
  - intros k item.
    by rewrite merge_sort_Permutation, elem_of_map_to_list, map_lookup_filter_Some.
Qed.

Lemma items_run w request pk c l :
  Request.user_contributor request = Some c →
  FacilityList_objects (db w) !! pk = Some l →
  FacilityList.contributor l = Some c →
  FacilityListViewSet_items request pk w
  = (Ok (paginated (items_of pk (db w))), w).
Proof.
  intros Hc Hl Hlc.
  unfold FacilityListViewSet_items, try_except, request_user_contributor,
    objects_get.
  cbv [mbind M_bind mret M_ret get_db raise]. rewrite Hc, Hl.
  by rewrite decide_True by done.
Qed.

(** X14. For a list of the contributor of the user,
    [FacilityListViewSet.items] pages through the items of that list:
    every item of the list once, no item of another list, and in the
    order of [row_index]. It writes nothing. *)
Theorem items_in_row_order w request pk c l :
  Request.user_contributor request = Some c →
  FacilityList_objects (db w) !! pk = Some l →
  FacilityList.contributor l = Some c →
  ∃ rows,
    FacilityListViewSet_items request pk w = (Ok (paginated rows), w)
    ∧ Sorted by_row_index rows
    ∧ NoDup rows.*1
    ∧ (∀ k item, (k, item) ∈ rows
                 ↔ FacilityListItem_objects (db w) !! k = Some item
                   ∧ FacilityListItem.facility_list item = pk).
Proof.
  intros Hc Hl Hlc. exists (items_of pk (db w)).
  split; [by eapply items_run|]. apply items_of_spec.
Qed.

(** The items of a new list, read back in the order of their row
    index, are the items that were made of the rows. *)
Lemma items_of_bulk_created pk raws (s s' : Store) :
  (∀ k i, FacilityListItem_objects s !! k = Some i →
          FacilityListItem.facility_list i ≠ pk) →
  FacilityListItem_objects s'
  = bulk_created (rows_as_items pk raws) (FacilityListItem_objects s) →
  (items_of pk s').*2 = rows_as_items pk raws.
Proof.
  intros Hother Htable.
  destruct (bulk_created_spec (rows_as_items pk raws) (FacilityListItem_objects s))
    as (keys & Hlen & Hsorted & Habove & Hnew & Hold & Hall).
  rewrite <-Htable in Hnew, Hold, Hall.
  set (R := λ a b : FacilityListItem.t,
              FacilityListItem.row_index a ≤ FacilityListItem.row_index b).
  assert (Transitive R) by (intros a b c; unfold R; lia).
  assert (Total by_row_index) by (intros a b; unfold by_row_index; lia).
  assert (∀ j it, rows_as_items pk raws !! j = Some it →
                  FacilityListItem.row_index it = Z.of_nat j
                  ∧ FacilityListItem.facility_list it = pk) as Hrow.
  { intros j it. unfold rows_as_items. rewrite list_lookup_imap.
    destruct (raws !! j); [|done]. cbn. by intros [= <-]. }
  assert (∀ k it, (k, it) ∈ items_of pk s'
                  ↔ ∃ j, keys !! j = Some k
                         ∧ rows_as_items pk raws !! j = Some it) as Hin.
  { intros k it. rewrite (proj2 (proj2 (items_of_spec pk s'))). split.
    - intros [Hk Hpk]. apply Hall in Hk as [Hk|Hk]; [|done].
      by destruct (Hother _ _ Hk).
    - intros (j & Hj & Hit). destruct (Hnew _ _ Hit) as (k' & Hk' & Hstored).
      assert (k' = k) as -> by congruence. split; [done|].
      by destruct (Hrow _ _ Hit). }
  symmetry. apply (Sorted_unique_strong R).
  - intros x1 x2 [j1 Hx1]%list_elem_of_lookup
      ([k it] & -> & (j2 & _ & Hx2)%Hin)%list_elem_of_fmap Hle1 Hle2.
    cbn in *. destruct (Hrow _ _ Hx1) as [Hr1 _], (Hrow _ _ Hx2) as [Hr2 _].
    unfold R in *. assert (j1 = j2) as -> by lia. congruence.
  - apply StronglySorted_Sorted, sorted_by_lookup. intros i j a b Ha Hb Hij.
    destruct (Hrow _ _ Ha) as [Hra _], (Hrow _ _ Hb) as [Hrb _]. unfold R. lia.
  - apply (Sorted_fmap snd by_row_index R); [done|].
    apply (proj1 (items_of_spec pk s')).
  - apply NoDup_Permutation.
    + apply NoDup_alt. intros i j x Hi Hj.
      destruct (Hrow _ _ Hi) as [Hri _], (Hrow _ _ Hj) as [Hrj _]. lia.
    + apply NoDup_fmap_2_strong.
      * intros [k1 it1] [k2 it2] (j1 & Hk1 & Hit1)%Hin (j2 & Hk2 & Hit2)%Hin Heq.
        cbn in Heq. subst it2.
        destruct (Hrow _ _ Hit1) as [Hr1 _], (Hrow _ _ Hit2) as [Hr2 _].
        assert (j1 = j2) as -> by lia. congruence.
      * eapply NoDup_fmap_1, (proj1 (proj2 (items_of_spec pk s'))).
    + intros x. rewrite list_elem_of_fmap, list_elem_of_lookup. split.
      * intros [j Hj]. destruct (Hnew _ _ Hj) as (k & Hk & _).
        exists (k, x). split; [done|]. apply Hin. by exists j.
      * intros ([k it] & -> & (j & _ & Hit)%Hin). by exists j.
Qed.

(** X15. A list that [create] has stored is served back to its
    uploader: [FacilityListViewSet.retrieve] answers the list that
    [create] answered, and [FacilityListViewSet.items] pages through
    one item per line of the file after the header, in the order of the
    lines, each with its line as raw data and in status [UPLOADED].
    The items of the lists there were are not among them, when every
    item there was is an item of a list there was. *)
Theorem items_after_create w request r w' :
  referential_integrity (db w) →
  create request w = (Ok r, w') →
  ∃ csv_file header raws rows,
    Request.file request = Some csv_file
    ∧ file_lines csv_file = Some header :: (Some <$> raws)
    ∧ FacilityListViewSet_retrieve request r.1 w' = (Ok r, w')
    ∧ FacilityListViewSet_items request r.1 w' = (Ok (paginated rows), w')
    ∧ rows.*2 = rows_as_items r.1 raws
    ∧ length rows = length raws
    ∧ (∀ j raw, raws !! j = Some raw →
         rows.*2 !! j = Some (FacilityListItem.new (Z.of_nat j) r.1 raw)).
Proof.
  intros Hri Hrun%create_inv.
  destruct (create_view_inv _ _ _ _ Hrun)
    as (csv_file & header & raws & contributor & old & Hacc & Hold & -> & Hdb & _).
  destruct Hacc as [Hfile _ _ Hlines _ _ _ _ Hcontrib].
  set (pk := next_pk (FacilityList_objects (db w))) in *.
  set (new_list := uploaded_list request csv_file header contributor (fst <$> old))
    in *.
  cbn [fst snd].
  assert (FacilityList_objects (db w') !! pk = Some new_list) as Hlist.
  { rewrite Hdb. cbn. destruct old as [[l row]|]; cbn.
    - destruct (Request.replaces request) as [[l'|]|]; try done.
      destruct Hold as (row' & [= -> ->] & Hrow & _).
      rewrite lookup_insert_ne; [apply lookup_insert_eq|].
      intros ->. by apply next_pk_ne in Hrow.
    - apply lookup_insert_eq. }
  assert ((items_of pk (db w')).*2 = rows_as_items pk raws) as Hitems.
  { apply (items_of_bulk_created pk raws (db w)); [|by rewrite Hdb].
    intros k i Hi Hpk. destruct (item_list _ Hri _ _ Hi) as [l Hl].
    rewrite Hpk in Hl. unfold pk in Hl. by rewrite next_pk_fresh in Hl. }
  exists csv_file, header, raws, (items_of pk (db w')).
  split; [done|]. split; [done|]. split.
  { unfold FacilityListViewSet_retrieve, try_except, request_user_contributor,
      objects_get.
    cbv [mbind M_bind mret M_ret get_db raise]. rewrite Hcontrib, Hlist.
    by rewrite decide_True by done. }
  split; [by apply (items_run w' request pk contributor new_list)|].
  split; [done|]. split.
  { rewrite <-(length_fmap snd), Hitems. unfold rows_as_items.
    by rewrite length_imap. }
  intros j raw Hj. rewrite Hitems. unfold rows_as_items.
  by rewrite list_lookup_imap, Hj.
Qed.

(** *** The contributors and the facilities *)

(** X16. [all_contributors] lists the contributors that have a list
    which is both active and public, each once with its name, and no
    other contributor: a contributor whose active lists are private and
    whose public lists are inactive is not listed. The rows are in the
    order of the names, when that order compares any two names. It
    writes nothing. *)
Theorem all_contributors_listing w :
  ∃ rows,
    all_contributors w = (Ok rows, w)
    ∧ NoDup rows.*1
    ∧ (∀ k name,
         (k, name) ∈ rows
         ↔ ∃ c, Contributor_objects (db w) !! k = Some c
                ∧ Contributor.name c = name
                ∧ ∃ pk l, FacilityList_objects (db w) !! pk = Some l
                          ∧ FacilityList.contributor l = Some k
                          ∧ FacilityList.is_active l = true
                          ∧ FacilityList.is_public l = true)
    ∧ ((∀ a b, name_le a b = true ∨ name_le b a = true) →
         Sorted (λ a b : Z * string, name_le a.2 b.2 = true) rows).
Proof.
  unfold all_contributors. cbv [mbind M_bind mret M_ret get_db].
  eexists. split; [reflexivity|]. split; [|split].
  - rewrite <-list_fmap_compose.
    assert ((fst ∘ (λ kc : Z * Contributor.t, (kc.1, Contributor.name kc.2)))
            = fst) as -> by done.
    rewrite merge_sort_Permutation. apply NoDup_fst_map_to_list.
  - intros k name. rewrite list_elem_of_fmap. split.
    + intros ([k' c] & [= -> ->] & Hin). rewrite merge_sort_Permutation in Hin.
      apply elem_of_map_to_list, map_lookup_filter_Some in Hin
        as [Hc (pk & l & Hl & Hlc & Hact & Hpub)].
      exists c. split; [done|]. split; [done|]. by exists pk, l.
    + intros (c & Hc & <- & pk & l & Hl & Hlc & Hact & Hpub).
      exists (k, c). split; [done|]. rewrite merge_sort_Permutation.
      apply elem_of_map_to_list, map_lookup_filter_Some. split; [done|].
      by exists pk, l.
  - intros Htotal.
    assert (Total by_name) by (intros a b; apply Htotal).
    apply (Sorted_fmap _ by_name); [done|]. apply Sorted_merge_sort; apply _.
Qed.

Lemma positive_match_of_spec s (on_list : FacilityList.t → bool) m :
  positive_match_of s on_list m = true
  ↔ (FacilityMatch.status m = FacilityMatch.AUTOMATIC
     ∨ FacilityMatch.status m = FacilityMatch.CONFIRMED)
    ∧ ∃ item l,
        FacilityListItem_objects s !! FacilityMatch.facility_list_item m = Some item
        ∧ FacilityList_objects s !! FacilityListItem.facility_list item = Some l
        ∧ on_list l = true
        ∧ FacilityList.is_active l = true.
Proof.
  unfold positive_match_of. rewrite andb_true_iff, bool_decide_eq_true.
  destruct (FacilityListItem_objects s !! FacilityMatch.facility_list_item m)
    as [item|] eqn:Hitem; cbn.
  - destruct (FacilityList_objects s !! FacilityListItem.facility_list item)
      as [l|] eqn:Hl; cbn.
    + rewrite andb_true_iff. split.
      * intros [Hst [Hon Hact]]. split; [done|]. by exists item, l.
      * intros [Hst (item' & l' & [= <-] & Hl' & Hon & Hact)].
        rewrite Hl in Hl'. by injection Hl' as <-.
    + split; [by intros [_ ?]|].
      intros [_ (item' & l' & [= <-] & Hl' & _)]. congruence.
  - split; [by intros [_ ?]|]. by intros [_ (item' & l' & ? & _)].
Qed.

Lemma match_facility_ids_spec s (on_list : FacilityList.t → bool)
    (P : FacilityList.t → Prop) id :
  (∀ l, on_list l = true ↔ P l) →
  id ∈ match_facility_ids s on_list ↔ supplied_by s P id.
Proof.
  intros HP. unfold match_facility_ids, supplied_by.
  rewrite list_elem_of_fmap. split.
  - intros ([k m] & -> & [Hpos Hin]%list_elem_of_filter).
    apply elem_of_map_to_list in Hin. cbn in Hpos.
    apply positive_match_of_spec in Hpos
      as (Hst & item & l & Hitem & Hl & Hon & Hact).
    exists k, m, item, l. repeat split; try done. by apply HP.
  - intros (k & m & item & l & Hm & <- & Hst & Hitem & Hl & Hact & Hon).
    exists (k, m). split; [done|]. apply list_elem_of_filter. split.
    + cbn. apply positive_match_of_spec. split; [done|].
      exists item, l. repeat split; try done. by apply HP.
    + by apply elem_of_map_to_list.
Qed.

Lemma of_contributor_type_spec s contributor_types l :
  of_contributor_type s contributor_types l = true
  ↔ ∃ c, FacilityList.contributor l = Some c
         ∧ is_Some (Contributor_objects s !! c)
         ∧ contrib_type c ∈ contributor_types.
Proof.
  unfold of_contributor_type.
  destruct (FacilityList.contributor l) as [c|]; cbn;
    [|split; [done|by intros (c & ? & _)]].
  destruct (Contributor_objects s !! c) as [row|] eqn:Hrow; cbn.
  - rewrite bool_decide_eq_true. split.
    + intros Hin. exists c. rewrite Hrow. eauto.
    + by intros (c' & [= <-] & _ & Hin).
  - split; [done|]. intros (c' & [= <-] & [row Hrow'] & _). congruence.
Qed.

Lemma of_contributor_spec contributors l :
  of_contributor contributors l = true
  ↔ ∃ c, FacilityList.contributor l = Some c ∧ c ∈ contributors.
Proof.
  unfold of_contributor.
  destruct (FacilityList.contributor l) as [c|]; cbn;
    [|split; [done|by intros (c & ? & _)]].
  rewrite bool_decide_eq_true. split; [by exists c|].
  by intros (c' & [= <-] & Hin).
Qed.

Lemma filter_stage {A : Type} (P : A → Prop) `{!∀ x, Decision (P x)}
    (b : bool) (l : list A) x :
  x ∈ (if b then filter P l else l) ↔ x ∈ l ∧ (b = true → P x).
Proof.
  destruct b; [rewrite list_elem_of_filter|].
  - split; [by intros [HP Hx]|]. intros [Hx HP]. split; [by apply HP|done].
  - split; [by intros Hx|by intros [Hx _]].
Qed.

Lemma filter_stage_NoDup {A : Type} (P : A → Prop) `{!∀ x, Decision (P x)}
    (b : bool) (l : list A) :
  NoDup l → NoDup (if b then filter P l else l).
Proof. destruct b; [apply NoDup_filter|done]. Qed.

Lemma nonempty_length {A : Type} (l : list A) :
  bool_decide (length l ≠ 0%nat) = true ↔ l ≠ [].
Proof. rewrite bool_decide_eq_true. by destruct l. Qed.

(** X17. [FacilitiesViewSet.list] refuses a query that does not
    validate with the errors of the validation. Otherwise it pages
    through the facilities that pass every filter that the query gives,
    each once: the name contains the given name; the country code is
    one of the given countries; for the given contributor types, and
    separately for the given contributors, the facility has an
    automatic or confirmed match of an item of an active list of such a
    contributor. Whether that list is public is not asked. It writes
    nothing. *)
Theorem facilities_listing w query :
  match query_params_errors query with
  | Some errors =>
      FacilitiesViewSet_list query w = (Raise (ValidationError errors), w)
  | None =>
      ∃ queryset,
        FacilitiesViewSet_list query w = (Ok (paginated queryset), w)
        ∧ NoDup queryset.*1
        ∧ (∀ id f, (id, f) ∈ queryset
                   ↔ Facility_objects (db w) !! id = Some f
                     ∧ selected_by (db w) query id f)
  end.
Proof.
  unfold FacilitiesViewSet_list.
  destruct (query_params_errors query) as [errors|]; [done|].
  cbv [mbind M_bind mret M_ret get_db]. cbv zeta.
  eexists. split; [reflexivity|].
  match goal with
  | |- NoDup ?q.*1 ∧ _ =>
      assert (NoDup q
              ∧ ∀ id f, (id, f) ∈ q
                        ↔ Facility_objects (db w) !! id = Some f
                          ∧ selected_by (db w) query id f) as [Hnodup Hin]
  end.
  { split.
    - do 3 apply filter_stage_NoDup.
      destruct (Query.name query);
        [apply NoDup_filter|]; apply NoDup_map_to_list.
    - intros id f. rewrite !filter_stage, !nonempty_length. cbn [fst snd].
      rewrite (match_facility_ids_spec _ _ _ _
                 (of_contributor_type_spec (db w) (Query.contributor_types query))).
      rewrite (match_facility_ids_spec _ _ _ _
                 (of_contributor_spec (Query.contributors query))).
      unfold selected_by.
      destruct (Query.name query) as [name|].
      + rewrite list_elem_of_filter, elem_of_map_to_list. cbn [fst snd].
        split.
        * intros ((((Hname & Hf) & Hcountry) & Htype) & Hcontrib).
          split; [done|]. split; [by intros ? [= <-]|done].
        * intros (Hf & Hname & Hcountry & Htype & Hcontrib).
          repeat split; try done. by apply Hname.
      + rewrite elem_of_map_to_list. split.
        * intros (((Hf & Hcountry) & Htype) & Hcontrib).
          split; [done|]. split; [done|done].
        * intros (Hf & Hname & Hcountry & Htype & Hcontrib). done. }
  split; [|done].
  apply NoDup_fmap_2_strong; [|done].
  intros [id1 f1] [id2 f2] [Hf1 _]%Hin [Hf2 _]%Hin Heq. cbn in Heq.
  subst id2. congruence.
Qed.

(** *** A user without contributor *)

(** X18. What a user without contributor is answered depends on the
    view. [FacilityListViewSet.list] answers a validation error, and so
    does [create] for a file that passes its checks. [retrieve],
    [items], [confirm_match] and [reject_match] do not catch
    [Contributor.DoesNotExist]: it leaves the view, although the list,
    the item and the match may exist. Nothing is written. *)
Theorem user_without_contributor w request :
  Request.user_contributor request = None →
  FacilityListViewSet_list request w
  = (Raise (ValidationError "User contributor cannot be None"), w)
  ∧ (∀ pk, FacilityListViewSet_retrieve request pk w
           = (Raise (DoesNotExist MContributor), w))
  ∧ (∀ pk, FacilityListViewSet_items request pk w
           = (Raise (DoesNotExist MContributor), w))
  ∧ (is_Some (Request.list_item_id request) →
     is_Some (Request.facility_match_id request) →
     ∀ pk, confirm_match request pk w = (Raise (DoesNotExist MContributor), w)
           ∧ reject_match request pk w = (Raise (DoesNotExist MContributor), w))
  ∧ (∀ csv_file header rows,
       Request.file request = Some csv_file →
       in_memory csv_file = true →
       file_size csv_file ≤ MAX_UPLOADED_FILE_SIZE_IN_BYTES →
       file_lines csv_file = Some header :: rows →
       _validate_header header w = (Ok tt, w) →
       create request w
       = (Raise (ValidationError "User contributor cannot be None"), w)).
Proof.
  intros Hnone.
  assert (∀ (A : Type) (body : M A) e,
            body w = (Raise e, w) → transaction_atomic body w = (Raise e, w))
    as Hatomic.
  { intros A body e He. unfold transaction_atomic. rewrite He. by destruct w. }
  unfold FacilityListViewSet_list, FacilityListViewSet_retrieve,
    FacilityListViewSet_items, try_except, request_user_contributor.
  cbv [mbind M_bind mret M_ret get_db raise]. rewrite Hnone.
  split; [done|]. split; [done|]. split; [done|]. split.
  - intros [lid Hlid] [mid Hmid] pk.
    split; apply Hatomic; unfold confirm_match_view, reject_match_view,
      try_except, required, request_user_contributor;
      cbv [mbind M_bind mret M_ret get_db raise]; by rewrite Hlid, Hmid, Hnone.
  - intros csv_file header rows Hfile Hmem Hsize Hlines Hheader.
    apply Hatomic. unfold create_view, required, read_header, try_except,
      request_user_contributor.
    cbv [mbind M_bind mret M_ret get_db raise].
    rewrite Hfile, Hmem. cbn [negb]. rewrite decide_False by lia.
    rewrite Hlines, Hheader. by rewrite Hnone.
Qed.
End ReadsMore.

(** ** More views on the sample registry *)

Lemma sample_foreign_keys : foreign_keys_valid Sample.store.
Proof.
  split.
  - exact sample_referential_integrity.
  - refine (by_rows (λ _ m, is_Some (Facility_objects Sample.store
                                       !! FacilityMatch.facility m))
              (FacilityMatch_objects Sample.store) _).
    vm_compute. reflexivity.
  - intros k i f Hk Hf.
    pose proof (by_rows (λ _ i, FacilityListItem.facility i = None
                                ∨ is_Some (FacilityListItem.facility i
                                           ≫= λ f, Facility_objects Sample.store !! f))
                  (FacilityListItem_objects Sample.store) eq_refl k i Hk)
      as [Hnone|Hsome].
    + rewrite Hf in Hnone. discriminate.
    + rewrite Hf in Hsome. exact Hsome.
  - refine (by_rows (λ _ f, is_Some (FacilityListItem_objects Sample.store
                                       !! Facility.created_from f))
              (Facility_objects Sample.store) _).
    vm_compute. reflexivity.
  - intros k l r Hk Hr.
    pose proof (by_rows (λ _ l, FacilityList.replaces l = None)
                  (FacilityList_objects Sample.store) eq_refl k l Hk) as Hnone.
    cbn beta in Hnone. rewrite Hr in Hnone. discriminate.
Defined.

(** Item 1 is not an item of list 2. *)
Lemma adjudication_not_found_witness :
  confirm_match (Sample.adjudication 1 1) 2 Sample.world
  = (Raise NotFound, Sample.world)
  ∧ reject_match (Sample.adjudication 1 1) 2 Sample.world
    = (Raise NotFound, Sample.world).
Proof.
  apply (adjudication_not_found Sample.world (Sample.adjudication 1 1) 2 1 1 1);
    try reflexivity.
  intros (item & facility_match & [_ _ _ Hitem Hlist _ _]).
  vm_compute in Hitem. injection Hitem as <-. vm_compute in Hlist. discriminate.
Defined.

(** Match 1 of item 1, confirmed, is the positive match of the item. *)
Lemma confirm_match_one_positive_witness :
  ∃ response w',
    confirm_match (Sample.adjudication 1 1) 1 Sample.world = (Ok response, w')
    ∧ ∃ list_item_id facility_match_id facility_match,
        Request.list_item_id (Sample.adjudication 1 1) = Some list_item_id
        ∧ Request.facility_match_id (Sample.adjudication 1 1) = Some facility_match_id
        ∧ FacilityMatch_objects Sample.store !! facility_match_id = Some facility_match
        ∧ positive_matches list_item_id (db w')
          = {[ facility_match_id :=
                 FacilityMatch.set_status FacilityMatch.CONFIRMED facility_match ]}.
Proof.
  destruct (confirm_match (Sample.adjudication 1 1) 1 Sample.world)
    as [[response| |] w'] eqn:Hrun; [|vm_compute in Hrun; discriminate..].
  exists response, w'. split; [reflexivity|].
  exact (confirm_match_one_positive _ _ _ _ _ Hrun).
Defined.

(** The confirmation of match 1 of item 1, asked again. *)
Lemma adjudication_not_repeatable_witness :
  ∃ response w',
    confirm_match (Sample.adjudication 1 1) 1 Sample.world = (Ok response, w')
    ∧ (∃ detail, confirm_match (Sample.adjudication 1 1) 1 w'
                 = (Raise (ValidationError detail), w'))
    ∧ (∃ detail, reject_match (Sample.adjudication 1 1) 1 w'
                 = (Raise (ValidationError detail), w')).
Proof.
  destruct (confirm_match (Sample.adjudication 1 1) 1 Sample.world)
    as [[response| |] w'] eqn:Hrun; [|vm_compute in Hrun; discriminate..].
  exists response, w'. split; [reflexivity|].
  exact (adjudication_not_repeatable _ _ _ _ _ (or_introl Hrun)).
Defined.

(** The only match of item 2 is rejected when facility [US9] was
    created from item 2. *)
Lemma reject_match_seed_conflict_witness :
  ¬ not_yet_seed 2 (db Sample.seeded_world)
  ∧ ∃ w2,
      reject_match (Sample.adjudication 2 3) 1 Sample.seeded_world
      = (Raise (IntegrityError "created_from"), w2)
      ∧ db w2 = db Sample.seeded_world
      ∧ FacilityMatch_objects (db w2) !! 3
        = Some (Sample.facility_match 2 "US1" FacilityMatch.PENDING).
Proof.
  assert (¬ not_yet_seed 2 (db Sample.seeded_world)) as Hseed.
  { intros Hnot.
    apply (Hnot "US9" (Sample.facility "Beta" "2 Road" 2)); reflexivity. }
  split; [exact Hseed|].
  destruct (reject_match_seed_conflict Sample.seeded_world (Sample.adjudication 2 3)
              1 2 3 Sample.item2
              (Sample.facility_match 2 "US1" FacilityMatch.PENDING)
              Sample.point 1%nat)
    as (w1 & w2 & _ & _ & Hrun & Hdb & Hmatch).
  - split; try reflexivity. exists 1, (Sample.facility_list "A"). repeat split.
  - reflexivity.
  - reflexivity.
  - intros k m (Hk & Hitem & Hne).
    refine (by_rows (λ k m, FacilityMatch.facility_list_item m = 2 → k ≠ 3 →
                            FacilityMatch.status m ≠ FacilityMatch.PENDING)
              (FacilityMatch_objects Sample.store) _ k m Hk Hitem Hne).
    vm_compute. reflexivity.
  - reflexivity.
  - vm_compute. lia.
  - reflexivity.
  - exact Hseed.
  - exists w2. split; [exact Hrun|]. split; [exact Hdb|exact Hmatch].
Defined.

(** The answer to the rejection of match 1 of item 1. *)
Lemma adjudication_response_witness :
  ∃ response w',
    reject_match (Sample.adjudication 1 1) 1 Sample.world = (Ok response, w')
    ∧ FacilityListItem_objects (db w') !! (response_item response).1
      = Some (response_item response).2
    ∧ NoDup (list_statuses response)
    ∧ FacilityListItem.status (response_item response).2 ∈ list_statuses response.
Proof.
  destruct (reject_match (Sample.adjudication 1 1) 1 Sample.world)
    as [[response| |] w'] eqn:Hrun; [|vm_compute in Hrun; discriminate..].
  destruct (adjudication_response _ _ _ _ _ (or_intror Hrun))
    as (Hitem & _ & Hnodup & _ & Hstatus).
  exists response, w'. split; [reflexivity|]. split; [exact Hitem|].
  split; [exact Hnodup|exact Hstatus].
Defined.

(** On the sample tape [US1] is taken and [US3] is free: two draws. *)
Lemma new_oar_id_first_free_witness :
  (new_oar_id 5 "US" Sample.world).1 = Ok "US3"
  ∧ (new_oar_id 1 "US" Sample.world).1 = OutOfFuel.
Proof.
  destruct (new_oar_id_first_free "US" Sample.world) as [Hfirst _].
  assert (∀ j, (j < 1)%nat →
               is_Some (Facility_objects (db Sample.world)
                          !! (candidate j "US" (env Sample.world)).1)) as Htaken.
  { intros j Hj. assert (j = 0%nat) as -> by lia. eexists. reflexivity. }
  split.
  - destruct (Hfirst 1%nat 5%nat Htaken eq_refl) as [Hfound _].
    rewrite Hfound by lia. reflexivity.
  - destruct (Hfirst 1%nat 1%nat Htaken eq_refl) as [_ Hout].
    apply Hout. lia.
Defined.

(** The two rows of the sample file. *)
Lemma create_items_witness :
  ∃ r w',
    create Sample.upload Sample.world = (Ok r, w')
    ∧ ∃ csv_file header raws keys,
        Request.file Sample.upload = Some csv_file
        ∧ file_lines csv_file = Some header :: (Some <$> raws)
        ∧ FacilityList.header r.2 = header
        ∧ length keys = length raws
        ∧ StronglySorted Z.lt keys
        ∧ Forall (λ k, FacilityListItem_objects Sample.store !! k = None) keys
        ∧ (∀ j raw, raws !! j = Some raw →
             ∃ k, keys !! j = Some k
                  ∧ FacilityListItem_objects (db w') !! k
                    = Some (FacilityListItem.new (Z.of_nat j) r.1 raw))
        ∧ (∀ k item, FacilityListItem_objects (db w') !! k = Some item →
             FacilityListItem_objects Sample.store !! k = Some item ∨ k ∈ keys)
        ∧ (∀ k item, FacilityListItem_objects Sample.store !! k = Some item →
             FacilityListItem_objects (db w') !! k = Some item).
Proof.
  destruct (create Sample.upload Sample.world)
    as [[r| |] w'] eqn:Hrun; [|vm_compute in Hrun; discriminate..].
  exists r, w'. split; [reflexivity|].
  exact (create_items _ _ _ _ Hrun).
Defined.

(** There is no list 7. *)
Lemma create_replaces_invalid_witness :
  create Sample.stray_upload Sample.world
  = (Raise (ValidationError (pretty 7 ++ " is not a valid FacilityList ID.")),
     Sample.world).
Proof.
  destruct (create_replaces_invalid Sample.world Sample.stray_upload Sample.csv_file
              "country,name,address"
              [Some "US,Alpha,1 Road"; Some "US,Beta,2 Road"] 1) as [Hforeign _].
  - split; try reflexivity.
    + discriminate.
    + discriminate.
    + refine (bool_decide_eq_true_1 _ _). vm_compute. reflexivity.
    + refine (bool_decide_eq_true_1 _ _). vm_compute. reflexivity.
    + refine (bool_decide_eq_true_1 _ _). vm_compute. reflexivity.
  - apply (Hforeign 7 eq_refl). intros row Hrow. vm_compute in Hrow. discriminate.
Defined.

(** The upload that replaces list 1. *)
Lemma create_frame_witness :
  ∃ r w',
    create Sample.upload Sample.world = (Ok r, w')
    ∧ Facility_objects (db w') = Facility_objects Sample.store
    ∧ FacilityMatch_objects (db w') = FacilityMatch_objects Sample.store
    ∧ FacilityList_objects (db w') !! r.1 = Some r.2
    ∧ FacilityList.replaces r.2 = Some 1
    ∧ FacilityList_objects (db w') !! 2 = Some (Sample.facility_list "B").
Proof.
  destruct (create Sample.upload Sample.world)
    as [[r| |] w'] eqn:Hrun; [|vm_compute in Hrun; discriminate..].
  destruct (create_frame _ _ _ _ Hrun)
    as (_ & Hfacilities & Hmatches & _ & Hnew & _ & _ & _ & Hreplaces & _ & Hother).
  exists r, w'. split; [reflexivity|]. split; [exact Hfacilities|].
  split; [exact Hmatches|]. split; [exact Hnew|]. split; [exact Hreplaces|].
  rewrite Hother; [reflexivity| |].
  - pose proof Hrun as Hrun'. vm_compute in Hrun'. injection Hrun' as <- _.
    discriminate.
  - rewrite Hreplaces. discriminate.
Defined.

(** The three views that write, on the sample registry. *)
Lemma foreign_keys_preserved_witness :
  foreign_keys_valid Sample.store
  ∧ foreign_keys_valid
      (db (confirm_match (Sample.adjudication 1 1) 1 Sample.world).2)
  ∧ foreign_keys_valid
      (db (reject_match (Sample.adjudication 2 3) 1 Sample.world).2)
  ∧ foreign_keys_valid (db (create Sample.upload Sample.world).2).
Proof.
  split; [exact sample_foreign_keys|].
  destruct (foreign_keys_preserved Sample.world (Sample.adjudication 1 1) 1
              sample_foreign_keys) as (Hconfirm & _ & _).
  destruct (foreign_keys_preserved Sample.world (Sample.adjudication 2 3) 1
              sample_foreign_keys) as (_ & Hreject & _).
  destruct (foreign_keys_preserved Sample.world Sample.upload 1
              sample_foreign_keys) as (_ & _ & Hcreate).
  split; [exact Hconfirm|]. split; [exact Hreject|].
  apply Hcreate. intros c Hc. injection Hc as <-. eexists. reflexivity.
Defined.

(** The rejection of the only match of item 2 makes a third facility. *)
Lemma count_after_adjudication_witness :
  ∃ response w',
    reject_match (Sample.adjudication 2 3) 1 Sample.world = (Ok response, w')
    ∧ FacilitiesViewSet_count Sample.world = (Ok 2%nat, Sample.world)
    ∧ FacilitiesViewSet_count w' = (Ok 3%nat, w').
Proof.
  destruct (reject_match (Sample.adjudication 2 3) 1 Sample.world)
    as [[response| |] w'] eqn:Hrun; [|vm_compute in Hrun; discriminate..].
  assert (FacilityListItem.status (response_item response).2
          = FacilityListItem.CONFIRMED_MATCH) as Hstatus.
  { pose proof Hrun as Hrun'. vm_compute in Hrun'. injection Hrun' as <- _.
    reflexivity. }
  destruct (count_after_adjudication Sample.world (Sample.adjudication 2 3) 1)
    as [_ Hreject].
  destruct (Hreject _ _ Hrun) as (n & Hcount & _ & Hmore).
  exists response, w'. split; [reflexivity|]. split; [reflexivity|].
  rewrite Hcount. rewrite (proj2 Hmore); [reflexivity|].
  exists response. split; [reflexivity|exact Hstatus].
Defined.

(** The lists of contributor 1; there is no list 7. *)
Lemma own_lists_only_witness :
  ∃ rows,
    FacilityListViewSet_list (Sample.adjudication 1 1) Sample.world
    = (Ok rows, Sample.world)
    ∧ NoDup rows.*1
    ∧ FacilityListViewSet_retrieve (Sample.adjudication 1 1) 1 Sample.world
      = (Ok (1, Sample.facility_list "A"), Sample.world)
    ∧ FacilityListViewSet_retrieve (Sample.adjudication 1 1) 7 Sample.world
      = (Raise NotFound, Sample.world).
Proof.
  destruct (own_lists_only Sample.world (Sample.adjudication 1 1)) as [_ Hown].
  destruct (Hown 1 eq_refl) as (rows & Hrun & Hnodup & Hin & Hserved & Hnot).
  exists rows. split; [exact Hrun|]. split; [exact Hnodup|]. split.
  - apply (Hserved 1 (Sample.facility_list "A")). apply Hin.
    split; reflexivity.
  - apply Hnot. intros ([k l] & Heq & Hkl)%list_elem_of_fmap.
    cbn in Heq. subst k. apply Hin in Hkl as [Hk _].
    vm_compute in Hk. discriminate.
Defined.

(** The facility that the rejection of the only match of item 2
    creates. *)
Lemma rejected_item_facility_witness :
  foreign_keys_valid Sample.store
  ∧ ∃ response w',
      reject_match (Sample.adjudication 2 3) 1 Sample.world = (Ok response, w')
      ∧ FacilityListItem.status (response_item response).2
        = FacilityListItem.CONFIRMED_MATCH
      ∧ ∃ new_id row,
          FacilityListItem.facility (response_item response).2 = Some new_id
          ∧ FacilitiesViewSet_retrieve new_id Sample.world
            = (Raise NotFound, Sample.world)
          ∧ FacilitiesViewSet_retrieve new_id w' = (Ok (new_id, row), w')
          ∧ Facility.created_from row = 2
          ∧ other_names (new_id, row) w' = (Ok ∅, w')
          ∧ other_addresses (new_id, row) w' = (Ok ∅, w').
Proof.
  split; [exact sample_foreign_keys|].
  destruct (reject_match (Sample.adjudication 2 3) 1 Sample.world)
    as [[response| |] w'] eqn:Hrun; [|vm_compute in Hrun; discriminate..].
  assert (FacilityListItem.status (response_item response).2
          = FacilityListItem.CONFIRMED_MATCH
          ∧ (response_item response).1 = 2) as [Hstatus Hid].
  { pose proof Hrun as Hrun'. vm_compute in Hrun'. injection Hrun' as <- _.
    split; reflexivity. }
  destruct (rejected_item_facility Sample.world (Sample.adjudication 2 3) 1
              response w' sample_foreign_keys Hrun Hstatus)
    as (new_id & row & Hlink & Hbefore & Hafter & Hfrom & _ & _ & _ & _
        & Hnames & Haddresses).
  exists response, w'. split; [reflexivity|]. split; [exact Hstatus|].
  exists new_id, row. split; [exact Hlink|]. split; [exact Hbefore|].
  split; [exact Hafter|]. split; [by rewrite Hfrom|].
  split; [exact Hnames|exact Haddresses].
Defined.

(** The items of list 1, of contributor 1. *)
Lemma items_in_row_order_witness :
  ∃ rows,
    FacilityListViewSet_items (Sample.adjudication 1 1) 1 Sample.world
    = (Ok (paginated rows), Sample.world)
    ∧ Sorted by_row_index rows
    ∧ NoDup rows.*1
    ∧ (∀ k item, (k, item) ∈ rows
                 ↔ FacilityListItem_objects Sample.store !! k = Some item
                   ∧ FacilityListItem.facility_list item = 1).
Proof.
  exact (items_in_row_order Sample.world (Sample.adjudication 1 1) 1 1
           (Sample.facility_list "A") eq_refl eq_refl eq_refl).
Defined.

(** The sample file, uploaded and read back. *)
Lemma items_after_create_witness :
  referential_integrity Sample.store
  ∧ ∃ r w' rows,
      create Sample.upload Sample.world = (Ok r, w')
      ∧ FacilityListViewSet_retrieve Sample.upload r.1 w' = (Ok r, w')
      ∧ FacilityListViewSet_items Sample.upload r.1 w' = (Ok (paginated rows), w')
      ∧ rows.*2 = rows_as_items r.1 ["US,Alpha,1 Road"; "US,Beta,2 Road"].
Proof.
  split; [exact sample_referential_integrity|].
  destruct (create Sample.upload Sample.world)
    as [[r| |] w'] eqn:Hrun; [|vm_compute in Hrun; discriminate..].
  destruct (items_after_create Sample.world Sample.upload r w'
              sample_referential_integrity Hrun)
    as (csv_file & header & raws & rows & Hfile & Hlines & Hretrieve & Hitems
        & Hrows & _).
  injection Hfile as <-. injection Hlines as _ Hraws.
  exists r, w', rows. split; [reflexivity|]. split; [exact Hretrieve|].
  split; [exact Hitems|]. rewrite Hrows. f_equal.
  apply (inj (fmap Some)). symmetry. exact Hraws.
Defined.

(** The contributors of the sample registry, by name. *)
Lemma all_contributors_listing_witness :
  ∃ rows,
    all_contributors Sample.world = (Ok rows, Sample.world)
    ∧ NoDup rows.*1
    ∧ (1, "Org") ∈ rows
    ∧ Sorted (λ a b : Z * string, name_le a.2 b.2 = true) rows.
Proof.
  destruct (all_contributors_listing Sample.world)
    as (rows & Hrun & Hnodup & Hin & Hsorted).
  exists rows. split; [exact Hrun|]. split; [exact Hnodup|]. split.
  - apply Hin. exists Sample.org. split; [reflexivity|]. split; [reflexivity|].
    exists 1, (Sample.facility_list "A"). repeat split.
  - apply Hsorted. exact String.leb_total.
Defined.

(** The sample query selects facility [US1], by match 5 of item 4. *)
Lemma facilities_listing_witness :
  ∃ queryset,
    FacilitiesViewSet_list Sample.query Sample.world
    = (Ok (paginated queryset), Sample.world)
    ∧ NoDup queryset.*1
    ∧ Sample.us1 ∈ queryset
    ∧ ("US2", Sample.facility "Omega" "9 Road" 6) ∉ queryset.
Proof.
  destruct (facilities_listing Sample.world Sample.query)
    as (queryset & Hrun & Hnodup & Hin).
  exists queryset. split; [exact Hrun|]. split; [exact Hnodup|]. split.
  - apply Hin. split; [reflexivity|]. split; [|split; [|split]].
    + intros name Hname. injection Hname as <-. vm_compute. reflexivity.
    + intros _. constructor.
    + intros Hne. by destruct Hne.
    + intros _.
      exists 5, (Sample.facility_match 4 "US1" FacilityMatch.AUTOMATIC),
        Sample.item4, (Sample.facility_list "A").
      split; [reflexivity|]. split; [reflexivity|]. split; [by left|].
      split; [reflexivity|]. split; [reflexivity|]. split; [reflexivity|].
      exists 1. split; [reflexivity|constructor].
  - intros [_ [Hname _]]%Hin. specialize (Hname "acme" eq_refl).
    vm_compute in Hname. discriminate.
Defined.

(** A user without contributor, on the sample registry. *)
Lemma user_without_contributor_witness :
  FacilityListViewSet_retrieve Sample.stranger 1 Sample.world
  = (Raise (DoesNotExist MContributor), Sample.world)
  ∧ confirm_match Sample.stranger 1 Sample.world
    = (Raise (DoesNotExist MContributor), Sample.world)
  ∧ create Sample.stranger Sample.world
    = (Raise (ValidationError "User contributor cannot be None"), Sample.world).
Proof.
  destruct (user_without_contributor Sample.world Sample.stranger eq_refl)
    as (_ & Hretrieve & _ & Hadjudication & Hcreate).
  split; [apply Hretrieve|]. split.
  - apply Hadjudication; eexists; reflexivity.
  - apply (Hcreate Sample.csv_file "country,name,address"
             [Some "US,Alpha,1 Road"; Some "US,Beta,2 Road"]); try reflexivity.
    vm_compute. discriminate.
Defined.
